(** * AutoThumb: a shallow embedding of the thumbnail pipeline

    The development follows the Python sources of the repository:

    - [autothumb/core/video.py]    : [VideoProcessor] (probe, frame sampling)
    - [autothumb/core/analyzer.py] : [FrameAnalyzer] (frame selection)
    - [autothumb/core/composer.py] : [ThumbnailComposer] (text layout)
    - [autothumb/cli/main.py]      : [generate] (the pipeline)

    Python exceptions are an explicit error type, external tools (ffprobe,
    ffmpeg, the hosted model, the imaging library, the file system) are
    oracles threaded through a world state that also records the trace of
    external calls.  Python floats are modelled by exact rationals [Qc]
    where rounding plays no part, division by zero included; where it
    does (the timestamps of the sampler, the height of the band behind the
    text) they are IEEE 754 doubles, [Float64].  The sampler, the selector
    and the command [generate] come twice: a first model, on rationals,
    with frames that can be read and a silent console, and a second one
    ([Rounded], [Reading], [Console]) with doubles, with the reading of
    the frames and with the messages of the console. *)

From Stdlib Require Import ZArith QArith Qcanon String Ascii List Lia Bool.
From Stdlib Require SpecFloat.
From stdpp Require Import base option list gmap strings sorting pretty.

Local Open Scope string_scope.
Local Open Scope Z_scope.

(** ** A fragment of the Python runtime *)

Module Py.

(** Exception classes raised or caught by the sources. *)
Inductive exn_class :=
| BaseException
| Exception
| OSError
| FileNotFoundError
| ValueError
| JSONDecodeError
| RuntimeError
| ArithmeticError
| ZeroDivisionError
| LookupError
| IndexError
| KeyError
| TypeError
| AttributeError
| CalledProcessError
| APIError.

#[global] Instance exn_class_eq_dec : EqDecision exn_class.
Proof. solve_decision. Defined.

(** The direct base class, as in CPython ([json.JSONDecodeError] derives
    from [ValueError], [anthropic.APIError] from [Exception]). *)
Definition base_class (c : exn_class) : option exn_class :=
  match c with
  | BaseException => None
  | Exception => Some BaseException
  | OSError => Some Exception
  | FileNotFoundError => Some OSError
  | ValueError => Some Exception
  | JSONDecodeError => Some ValueError
  | RuntimeError => Some Exception
  | ArithmeticError => Some Exception
  | ZeroDivisionError => Some ArithmeticError
  | LookupError => Some Exception
  | IndexError => Some LookupError
  | KeyError => Some LookupError
  | TypeError => Some Exception
  | AttributeError => Some Exception
  | CalledProcessError => Some Exception
  | APIError => Some Exception
  end.

Fixpoint subclass_fuel (fuel : nat) (c d : exn_class) : bool :=
  if decide (c = d) then true
  else match fuel, base_class c with
       | S fuel', Some b => subclass_fuel fuel' b d
       | _, _ => false
       end.

(** [issubclass c d]; the hierarchy above has depth 4. *)
Definition issubclass (c d : exn_class) : bool := subclass_fuel 4 c d.

(** An exception object: its class and [str(e)] (for [CalledProcessError]
    the text is [e.stderr], the only attribute the sources read). *)
Record exn := Exn { exn_cls : exn_class; exn_msg : string }.

#[global] Instance exn_eq_dec : EqDecision exn.
Proof. solve_decision. Defined.

(** [except (C1, ..., Cn)] matches [e]. *)
Definition caught_by (e : exn) (cs : list exn_class) : bool :=
  existsb (issubclass (exn_cls e)) cs.

Inductive result (A : Type) :=
| Ok (a : A)
| Raise (e : exn).
Arguments Ok {A} a.
Arguments Raise {A} e.

#[global] Instance result_ret : MRet result := @Ok.
#[global] Instance result_bind : MBind result := fun A B f m =>
  match m with
  | Ok a => f a
  | Raise e => Raise e
  end.

Definition raise {A} (c : exn_class) (msg : string) : result A :=
  Raise (Exn c msg).

#[local] Set Warnings "-register-all".

(** *** Values

    The values [json.loads] produces, and tuples (the colours of a style);
    a [dict] is an association list in insertion order with distinct keys. *)
Inductive value :=
| VNone
| VBool (b : bool)
| VInt (z : Z)
| VFloat (q : Qc)
| VStr (s : string)
| VList (l : list value)
| VTuple (l : list value)
| VDict (d : list (string * value)).

Fixpoint assoc {A} (k : string) (d : list (string * A)) : option A :=
  match d with
  | [] => None
  | (k', v) :: d' => if String.eqb k k' then Some v else assoc k d'
  end.

(** [d[k] = v] on a dict: the first binding of [k] is replaced in place,
    a new key goes last. *)
Fixpoint assoc_set {A} (k : string) (v : A) (d : list (string * A))
    : list (string * A) :=
  match d with
  | [] => [(k, v)]
  | (k', v') :: d' =>
      if String.eqb k k' then (k, v) :: d' else (k', v') :: assoc_set k v d'
  end.

(** [v[k]] for a string key. *)
Definition getitem (v : value) (k : string) : result value :=
  match v with
  | VDict d =>
      match assoc k d with
      | Some x => Ok x
      | None => raise KeyError ("'" ++ k ++ "'")
      end
  | VList _ => raise TypeError "list indices must be integers or slices, not str"
  | VStr _ => raise TypeError "string indices must be integers, not 'str'"
  | _ => raise TypeError "object is not subscriptable"
  end.

(** [v.get(k, dflt)]. *)
Definition get (v : value) (k : string) (dflt : value) : result value :=
  match v with
  | VDict d => Ok (default dflt (assoc k d))
  | _ => raise AttributeError "object has no attribute 'get'"
  end.

Definition chars (s : string) : list string :=
  (fun c => String c EmptyString) <$> list_ascii_of_string s.

(** The items a [for] loop or a generator sees. *)
Definition iter (v : value) : result (list value) :=
  match v with
  | VList l | VTuple l => Ok l
  | VDict d => Ok ((fun kv => VStr kv.1) <$> d)
  | VStr s => Ok (VStr <$> chars s)
  | _ => raise TypeError "object is not iterable"
  end.

(** [bool(v)]. *)
Definition truthy (v : value) : bool :=
  match v with
  | VNone => false
  | VBool b => b
  | VInt z => negb (z =? 0)
  | VFloat q => negb (bool_decide (q = Qc_of_Z 0))
  | VStr s => negb (String.eqb s "")
  | VList l | VTuple l => negb (bool_decide (length l = 0%nat))
  | VDict d => negb (bool_decide (length d = 0%nat))
  end.

(** [v == s] for a string literal [s]. *)
Definition eq_str (v : value) (s : string) : bool :=
  match v with
  | VStr s' => String.eqb s' s
  | _ => false
  end.

(** [a / b] on floats. *)
Definition truediv (a b : Qc) : result Qc :=
  if decide (b = Qc_of_Z 0) then raise ZeroDivisionError "float division by zero"
  else Ok (a / b)%Qc.

(** [int(q)] on a float truncates toward zero. *)
Definition trunc (q : Qc) : Z :=
  Z.quot (Qnum (this q)) (Z.pos (Qden (this q))).

(** [l[i]] on a list, negative indices counting from the end. *)
Definition list_getitem {A} (l : list A) (i : Z) : result A :=
  let n := Z.of_nat (length l) in
  let j := if i <? 0 then n + i else i in
  if (0 <=? j) && (j <? n) then
    match l !! Z.to_nat j with
    | Some x => Ok x
    | None => raise IndexError "list index out of range"
    end
  else raise IndexError "list index out of range".

(** [s.split(sep)] for a one-character separator. *)
Fixpoint split (sep : ascii) (s : string) : list string :=
  match s with
  | EmptyString => [EmptyString]
  | String c s' =>
      if Ascii.eqb c sep then EmptyString :: split sep s'
      else match split sep s' with
           | [] => [String c EmptyString]
           | w :: ws => String c w :: ws
           end
  end.

(** [sep.join(ws)]. *)
Fixpoint join (sep : string) (ws : list string) : string :=
  match ws with
  | [] => EmptyString
  | [w] => w
  | w :: ws' => w ++ sep ++ join sep ws'
  end.

(** [c.isspace()], a character being a code point below 256: the ASCII
    white space, the separators U+001C to U+001F, the next-line control
    U+0085 and the no-break space U+00A0. *)
Definition isspace (c : ascii) : bool :=
  let n := nat_of_ascii c in
  ((9 <=? n)%nat && (n <=? 13)%nat) || ((28 <=? n)%nat && (n <=? 32)%nat)
  || (n =? 133)%nat || (n =? 160)%nat.

(** [s.split()]: maximal runs of non-space characters. [cur] is the word
    being read, reversed. *)
Fixpoint split_ws_go (cur : list ascii) (s : string) : list string :=
  let flush (rest : list string) :=
    match cur with
    | [] => rest
    | _ => string_of_list_ascii (rev cur) :: rest
    end in
  match s with
  | EmptyString => flush []
  | String c s' =>
      if isspace c then flush (split_ws_go [] s')
      else split_ws_go (c :: cur) s'
  end.

Definition split_ws (s : string) : list string := split_ws_go [] s.

(** [os.path.join(a, b)] (posixpath) for a relative [b]. *)
Definition path_join (a b : string) : string :=
  match a with
  | EmptyString => b
  | _ => if String.eqb (substring (String.length a - 1) 1 a) "/"
         then a ++ b else a ++ "/" ++ b
  end.

(** What [path_join a] puts before a relative name. *)
Definition path_prefix (a : string) : string :=
  match a with
  | EmptyString => EmptyString
  | _ => if String.eqb (substring (String.length a - 1) 1 a) "/"
         then a else a ++ "/"
  end.

(** [sorted(l)] on strings: ascending by code point. Python's sort is a
    stable merge sort; on a total order every sort returns the same list. *)
Definition sorted (l : list string) : list string := merge_sort String.le l.

(** The library functions the sources call and this development does not
    define: [json.loads], [float(str)] and [int(str)]. [None] stands for
    [JSONDecodeError], respectively [ValueError]. *)
Record runtime := Runtime {
  json_loads : string -> option value;
  float_of_str : string -> option Qc;
  int_of_str : string -> option Z;
}.

Section Conversions.
Context (rt : runtime).

(** [float(v)]. *)
Definition float (v : value) : result Qc :=
  match v with
  | VStr s =>
      match float_of_str rt s with
      | Some q => Ok q
      | None => raise ValueError ("could not convert string to float: '" ++ s ++ "'")
      end
  | VInt z => Ok (Qc_of_Z z)
  | VFloat q => Ok q
  | VBool b => Ok (Qc_of_Z (if b then 1 else 0))
  | _ => raise TypeError "float() argument must be a string or a real number"
  end.

(** [int(v)]. *)
Definition int (v : value) : result Z :=
  match v with
  | VStr s =>
      match int_of_str rt s with
      | Some z => Ok z
      | None => raise ValueError ("invalid literal for int() with base 10: '" ++ s ++ "'")
      end
  | VInt z => Ok z
  | VFloat q => Ok (trunc q)
  | VBool b => Ok (if b then 1 else 0)
  | _ => raise TypeError "int() argument must be a string, a bytes-like object or a real number"
  end.

(** [json.loads(s)]; the text of a [JSONDecodeError] is not modelled, one
    text stands for them all. *)
Definition loads (s : string) : result value :=
  match json_loads rt s with
  | Some v => Ok v
  | None => raise JSONDecodeError "Expecting value"
  end.
End Conversions.

End Py.

(** ** A concrete runtime for worked examples

    The theorems below hold for every [runtime]. The examples run on this
    one: readers for the plain decimal literals ffprobe prints and for JSON
    texts without string escapes and exponents (both rejected here). *)

Module Concrete.
Import Py.

Definition dquote : ascii := ascii_of_nat 34.

Definition digit_of (c : ascii) : option Z :=
  let n := nat_of_ascii c in
  if ((48 <=? n)%nat && (n <=? 57)%nat) then Some (Z.of_nat n - 48) else None.

(** Leading digits of [s] read in base 10 on top of [acc], with their
    number and the rest. *)
Fixpoint digits (acc : Z) (k : nat) (s : list ascii) : Z * nat * list ascii :=
  match s with
  | c :: s' =>
      match digit_of c with
      | Some d => digits (10 * acc + d) (S k) s'
      | None => (acc, k, s)
      end
  | [] => (acc, k, [])
  end.

Definition sign (s : list ascii) : bool * list ascii :=
  match s with
  | c :: s' =>
      if Ascii.eqb c "-" then (true, s')
      else if Ascii.eqb c "+" then (false, s')
      else (false, s)
  | [] => (false, [])
  end.

Definition signed (neg : bool) (z : Z) : Z := if neg then - z else z.

Definition read_int (s : string) : option Z :=
  let '(neg, r) := sign (list_ascii_of_string s) in
  match digits 0 0 r with
  | (z, S _, []) => Some (signed neg z)
  | _ => None
  end.

(** [i.f] as a rational: [(i * 10^k + f) / 10^k] for [k] fraction digits. *)
Definition decimal (neg : bool) (i f : Z) (k : nat) : Qc :=
  Q2Qc (Qmake (signed neg (i * 10 ^ Z.of_nat k + f)) (Z.to_pos (10 ^ Z.of_nat k))).

Definition read_float (s : string) : option Qc :=
  let '(neg, r) := sign (list_ascii_of_string s) in
  match digits 0 0 r with
  | (i, S _, []) => Some (decimal neg i 0 0)
  | (i, S _, c :: r') =>
      if Ascii.eqb c "." then
        match digits 0 0 r' with
        | (f, k, []) => Some (decimal neg i f k)
        | _ => None
        end
      else None
  | _ => None
  end.

Fixpoint skip_ws (s : list ascii) : list ascii :=
  match s with
  | c :: s' =>
      if existsb (Ascii.eqb c) [" "; "009"; "010"; "013"]%char then skip_ws s' else s
  | [] => []
  end.

(** The characters of a JSON string up to its closing quote. *)
Fixpoint read_string (acc : list ascii) (s : list ascii) : option (string * list ascii) :=
  match s with
  | [] => None
  | c :: s' =>
      if Ascii.eqb c dquote then Some (string_of_list_ascii (rev acc), s')
      else if Ascii.eqb c "\" then None
      else read_string (c :: acc) s'
  end.

Definition read_number (s : list ascii) : option (value * list ascii) :=
  let '(neg, r) :=
    match s with
    | c :: s' => if Ascii.eqb c "-" then (true, s') else (false, s)
    | [] => (false, [])
    end in
  match digits 0 0 r with
  | (i, S _, c :: r') =>
      if Ascii.eqb c "." then
        match digits 0 0 r' with
        | (f, S k, rest) =>
            match rest with
            | e :: _ => if Ascii.eqb e "e" || Ascii.eqb e "E" then None
                        else Some (VFloat (decimal neg i f (S k)), rest)
            | [] => Some (VFloat (decimal neg i f (S k)), rest)
            end
        | _ => None
        end
      else if Ascii.eqb c "e" || Ascii.eqb c "E" then None
      else Some (VInt (signed neg i), c :: r')
  | (i, S _, []) => Some (VInt (signed neg i), [])
  | _ => None
  end.

Definition literal (w : string) (v : value) (s : list ascii) : option (value * list ascii) :=
  let n := String.length w in
  if String.eqb (string_of_list_ascii (take n s)) w then Some (v, drop n s) else None.

Fixpoint read_value (fuel : nat) (s : list ascii) : option (value * list ascii) :=
  match fuel with
  | O => None
  | S fuel =>
      match skip_ws s with
      | [] => None
      | c :: r =>
          if Ascii.eqb c "{" then
            match skip_ws r with
            | c' :: r' => if Ascii.eqb c' "}" then Some (VDict [], r')
                          else read_members fuel [] (c' :: r')
            | [] => None
            end
          else if Ascii.eqb c "[" then
            match skip_ws r with
            | c' :: r' => if Ascii.eqb c' "]" then Some (VList [], r')
                          else read_elements fuel [] (c' :: r')
            | [] => None
            end
          else if Ascii.eqb c dquote then
            '(str, r') ← read_string [] r; Some (VStr str, r')
          else if Ascii.eqb c "t" then literal "true" (VBool true) (c :: r)
          else if Ascii.eqb c "f" then literal "false" (VBool false) (c :: r)
          else if Ascii.eqb c "n" then literal "null" VNone (c :: r)
          else read_number (c :: r)
      end
  end
with read_members (fuel : nat) (acc : list (string * value)) (s : list ascii)
    : option (value * list ascii) :=
  match fuel with
  | O => None
  | S fuel =>
      match skip_ws s with
      | c :: r =>
          if Ascii.eqb c dquote then
            '(key, r1) ← read_string [] r;
            match skip_ws r1 with
            | c1 :: r2 =>
                if Ascii.eqb c1 ":" then
                  '(v, r3) ← read_value fuel r2;
                  match skip_ws r3 with
                  | c3 :: r4 =>
                      if Ascii.eqb c3 "," then read_members fuel (assoc_set key v acc) r4
                      else if Ascii.eqb c3 "}" then Some (VDict (assoc_set key v acc), r4)
                      else None
                  | [] => None
                  end
                else None
            | [] => None
            end
          else None
      | [] => None
      end
  end
with read_elements (fuel : nat) (acc : list value) (s : list ascii)
    : option (value * list ascii) :=
  match fuel with
  | O => None
  | S fuel =>
      '(v, r) ← read_value fuel s;
      match skip_ws r with
      | c :: r' =>
          if Ascii.eqb c "," then read_elements fuel (acc ++ [v]) r'
          else if Ascii.eqb c "]" then Some (VList (acc ++ [v]), r')
          else None
      | [] => None
      end
  end.

Definition read_json (s : string) : option value :=
  let cs := list_ascii_of_string s in
  match read_value (S (length cs)) cs with
  | Some (v, rest) => match skip_ws rest with [] => Some v | _ => None end
  | None => None
  end.

Definition runtime0 : runtime := Runtime read_json read_float read_int.

(** JSON texts are written with ['] for the double quote. *)
Fixpoint q (s : string) : string :=
  match s with
  | EmptyString => EmptyString
  | String c s' => String (if Ascii.eqb c "'" then dquote else c) (q s')
  end.

End Concrete.

Import Py.

(** ** Python floats: IEEE 754 binary64

    The operations of the Standard Library's specification of
    floating-point arithmetic at precision 53 and maximal exponent 1024,
    rounding to nearest, ties to even. *)

Module Float64.

Definition prec : Z := 53.
Definition emax : Z := 1024.

Definition double : Type := SpecFloat.spec_float.

Definition zero : double := SpecFloat.S754_zero false.

(** [float(z)] for an integer [z]. *)
Definition of_Z (z : Z) : double := SpecFloat.binary_normalize prec emax z 0 false.

(** The double nearest to the rational [q]: what a decimal literal,
    or [float] of a decimal string, stands for. *)
Definition of_Q (q : Q) : double :=
  match Qnum q with
  | Z0 => zero
  | Zpos n =>
      SpecFloat.SFdiv prec emax (SpecFloat.S754_finite false n 0)
        (SpecFloat.S754_finite false (Qden q) 0)
  | Zneg n =>
      SpecFloat.SFdiv prec emax (SpecFloat.S754_finite true n 0)
        (SpecFloat.S754_finite false (Qden q) 0)
  end.

Definition add : double -> double -> double := SpecFloat.SFadd prec emax.
Definition sub : double -> double -> double := SpecFloat.SFsub prec emax.
Definition mul : double -> double -> double := SpecFloat.SFmul prec emax.
Definition div : double -> double -> double := SpecFloat.SFdiv prec emax.

(** [a == b], [a < b], [a <= b]: false when either side is a NaN. *)
Definition eqb : double -> double -> bool := SpecFloat.SFeqb.
Definition ltb : double -> double -> bool := SpecFloat.SFltb.
Definition leb : double -> double -> bool := SpecFloat.SFleb.


(** [a / b]: Python raises where IEEE 754 would give an infinity or a NaN. *)
Definition truediv (a b : double) : result double :=
  if eqb b zero then raise ZeroDivisionError "float division by zero"
  else Ok (div a b).

(** [int(x)]: truncation toward zero; [None] where Python raises (an
    infinity or a NaN). *)
Definition int (x : double) : option Z :=
  match x with
  | SpecFloat.S754_zero _ => Some 0
  | SpecFloat.S754_finite s m e =>
      let a := match e with
               | Zneg k => Z.shiftr (Zpos m) (Zpos k)
               | _ => Z.shiftl (Zpos m) e
               end in
      Some (if s then - a else a)
  | _ => None
  end.

(** The rational a double stands for (0 for an infinity or a NaN). *)
Definition value (x : double) : Q :=
  match x with
  | SpecFloat.S754_finite s m e =>
      let n := if s then Zneg m else Zpos m in
      match e with
      | Z0 => inject_Z n
      | Zpos k => inject_Z (n * 2 ^ Zpos k)
      | Zneg k => n # (2 ^ k)%positive
      end
  | _ => 0%Q
  end.

End Float64.

(** ** The outside world *)

Module World.

(** How an external process ends ([subprocess.run(..., check=True)]). *)
Inductive tool_result :=
| Exit0 (stdout : string)
| ExitFail (stderr : string).

(** The parts of an ffmpeg command line that vary between calls of
    [extract_frames]: [-ss <ss> -i <input> -vframes 1 -vf scale=1280:-1
    -q:v 2 -y <out>]. *)
Record ffmpeg_cmd := FfmpegCmd { ss : Qc; input : string; out : string }.

(** A request of [ThumbnailComposer.compose] to the imaging library. *)
Record render_req := RenderReq {
  req_image : string;
  req_output : string;
  req_resolution : Z * Z;
  req_style : gmap string value;
  req_overlay : option (value * value);
  req_main_lines : list string;
  req_sub_lines : option (list string);
}.

(** The two requests sent to the hosted model: the frames with the
    selection rubric, and the overlay-text prompt. *)
Inductive api_request :=
| ReqFrames (frame_paths : list string) (video_description : string)
| ReqText (video_description style : string) (max_words : Z).

(** A font as [_get_font] is asked for it: a size and a weight. *)
Record font := Font { font_size : value; font_bold : value }.

(** External calls, in the order they are issued. *)
Inductive event :=
| EvMakedirs (dir : string)
| EvMkdtemp (dir : string)
| EvFfprobe (path : string)
| EvFfmpeg (cmd : ffmpeg_cmd)
| EvMessages (req : api_request)
| EvOpenImage (path : string)
| EvRender (req : render_req)
| EvRmtree (dir : string).

Record world := World {
  files : gset string;
  trace : list event;
}.

Definition emit (ev : event) (w : world) : world :=
  {| files := files w; trace := trace w ++ [ev] |}.

Definition touch (p : string) (w : world) : world :=
  {| files := {[p]} ∪ files w; trace := trace w |}.

(** The external collaborators. Directory creation is taken to succeed and
    both tools to be installed, so that a call ends with an exit status. *)
Record env := Env {
  rt : runtime;
  ffprobe : string -> tool_result;
  ffmpeg : ffmpeg_cmd -> gset string -> tool_result * gset string;
  mkdtemp : gset string -> string;
  api_key : option string;
  (** [client.messages.create]: an [APIError] text, or the text blocks of
      the reply. *)
  messages_create : api_request -> string + list string;
  (** [font.getbbox(text)]: left, top, right, bottom. *)
  getbbox : font -> string -> Z * Z * Z * Z;
  (** [Image.open], the conversion and the resize; [Some msg] is a failure. *)
  open_image : string -> Z * Z -> option string;
  (** Drawing the band and the lines, sharpening and encoding; [Some msg]
      is a failure. *)
  render : render_req -> option string;
}.

(** The ffmpeg commands of a trace, in order. *)
Definition ffmpeg_calls (t : list event) : list ffmpeg_cmd :=
  omap (fun ev => match ev with EvFfmpeg c => Some c | _ => None end) t.

(** The render requests of a trace, in order. *)
Definition renders (t : list event) : list render_req :=
  omap (fun ev => match ev with EvRender r => Some r | _ => None end) t.

(** [subprocess.run(cmd, check=True)]. *)
Definition check (r : tool_result) : result string :=
  match r with
  | Exit0 stdout => Ok stdout
  | ExitFail stderr => raise CalledProcessError stderr
  end.

End World.

Import World.

(** ** [autothumb/core/video.py] *)

Module Video.

Record metadata := Metadata {
  duration : Qc;
  width : Z;
  height : Z;
  fps : Qc;
  codec : value;
  bitrate : Z;
}.

(** The attributes of a [VideoProcessor]. *)
Record processor := Processor {
  video_path : string;
  meta : metadata;
  temp_dir : option string;
}.

(** [next((s for s in streams if s["codec_type"] == "video"), None)]. *)
Fixpoint next_video (streams : list value) : result value :=
  match streams with
  | [] => Ok VNone
  | s :: rest =>
      ct ← getitem s "codec_type";
      if eq_str ct "video" then Ok s else next_video rest
  end.

(** [v.split("/")]. *)
Definition str_split (v : value) : result (list string) :=
  match v with
  | VStr s => Ok (split "/" s)
  | _ => raise AttributeError "object has no attribute 'split'"
  end.

Section Probe.
Context (E : env).

(** The [try] block of [_get_metadata]. *)
Definition parse_metadata (probe : tool_result) : result metadata :=
  stdout ← check probe;
  data ← loads (rt E) stdout;
  streams ← getitem data "streams";
  items ← iter streams;
  video_stream ← next_video items;
  if negb (truthy video_stream)
  then raise ValueError "No video stream found in file"
  else
    fps_str ← get video_stream "r_frame_rate" (VStr "30/1");
    fps_parts ← str_split fps_str;
    p0 ← list_getitem fps_parts 0;
    num ← float (rt E) (VStr p0);
    p1 ← list_getitem fps_parts 1;
    den ← float (rt E) (VStr p1);
    fps ← truediv num den;
    fmt ← getitem data "format";
    d ← get fmt "duration" (VInt 0);
    duration ← float (rt E) d;
    w ← get video_stream "width" (VInt 0);
    width ← int (rt E) w;
    h ← get video_stream "height" (VInt 0);
    height ← int (rt E) h;
    codec ← get video_stream "codec_name" (VStr "unknown");
    fmt' ← getitem data "format";
    b ← get fmt' "bit_rate" (VInt 0);
    bitrate ← int (rt E) b;
    Ok (Metadata duration width height fps codec bitrate).

(** [VideoProcessor._get_metadata]: the two [except] clauses, the first
    that matches wins. *)
Definition _get_metadata (path : string) (w : world) : result metadata * world :=
  let w' := emit (EvFfprobe path) w in
  match parse_metadata (ffprobe E path) with
  | Ok m => (Ok m, w')
  | Raise e =>
      if caught_by e [CalledProcessError]
      then (raise RuntimeError ("FFprobe failed: " ++ exn_msg e), w')
      else if caught_by e [JSONDecodeError; KeyError; ValueError]
      then (raise RuntimeError ("Failed to parse video metadata: " ++ exn_msg e), w')
      else (Raise e, w')
  end.

(** [VideoProcessor.__init__]. *)
Definition init (path : string) (w : world) : result processor * world :=
  if decide (path ∈ files w) then
    match _get_metadata path w with
    | (Ok m, w') => (Ok (Processor path m None), w')
    | (Raise e, w') => (Raise e, w')
    end
  else (raise FileNotFoundError ("Video file not found: " ++ path), w).
End Probe.

(** [f"{idx:04d}"]: decimal digits, zero-padded on the left to width 4. *)
Definition fmt_04d (idx : nat) : string :=
  let s := pretty idx in
  string_of_list_ascii (replicate (4 - String.length s) "0"%char) ++ s.

Definition frame_name (idx : nat) : string := "frame_" ++ fmt_04d idx ++ ".jpg".

Definition frame_path (output_dir : string) (idx : nat) : string :=
  path_join output_dir (frame_name idx).

(** [[skip_start + (i * usable / (num_frames - 1)) for i in range(num_frames)]]. *)
Fixpoint timestamps_from (idxs : list nat) (num_frames : Z) (skip_start usable : Qc)
    : result (list Qc) :=
  match idxs with
  | [] => Ok []
  | i :: rest =>
      q ← truediv (Qc_of_Z (Z.of_nat i) * usable)%Qc (Qc_of_Z (num_frames - 1));
      ts ← timestamps_from rest num_frames skip_start usable;
      Ok ((skip_start + q)%Qc :: ts)
  end.

Definition timestamps (num_frames : Z) (skip_start usable : Qc) : result (list Qc) :=
  timestamps_from (seq 0 (Z.to_nat num_frames)) num_frames skip_start usable.

(** [enumerate(ts, start=k)]. *)
Fixpoint enumerate {A} (k : nat) (ts : list A) : list (nat * A) :=
  match ts with
  | [] => []
  | t :: rest => (k, t) :: enumerate (S k) rest
  end.

(** The directory the frames go to. *)
Definition dir_of (E : env) (output_dir : option string) (w : world) : string :=
  match output_dir with
  | Some d => d
  | None => mkdtemp E (files w)
  end.

(** Every ffmpeg call ends with status 0 and leaves its output file. *)
Definition always_writes (E : env) : Prop :=
  forall cmd fs, exists o fs', ffmpeg E cmd fs = (Exit0 o, fs') /\ out cmd ∈ fs'.

(** The [i]-th timestamp as the specification writes it:
    [skipStart + i * usableSpan / (count - 1)]. *)
Definition timestamp_at (count : Z) (skip_start usable : Qc) (i : nat) : Qc :=
  (skip_start + Qc_of_Z (Z.of_nat i) * usable / Qc_of_Z (count - 1))%Qc.

(** The command line of the call for frame [idx] at [timestamp]. *)
Definition cmd_of (video dir : string) (it : nat * Qc) : ffmpeg_cmd :=
  FfmpegCmd it.2 video (frame_path dir it.1).

Section Extract.
Context (E : env).

(** The [for] loop of [extract_frames]: one ffmpeg call per timestamp,
    the path kept when the file exists afterwards. *)
Fixpoint extract_loop (video output_dir : string) (items : list (nat * Qc))
    (frame_files : list string) (w : world) : result (list string) * world :=
  match items with
  | [] => (Ok frame_files, w)
  | (idx, timestamp) :: rest =>
      let path := frame_path output_dir idx in
      let cmd := FfmpegCmd timestamp video path in
      let '(r, fs) := ffmpeg E cmd (files w) in
      let w' := {| files := fs; trace := trace w ++ [EvFfmpeg cmd] |} in
      match check r with
      | Raise e => (Raise e, w')
      | Ok _ =>
          extract_loop video output_dir rest
            (if decide (path ∈ fs) then frame_files ++ [path] else frame_files) w'
      end
  end.

(** The output directory: a fresh temporary one, remembered in
    [self.temp_dir], or the one asked for, created if need be. *)
Definition prepare (self : processor) (output_dir : option string) (w : world)
    : processor * string * world :=
  match output_dir with
  | None =>
      let d := mkdtemp E (files w) in
      (Processor (video_path self) (meta self) (Some d), d,
       emit (EvMkdtemp d) (touch d w))
  | Some d => (self, d, emit (EvMakedirs d) (touch d w))
  end.

(** [VideoProcessor.extract_frames]; the processor comes back with its
    [temp_dir] attribute as the call left it. *)
Definition extract_frames (self : processor) (num_frames : Z)
    (output_dir : option string) (skip_start_seconds skip_end_seconds : Qc)
    (w : world) : result (list string) * processor * world :=
  let '(self, dir, w) := prepare self output_dir w in
  let usable_duration :=
    (duration (meta self) - skip_start_seconds - skip_end_seconds)%Qc in
  if decide (usable_duration <= Qc_of_Z 0)%Qc
  then (raise ValueError "Video too short after skipping start/end", self, w)
  else
    match timestamps num_frames skip_start_seconds usable_duration with
    | Raise e => (Raise e, self, w)
    | Ok ts =>
        let '(r, w') := extract_loop (video_path self) dir (enumerate 1 ts) [] w in
        match r with
        | Raise e =>
            if caught_by e [CalledProcessError]
            then (raise RuntimeError ("FFmpeg failed to extract frames: " ++ exn_msg e),
                  self, w')
            else (Raise e, self, w')
        | Ok frame_files =>
            match frame_files with
            | [] => (raise RuntimeError "No frames were extracted", self, w')
            | _ => (Ok (sorted frame_files), self, w')
            end
        end
    end.
End Extract.

End Video.

(** ** [autothumb/core/analyzer.py] *)

Module Analyzer.

(** The dictionary [analyze_frames] returns. *)
Record frame_analysis := FrameAnalysis {
  best_frame_index : value;
  best_frame_path : string;
  reasoning : value;
  scores : value;
  raw_response : string;
}.

(** The text after the first ["{"]. *)
Fixpoint after_open (s : string) : option string :=
  match s with
  | EmptyString => None
  | String c s' => if Ascii.eqb c "{" then Some s' else after_open s'
  end.

(** The longest prefix that ends with ["}"]. *)
Fixpoint upto_last_close (s : string) : option string :=
  match s with
  | EmptyString => None
  | String c s' =>
      match upto_last_close s' with
      | Some p => Some (String c p)
      | None => if Ascii.eqb c "}" then Some (String c EmptyString) else None
      end
  end.

(** [re.search(r'\{.*\}', text, re.DOTALL)] and [.group()]: the match starts
    at the first ["{"] that has a ["}"] after it, which is the first ["{"]
    of the text, and being greedy it ends at the last ["}"]. *)
Definition search_braces (text : string) : option string :=
  rest ← after_open text;
  body ← upto_last_close rest;
  Some (String "{" body).

(** The integer a value stands for as a subscript: an [int], or a [bool],
    which is one. *)
Definition as_index (v : value) : option Z :=
  match v with
  | VInt i => Some i
  | VBool b => Some (if b then 1 else 0)
  | _ => None
  end.

(** [frame_paths[v]]. *)
Definition index (frame_paths : list string) (v : value) : result string :=
  match as_index v with
  | Some i => list_getitem frame_paths i
  | None => raise TypeError "list indices must be integers or slices"
  end.

(** [s[:n]]. *)
Definition slice_to (s : string) (n : Z) : string :=
  let len := Z.of_nat (String.length s) in
  substring 0 (Z.to_nat (if n <? 0 then len + n else n)) s.

Section Analyzer.
Context (E : env).

(** [FrameAnalyzer.__init__] without an explicit key. *)
Definition init : result string :=
  match api_key E with
  | Some k => if String.eqb k "" then raise ValueError "Anthropic API key required. "
              else Ok k
  | None => raise ValueError "Anthropic API key required. "
  end.

(** [self.client.messages.create(...)] followed by
    [response.content[0].text]. *)
Definition ask (req : api_request) : result string :=
  content ← match messages_create E req with
            | inl msg => raise APIError msg
            | inr blocks => Ok blocks
            end;
  list_getitem content 0.

(** The two [except] clauses shared by both requests. *)
Definition guarded {A} (what : string) (body : result A) : result A :=
  match body with
  | Ok a => Ok a
  | Raise e =>
      if caught_by e [APIError]
      then raise RuntimeError ("Claude API error: " ++ exn_msg e)
      else if caught_by e [Exception]
      then raise RuntimeError (what ++ exn_msg e)
      else Raise e
  end.

(** The [try] block of [analyze_frames]. *)
Definition select (frame_paths : list string) (video_description : string)
    : result frame_analysis :=
  response_text ← ask (ReqFrames frame_paths video_description);
  analysis ← match search_braces response_text with
             | Some json_match => loads (rt E) json_match
             | None => Ok (VDict [("best_frame_index", VInt 0);
                                  ("reasoning", VStr response_text);
                                  ("frames", VList [])])
             end;
  best_index ← get analysis "best_frame_index" (VInt 0);
  path ← index frame_paths best_index;
  reasoning ← get analysis "reasoning" (VStr "");
  scores ← get analysis "frames" (VList []);
  Ok (FrameAnalysis best_index path reasoning scores response_text).

(** [FrameAnalyzer.analyze_frames]; reading a frame that exists is taken
    to succeed. *)
Definition analyze_frames (frame_paths : list string) (video_description : string)
    (w : world) : result frame_analysis * world :=
  match frame_paths with
  | [] => (raise ValueError "No frames provided for analysis", w)
  | _ =>
      match List.find (fun p => negb (bool_decide (p ∈ files w))) frame_paths with
      | Some p => (raise FileNotFoundError ("Frame not found: " ++ p), w)
      | None =>
          (guarded "Failed to analyze frames: " (select frame_paths video_description),
           emit (EvMessages (ReqFrames frame_paths video_description)) w)
      end
  end.

(** [FrameAnalyzer.generate_thumbnail_text]. *)
Definition generate_thumbnail_text (video_description style : string)
    (max_words : Z) (w : world) : result value * world :=
  let req := ReqText video_description style max_words in
  (guarded "Failed to generate text: "
     (response_text ← ask req;
      match search_braces response_text with
      | Some json_match => loads (rt E) json_match
      | None => Ok (VDict [("main_text", VStr (slice_to video_description (max_words * 7)));
                           ("subtext", VStr "");
                           ("reasoning", VStr "Fallback text generation")])
      end),
   emit (EvMessages req) w).

(** [FrameAnalyzer.analyze_and_generate]. *)
Definition analyze_and_generate (frame_paths : list string)
    (video_description style : string) (max_words : Z) (w : world)
    : result (frame_analysis * value) * world :=
  match analyze_frames frame_paths video_description w with
  | (Raise e, w1) => (Raise e, w1)
  | (Ok frame_analysis, w1) =>
      match generate_thumbnail_text video_description style max_words w1 with
      | (Raise e, w2) => (Raise e, w2)
      | (Ok text_result, w2) => (Ok (frame_analysis, text_result), w2)
      end
  end.
End Analyzer.

End Analyzer.

(** ** [autothumb/core/composer.py] *)

Module Composer.

(** Dictionaries are objects: a style is a reference into the store, so
    that a preset shared by the class and its instances is one object. *)
Abbreviation store := (gmap nat (gmap string value)).

Definition rgb (r g b : Z) : value := VTuple [VInt r; VInt g; VInt b].

Definition preset (main sub : Z) (color outline : value) (width : Z)
    (position : string) (opacity : Qc) (shadow bold : bool) : gmap string value :=
  <["font_size_main" := VInt main]> (
  <["font_size_sub" := VInt sub]> (
  <["text_color" := color]> (
  <["outline_color" := outline]> (
  <["outline_width" := VInt width]> (
  <["position" := VStr position]> (
  <["background_opacity" := VFloat opacity]> (
  <["shadow" := VBool shadow]> (
  <["bold" := VBool bold]> ∅)))))))).

Definition tenths (n : Z) : Qc := Q2Qc (Qmake n 10).

(** [ThumbnailComposer.STYLES]: the preset objects, at addresses 0 to 3. *)
Definition STYLES : gmap string nat :=
  <["youtube" := 0%nat]> (<["minimalist" := 1%nat]> (
  <["bold" := 2%nat]> (<["tech" := 3%nat]> ∅))).

Definition presets : store :=
  <[0%nat := preset 72 36 (rgb 255 255 255) (rgb 0 0 0) 4 "center" (tenths 3) true true]> (
  <[1%nat := preset 60 30 (rgb 255 255 255) VNone 0 "bottom" (tenths 5) false false]> (
  <[2%nat := preset 120 50 (rgb 255 215 0) (rgb 0 0 0) 6 "center" (tenths 4) true true]> (
  <[3%nat := preset 64 32 (rgb 0 255 255) (rgb 0 0 0) 3 "top" (tenths 6) true false]> ∅))).

(** The attributes of a [ThumbnailComposer]. *)
Record composer := Composer_ { style_name : string; style : nat }.

(** [ThumbnailComposer.__init__]: [self.style] is the preset object itself. *)
Definition init (name : string) : composer :=
  Composer_ name (default 0%nat (STYLES !! name)).

(** [style[k]]. *)
Definition item (d : gmap string value) (k : string) : result value :=
  match d !! k with
  | Some v => Ok v
  | None => raise KeyError ("'" ++ k ++ "'")
  end.

(** [v > 0]. *)
Definition positive (v : value) : result bool :=
  match v with
  | VInt z => Ok (0 <? z)
  | VBool b => Ok b
  | VFloat q => Ok (bool_decide (Qc_of_Z 0 < q)%Qc)
  | _ => raise TypeError "'>' not supported between instances"
  end.

(** [text.split()]. *)
Definition words_of (text : value) : result (list string) :=
  match text with
  | VStr s => Ok (split_ws s)
  | _ => raise AttributeError "object has no attribute 'split'"
  end.

Section Composer.
Context (E : env).

Definition text_width (f : font) (text : string) : Z :=
  let '(x0, _, x1, _) := getbbox E f text in x1 - x0.

(** A line fits, or it is one of the words [all], too wide alone. *)
Definition fits_or_single (f : font) (max_width : Z) (all : list string)
    (line : string) : Prop :=
  text_width f line <= max_width \/
  (line ∈ all /\ max_width < text_width f line).

(** The [for] loop of [_wrap_text] and the final flush. *)
Fixpoint wrap_loop (f : font) (max_width : Z) (words lines current_line : list string)
    : list string :=
  match words with
  | [] =>
      match current_line with
      | [] => lines
      | _ => lines ++ [join " " current_line]
      end
  | word :: rest =>
      let test_line := join " " (current_line ++ [word]) in
      if text_width f test_line <=? max_width
      then wrap_loop f max_width rest lines (current_line ++ [word])
      else wrap_loop f max_width rest
             match current_line with
             | [] => lines
             | _ => lines ++ [join " " current_line]
             end
             [word]
  end.

(** [ThumbnailComposer._wrap_text]. *)
Definition _wrap_text (text : value) (f : font) (max_width : Z)
    : result (list string) :=
  words ← words_of text;
  Ok (wrap_loop f max_width words [] []).

(** [int(resolution[0] * 0.9)]. *)
Definition max_width_of (resolution : Z * Z) : Z :=
  trunc (Qc_of_Z resolution.1 * tenths 9)%Qc.

(** The [try] block of [compose] from the style copy on, for the local
    dictionary [style]; drawing itself is the renderer's. *)
Definition layout (style : gmap string value) (image_path output_path : string)
    (main_text subtext : value) (resolution : Z * Z) : result render_req :=
  band ← positive (default (VInt 0) (style !! "background_opacity"));
  overlay ← (if band : bool
             then position ← item style "position";
                  opacity ← item style "background_opacity";
                  Ok (Some (position, opacity))
             else Ok None);
  size_main ← item style "font_size_main";
  let main_font := Font size_main (default (VBool false) (style !! "bold")) in
  size_sub ← item style "font_size_sub";
  let sub_font := Font size_sub (VBool false) in
  let max_width := max_width_of resolution in
  main_lines ← _wrap_text main_text main_font max_width;
  sub_lines ← (if truthy subtext
               then ls ← _wrap_text subtext sub_font max_width; Ok (Some ls)
               else Ok None);
  Ok (RenderReq image_path output_path resolution style overlay main_lines sub_lines).

(** [style = self.style.copy()] and [style.update(custom_style)]: a new
    object at a free address holds the merged dictionary. *)
Definition copy_style (self : composer) (custom_style : option (gmap string value))
    (h : store) : result (nat * store) :=
  match h !! style self with
  | None => raise AttributeError "dangling style reference"
  | Some d =>
      let a := fresh (dom h) in
      let h1 := <[a := d]> h in
      match custom_style with
      | Some c => if decide (c = ∅) then Ok (a, h1)
                  else Ok (a, <[a := c ∪ d]> h1)
      | None => Ok (a, h1)
      end
  end.

(** The [except Exception] clause of [compose]. *)
Definition fail (e : exn) (h : store) (w : world) : result string * store * world :=
  if caught_by e [Exception]
  then (raise RuntimeError ("Failed to compose thumbnail: " ++ exn_msg e), h, w)
  else (Raise e, h, w).

(** [ThumbnailComposer.compose]. Of the files it writes, the output is
    followed; the directory that [os.makedirs] creates for it before the
    save is not. *)
Definition compose (self : composer) (image_path : string) (main_text : value)
    (output_path : string) (subtext : value) (resolution : Z * Z)
    (custom_style : option (gmap string value)) (h : store) (w : world)
    : result string * store * world :=
  if decide (image_path ∈ files w) then
    let w1 := emit (EvOpenImage image_path) w in
    match open_image E image_path resolution with
    | Some msg => fail (Exn OSError msg) h w1
    | None =>
        match copy_style self custom_style h with
        | Raise e => fail e h w1
        | Ok (a, h1) =>
            match layout (default ∅ (h1 !! a)) image_path output_path
                    main_text subtext resolution with
            | Raise e => fail e h1 w1
            | Ok req =>
                let w2 := emit (EvRender req) w1 in
                match render E req with
                | Some msg => fail (Exn OSError msg) h1 w2
                | None => (Ok output_path, h1, touch output_path w2)
                end
            end
        end
    end
  else (raise FileNotFoundError ("Image not found: " ++ image_path), h, w).

(** [ThumbnailComposer.create_thumbnail_from_analysis]. *)
Definition create_thumbnail_from_analysis (self : composer) (frame_path : string)
    (text_data : value) (output_path : string) (resolution : Z * Z)
    (h : store) (w : world) : result string * store * world :=
  match (main_text ← getitem text_data "main_text";
         subtext ← get text_data "subtext" VNone;
         Ok (main_text, subtext)) with
  | Raise e => (Raise e, h, w)
  | Ok (main_text, subtext) =>
      compose self frame_path main_text output_path subtext resolution None h w
  end.
End Composer.

End Composer.

(** ** [autothumb/cli/main.py] *)

Module Cli.
Import Video.

(** How a command ends. *)
Inductive outcome :=
| Done (final_path : string)
  (** exit status 0 *)
| UsageError
  (** an argument refused by [click], exit status 2 *)
| Handled (e : exn)
  (** [except FileNotFoundError], [except RuntimeError]: message, exit status 1 *)
| Unexpected (e : exn)
  (** [except Exception]: message and traceback, exit status 1 *)
| Uncaught (e : exn).

Definition res_map : gmap string (Z * Z) :=
  <["720p" := (1280, 720)]> (<["1080p" := (1920, 1080)]> ∅).

Definition style_choices : list string := ["youtube"; "minimalist"; "bold"; "tech"].

(** The branch on [is_vertical = video_height > video_width]. *)
Definition target_resolution (base_resolution : Z * Z) (m : metadata) : Z * Z :=
  if width m <? height m
  then (base_resolution.2, base_resolution.1)
  else base_resolution.

(** The longest prefix of [s] that ends with [c], or the empty string. *)
Fixpoint upto_last (c : ascii) (s : string) : string :=
  match s with
  | EmptyString => EmptyString
  | String a s' =>
      match upto_last c s' with
      | EmptyString => if Ascii.eqb a c then String a EmptyString else EmptyString
      | p => String a p
      end
  end.

Fixpoint lstrip_chars (c : ascii) (l : list ascii) : list ascii :=
  match l with
  | a :: l' => if Ascii.eqb a c then lstrip_chars c l' else l
  | [] => []
  end.

(** [s.rstrip(c)]. *)
Definition rstrip (c : ascii) (s : string) : string :=
  string_of_list_ascii (rev (lstrip_chars c (rev (list_ascii_of_string s)))).

(** [os.path.dirname(p)] (posixpath). *)
Definition dirname (p : string) : string :=
  let head := upto_last "/" p in
  if forallb (Ascii.eqb "/") (list_ascii_of_string head) then head
  else rstrip "/" head.

(** [shutil.rmtree(dir)]: the directory and everything below it. *)
Definition rmtree (dir : string) (fs : gset string) : gset string :=
  filter (fun p => p ≠ dir ∧ String.prefix (dir ++ "/") p = false) fs.

(** [v[:200]] as far as it can fail. *)
Definition sliceable (v : value) : result unit :=
  match v with
  | VStr _ | VList _ | VTuple _ => Ok ()
  | _ => raise TypeError "object is not subscriptable"
  end.

Section Generate.
Context (E : env).

(** The [try] block of [generate]. *)
Definition pipeline (video_path prompt output style : string)
    (base_resolution : Z * Z) (frames : Z) (h : Composer.store) (w : world)
    : result string * Composer.store * world :=
  match Video.init E video_path w with
  | (Raise e, w1) => (Raise e, h, w1)
  | (Ok processor, w1) =>
      let resolution := target_resolution base_resolution (meta processor) in
      let frame_output_dir := path_join (dirname output) "frames_temp" in
      match extract_frames E processor frames (Some frame_output_dir)
              (Qc_of_Z 2) (Qc_of_Z 2) w1 with
      | (Raise e, _, w2) => (Raise e, h, w2)
      | (Ok frame_paths, _, w2) =>
          match Analyzer.init E with
          | Raise e => (Raise e, h, w2)
          | Ok _ =>
              match Analyzer.analyze_and_generate E frame_paths prompt style 6 w2 with
              | (Raise e, w3) => (Raise e, h, w3)
              | (Ok (frame_analysis, text_result), w3) =>
                  match getitem text_result "main_text" with
                  | Raise e => (Raise e, h, w3)
                  | Ok _ =>
                      match Composer.create_thumbnail_from_analysis E
                              (Composer.init style)
                              (Analyzer.best_frame_path frame_analysis)
                              text_result output resolution h w3 with
                      | (Raise e, h4, w4) => (Raise e, h4, w4)
                      | (Ok final_path, h4, w4) =>
                          let w5 :=
                            if decide (frame_output_dir ∈ files w4)
                            then {| files := rmtree frame_output_dir (files w4);
                                    trace := trace w4 ++ [EvRmtree frame_output_dir] |}
                            else w4 in
                          let reasoning := Analyzer.reasoning frame_analysis in
                          match (if truthy reasoning then sliceable reasoning
                                 else Ok ()) with
                          | Raise e => (Raise e, h4, w5)
                          | Ok _ => (Ok final_path, h4, w5)
                          end
                      end
                  end
              end
          end
      end
  end.

(** The command [generate]: argument checks by [click], the pipeline and
    the three [except] clauses. *)
Definition generate (video_path prompt : string) (output : option string)
    (style resolution : string) (frames : Z) (h : Composer.store) (w : world)
    : outcome * Composer.store * world :=
  if decide (video_path ∈ files w ∧ style ∈ style_choices) then
    match res_map !! resolution with
    | None => (UsageError, h, w)
    | Some base_resolution =>
        let output :=
          match output with
          | Some o => if String.eqb o "" then "./output/thumbnail.jpg" else o
          | None => "./output/thumbnail.jpg"
          end in
        let '(r, h', w') :=
          pipeline video_path prompt output style base_resolution frames h w in
        match r with
        | Ok final_path => (Done final_path, h', w')
        | Raise e =>
            if caught_by e [FileNotFoundError] then (Handled e, h', w')
            else if caught_by e [RuntimeError] then (Handled e, h', w')
            else if caught_by e [Exception] then (Unexpected e, h', w')
            else (Uncaught e, h', w')
        end
    end
  else (UsageError, h, w).
End Generate.

End Cli.

(** ** Scenarios

    Concrete collaborators for the worked examples. *)

Module Scenario.
Import Concrete.

(** An ffmpeg that writes the frame it is asked for. *)
Definition ffmpeg_ok (cmd : ffmpeg_cmd) (fs : gset string) : tool_result * gset string :=
  (Exit0 "", {[out cmd]} ∪ fs).

(** An ffmpeg that finds no frame to write when it seeks to [limit] or
    beyond, and still ends with status 0. *)
Definition ffmpeg_until (limit : Qc) (cmd : ffmpeg_cmd) (fs : gset string)
    : tool_result * gset string :=
  if decide (ss cmd < limit)%Qc then (Exit0 "", {[out cmd]} ∪ fs) else (Exit0 "", fs).

(** Ten pixels a character. *)
Definition measure (f : font) (s : string) : Z * Z * Z * Z :=
  (0, 0, 10 * Z.of_nat (String.length s), 10).

Definition env_of (probe : string)
    (tool : ffmpeg_cmd -> gset string -> tool_result * gset string)
    (reply : api_request -> string + list string) : env :=
  Env runtime0 (fun _ => Exit0 probe) tool (fun _ => "/tmp/autothumb_0")
      (Some "sk-test") reply measure (fun _ _ => None) (fun _ => None).

Definition silent (r : api_request) : string + list string := inr ["no json here"].

(** A model that answers the frame request with [answer] and the text
    request in prose. *)
Definition answering (answer : string) (r : api_request) : string + list string :=
  match r with
  | ReqFrames _ _ => inr [answer]
  | ReqText _ _ _ => inr ["PYTHON TIPS"]
  end.

Definition two_frames : list string := ["out/frame_0001.jpg"; "out/frame_0002.jpg"].

Definition w2 : world := World (list_to_set two_frames) [].

Definition w0 : world := World {["v.mp4"]} [].

Definition probe_of (rate : string) (width height : string) (duration : string) : string :=
  q ("{'streams': [{'codec_type': 'audio', 'codec_name': 'aac'}, "
     ++ "{'codec_type': 'video', 'codec_name': 'h264', 'r_frame_rate': '" ++ rate
     ++ "', 'width': " ++ width ++ ", 'height': " ++ height ++ "}], "
     ++ "'format': {'duration': '" ++ duration ++ "', 'bit_rate': '128000'}}").

Definition video (seconds : Z) : Video.processor :=
  Video.Processor "v.mp4"
    (Video.Metadata (Qc_of_Z seconds) 1920 1080 (Qc_of_Z 30) (VStr "h264") 128000) None.

End Scenario.

(** ** More scenarios *)

Module Cases.
Import Concrete Scenario.

(** An ffprobe report with audio only. *)
Definition audio_only : string :=
  q ("{'streams': [{'codec_type': 'audio', 'codec_name': 'aac'}], "
     ++ "'format': {'duration': '30.000000', 'bit_rate': '128000'}}").

(** An ffprobe report whose container gives no bit rate. *)
Definition no_bit_rate : string :=
  q ("{'streams': [{'codec_type': 'video', 'codec_name': 'h264', "
     ++ "'r_frame_rate': '25/1', 'width': 640, 'height': 360}], "
     ++ "'format': {'duration': '12.5'}}").

(** An ffmpeg that fails on the frame it is to write to [path] and writes
    the others. *)
Definition ffmpeg_failing_at (path : string) (cmd : ffmpeg_cmd) (fs : gset string)
    : tool_result * gset string :=
  if String.eqb (out cmd) path then (ExitFail "Invalid data found", fs)
  else (Exit0 "", {[out cmd]} ∪ fs).

(** A model that wraps its JSON answer in prose. *)
Definition chatty (r : api_request) : string + list string :=
  inr [q "Here you go: {'main_text': 'PYTHON TIPS'} Enjoy"].

(** The scenario environment without an API key. *)
Definition keyless (probe : string) : env :=
  Env runtime0 (fun _ => Exit0 probe) ffmpeg_ok (fun _ => "/tmp/autothumb_0")
      None silent measure (fun _ _ => None) (fun _ => None).

End Cases.

(** ** Text around a JSON object *)

Module Text.

(** The character [c] occurs in [s]. *)
Fixpoint occurs (c : ascii) (s : string) : bool :=
  match s with
  | EmptyString => false
  | String a s' => Ascii.eqb a c || occurs c s'
  end.

End Text.

(** ** [autothumb/core/video.py]: the life of the temporary directory *)

Module Lifecycle.
Import Video.

(** [VideoProcessor.cleanup]. *)
Definition cleanup (self : processor) (w : world) : processor * world :=
  match temp_dir self with
  | Some d =>
      if negb (String.eqb d "") && bool_decide (d ∈ files w)
      then (Processor (video_path self) (meta self) None,
            {| files := Cli.rmtree d (files w); trace := trace w ++ [EvRmtree d] |})
      else (self, w)
  | None => (self, w)
  end.

Section Lifecycle.
Context (E : env).

(** [with VideoProcessor(path) as processor: body]: [__exit__] cleans up
    whether the body returns or raises, and lets the exception through. *)
Definition with_processor {A} (path : string)
    (body : processor -> world -> result A * processor * world) (w : world)
    : result A * world :=
  match Video.init E path w with
  | (Raise e, w1) => (Raise e, w1)
  | (Ok p, w1) =>
      let '(r, p', w2) := body p w1 in
      (r, (cleanup p' w2).2)
  end.
End Lifecycle.

(** The tool writes and overwrites files, and removes none. *)
Definition keeps_files (E : env) : Prop :=
  forall cmd fs, fs ⊆ (ffmpeg E cmd fs).2.

(** [tempfile.mkdtemp] returns the name of a directory: not empty, no
    slash at the end. *)
Definition names_a_directory (d : string) : Prop :=
  d <> "" /\ path_prefix d = d ++ "/".

End Lifecycle.

(** ** [autothumb/core/composer.py]: what is drawn, and where

    The drawing calls of [compose] on the [ImageDraw] object, for sizes,
    widths and offsets that are integers, as the presets have them and
    the signatures say. Pixels, blur and sharpening stay with the
    renderer. *)

Module Drawing.
Import Composer.

(** A call on the drawing context. *)
Inductive draw_op :=
| DrawText (xy : Z * Z) (text : string) (f : font) (fill : value)
| DrawRectangle (x0 y0 x1 y1 : Z) (fill : value).

Definition rgba (r g b a : Z) : value := VTuple [VInt r; VInt g; VInt b; VInt a].

(** [range(a, b)]. *)
Definition range (a b : Z) : list Z := seqZ a (b - a).

(** [ThumbnailComposer._add_shadow]. *)
Definition _add_shadow (text : string) (position : Z * Z) (f : font) (offset : Z)
    : list draw_op :=
  let shadow_pos := (position.1 + offset, position.2 + offset) in
  [DrawText shadow_pos text f (rgba 0 0 0 180)].

(** [ThumbnailComposer._draw_text_with_outline]. *)
Definition _draw_text_with_outline (text : string) (position : Z * Z) (f : font)
    (text_color outline_color : value) (outline_width : Z) : list draw_op :=
  let '(x, y) := position in
  (if truthy outline_color && (0 <? outline_width)
   then
     adj_x ← range (- outline_width) (outline_width + 1);
     adj_y ← range (- outline_width) (outline_width + 1);
     if negb (adj_x =? 0) || negb (adj_y =? 0)
     then [DrawText (x + adj_x, y + adj_y) text f outline_color]
     else []
   else [])
  ++ [DrawText position text f text_color].

(** [ThumbnailComposer._add_background_overlay]: the rectangle drawn on
    the overlay, for an image of the given size. The two products are
    products of doubles; [None] is for an [int] that raises, on an
    infinity or a NaN. *)
Definition _add_background_overlay (size : Z * Z) (position : value)
    (opacity height_ratio : Float64.double) : option draw_op :=
  let '(width, height) := size in
  overlay_height ← Float64.int (Float64.mul (Float64.of_Z height) height_ratio);
  let '(y_start, y_end) :=
    if eq_str position "top" then (0, overlay_height)
    else if eq_str position "bottom" then (height - overlay_height, height)
    else let y_start := (height - overlay_height) `div` 2 in
         (y_start, y_start + overlay_height) in
  alpha ← Float64.int (Float64.mul (Float64.of_Z 255) opacity);
  Some (DrawRectangle 0 y_start width y_end (rgba 0 0 0 alpha)).

(** The entries of the style the drawing loops read. *)
Record text_style := TextStyle {
  font_size_main : Z;
  font_size_sub : Z;
  text_color : value;
  outline_color : value;
  outline_width : Z;
  position : value;
  shadow : bool;
}.

(** A line of text where a loop of [compose] puts it. *)
Record placed := Placed {
  pl_line : string;
  pl_xy : Z * Z;
  pl_font : font;
  pl_shadow_offset : Z;
  pl_outline_width : Z;
}.

Section Drawing.
Context (E : env).

(** One [for] loop over lines: [x] centres the line, [y] moves down by
    [step] a line. *)
Fixpoint place_lines (lines : list string) (f : font) (width : Z)
    (shadow_offset outline step : Z) (y : Z) : list placed * Z :=
  match lines with
  | [] => ([], y)
  | line :: rest =>
      let x := (width - text_width E f line) `div` 2 in
      let '(ps, y') := place_lines rest f width shadow_offset outline step (y + step) in
      (Placed line (x, y) f shadow_offset outline :: ps, y')
  end.

(** The two loops of [compose], from [line_height] on. *)
Definition place_text (style : text_style) (resolution : Z * Z)
    (main_font sub_font : font) (main_lines : list string)
    (sub_lines : option (list string)) : list placed :=
  let line_height := font_size_main style + 10 in
  let total_text_height :=
    Z.of_nat (length main_lines) * line_height +
    match sub_lines with
    | Some ls => Z.of_nat (length ls) * (font_size_sub style + 10) + 20
    | None => 0
    end in
  let y :=
    if eq_str (position style) "top" then 50
    else if eq_str (position style) "bottom" then resolution.2 - total_text_height - 50
    else (resolution.2 - total_text_height) `div` 2 in
  let '(main, y) :=
    place_lines main_lines main_font resolution.1 5 (outline_width style) line_height y in
  match sub_lines with
  | Some ls =>
      let y := y + 20 in
      main ++ (place_lines ls sub_font resolution.1 3
                 (Z.max (outline_width style - 1) 1) (font_size_sub style + 10) y).1
  | None => main
  end.

(** The body of either loop. *)
Definition draw_placed (style : text_style) (p : placed) : list draw_op :=
  (if shadow style
   then _add_shadow (pl_line p) (pl_xy p) (pl_font p) (pl_shadow_offset p)
   else [])
  ++ _draw_text_with_outline (pl_line p) (pl_xy p) (pl_font p)
       (text_color style) (outline_color style) (pl_outline_width p).

(** Everything the two loops draw, in order. *)
Definition draw_text (style : text_style) (resolution : Z * Z)
    (main_font sub_font : font) (main_lines : list string)
    (sub_lines : option (list string)) : list draw_op :=
  p ← place_text style resolution main_font sub_font main_lines sub_lines;
  draw_placed style p.
End Drawing.

End Drawing.

(** ** [autothumb/cli/main.py]: the command [compose] *)

Module Commands.
Import Cli.

(** What the command asks the console to print: the markup is fixed, the
    texts put into it are not. *)
Inductive message :=
| Banner (image_path text style resolution : string)
| Composing
| Created
| File (result : string)
| Error (e : exn).

Section Commands.
Context (E : env).
(** [console.print(...)]: what it raises, if anything: rendering the
    markup fails with a [MarkupError] on a text such as ["[/b]"]. *)
Context (console_print : message -> option exn).

(** The [try] block of [compose]. *)
Definition composing (image_path text : string) (subtext : option string)
    (output style : string) (target_resolution : Z * Z) (h : Composer.store) (w : world)
    : result string * Composer.store * world :=
  match console_print Composing with
  | Some e => (Raise e, h, w)
  | None =>
      let composer := Composer.init style in
      match Composer.compose E composer image_path (VStr text) output
              match subtext with Some s => VStr s | None => VNone end
              target_resolution None h w with
      | (Raise e, h', w') => (Raise e, h', w')
      | (Ok result, h', w') =>
          match console_print Created with
          | Some e => (Raise e, h', w')
          | None =>
              match console_print (File result) with
              | Some e => (Raise e, h', w')
              | None => (Ok result, h', w')
              end
          end
      end
  end.

(** The command [compose]: argument checks by [click], the banner, the
    composer at the resolution [res_map] gives, and the one
    [except Exception] clause (message, exit status 1). What the banner
    raises, or the message of the [except] clause, nothing catches. *)
Definition compose (image_path text : string) (subtext : option string)
    (output style resolution : string) (h : Composer.store) (w : world)
    : outcome * Composer.store * world :=
  if decide (image_path ∈ files w ∧ style ∈ style_choices) then
    match res_map !! resolution with
    | None => (UsageError, h, w)
    | Some target_resolution =>
        match console_print (Banner image_path text style resolution) with
        | Some e => (Uncaught e, h, w)
        | None =>
            let '(r, h', w') :=
              composing image_path text subtext output style target_resolution h w in
            match r with
            | Ok result => (Done result, h', w')
            | Raise e =>
                if caught_by e [Exception]
                then match console_print (Error e) with
                     | Some e' => (Uncaught e', h', w')
                     | None => (Handled e, h', w')
                     end
                else (Uncaught e, h', w')
            end
        end
    end
  else (UsageError, h, w).
End Commands.

(** A console that prints everything. *)
Definition prints (m : message) : option exn := None.

(** A console that fails on the text ["[/b]"] of a banner. *)
Definition strict (m : message) : option exn :=
  match m with
  | Banner _ text _ _ =>
      if String.eqb text "[/b]"
      then Some (Exn Exception "closing tag '[/b]' at position 0 doesn't match any open tag")
      else None
  | _ => None
  end.

End Commands.

(** ** [autothumb/core/video.py]: the sampler in double precision

    [extract_frames] once more, with the arithmetic of the code: every
    subtraction, product, quotient and sum is rounded to a double, and the
    [-ss] argument of a call is the double itself. The prober is left
    out: the duration is the double the processor holds. *)

Module Rounded.
Import Float64.

(** One call of ffmpeg for one frame. *)
Record call := Call { ss : double; input : string; out : string }.

(** The files, and the calls made so far. *)
Record state := State { files : gset string; calls : list call }.

(** The attributes of a [VideoProcessor] the sampler reads and writes. *)
Record processor := Processor {
  video_path : string;
  duration : double;
  temp_dir : option string;
}.

(** [[skip_start + (i * usable / (num_frames - 1)) for i in range(num_frames)]]. *)
Fixpoint timestamps_from (idxs : list nat) (num_frames : Z) (skip_start usable : double)
    : result (list double) :=
  match idxs with
  | [] => Ok []
  | i :: rest =>
      q ← truediv (mul (of_Z (Z.of_nat i)) usable) (of_Z (num_frames - 1));
      ts ← timestamps_from rest num_frames skip_start usable;
      Ok (add skip_start q :: ts)
  end.

Definition timestamps (num_frames : Z) (skip_start usable : double)
    : result (list double) :=
  timestamps_from (seq 0 (Z.to_nat num_frames)) num_frames skip_start usable.

(** The [i]-th timestamp, each operation rounded. *)
Definition timestamp_at (count : Z) (skip_start usable : double) (i : nat) : double :=
  add skip_start (div (mul (of_Z (Z.of_nat i)) usable) (of_Z (count - 1))).

(** [duration - skip_start_seconds - skip_end_seconds]. *)
Definition usable_duration (self : processor) (skip_start skip_end : double) : double :=
  sub (sub (duration self) skip_start) skip_end.

Section Extract.
Context (ffmpeg : call -> gset string -> tool_result * gset string).
Context (mkdtemp : gset string -> string).

(** Every call ends with status 0 and leaves its output file. *)
Definition always_writes : Prop :=
  forall c fs, exists o fs', ffmpeg c fs = (Exit0 o, fs') /\ out c ∈ fs'.

(** Every call ends with status 0. *)
Definition always_exits_0 : Prop :=
  forall c fs, exists o, (ffmpeg c fs).1 = Exit0 o.

Definition dir_of (output_dir : option string) (st : state) : string :=
  match output_dir with
  | Some d => d
  | None => mkdtemp (files st)
  end.

(** The output directory, created if need be. *)
Definition prepare (self : processor) (output_dir : option string) (st : state)
    : processor * string * state :=
  match output_dir with
  | None =>
      let d := mkdtemp (files st) in
      (Processor (video_path self) (duration self) (Some d), d,
       State ({[d]} ∪ files st) (calls st))
  | Some d => (self, d, State ({[d]} ∪ files st) (calls st))
  end.

(** The call made for one item of [enumerate(timestamps, start=1)]. *)
Definition cmd_of (video output_dir : string) (it : nat * double) : call :=
  Call it.2 video (Video.frame_path output_dir it.1).

(** The [for] loop: one call per timestamp, the path kept when the file
    exists afterwards. *)
Fixpoint extract_loop (video output_dir : string) (items : list (nat * double))
    (frame_files : list string) (st : state) : result (list string) * state :=
  match items with
  | [] => (Ok frame_files, st)
  | (idx, timestamp) :: rest =>
      let path := Video.frame_path output_dir idx in
      let c := Call timestamp video path in
      let '(r, fs) := ffmpeg c (files st) in
      let st' := State fs (calls st ++ [c]) in
      match check r with
      | Raise e => (Raise e, st')
      | Ok _ =>
          extract_loop video output_dir rest
            (if decide (path ∈ fs) then frame_files ++ [path] else frame_files) st'
      end
  end.

(** [VideoProcessor.extract_frames]. *)
Definition extract_frames (self : processor) (num_frames : Z)
    (output_dir : option string) (skip_start_seconds skip_end_seconds : double)
    (st : state) : result (list string) * processor * state :=
  let '(self, dir, st) := prepare self output_dir st in
  let usable_duration := usable_duration self skip_start_seconds skip_end_seconds in
  if leb usable_duration zero
  then (raise ValueError "Video too short after skipping start/end", self, st)
  else
    match timestamps num_frames skip_start_seconds usable_duration with
    | Raise e => (Raise e, self, st)
    | Ok ts =>
        let '(r, st') :=
          extract_loop (video_path self) dir (Video.enumerate 1 ts) [] st in
        match r with
        | Raise e =>
            if caught_by e [CalledProcessError]
            then (raise RuntimeError ("FFmpeg failed to extract frames: " ++ exn_msg e),
                  self, st')
            else (Raise e, self, st')
        | Ok frame_files =>
            match frame_files with
            | [] => (raise RuntimeError "No frames were extracted", self, st')
            | _ => (Ok (sorted frame_files), self, st')
            end
        end
    end.
End Extract.

(** An ffmpeg that writes the frame it is asked for. *)
Definition ffmpeg_ok (c : call) (fs : gset string) : tool_result * gset string :=
  (Exit0 "", {[out c]} ∪ fs).

(** An ffmpeg that finds no frame to write when it seeks to [limit] or
    beyond, and still ends with status 0. *)
Definition ffmpeg_until (limit : double) (c : call) (fs : gset string)
    : tool_result * gset string :=
  if ltb (ss c) limit then (Exit0 "", {[out c]} ∪ fs) else (Exit0 "", fs).


(** A processor on a video of the given duration, in seconds. *)
Definition video (seconds : Q) : processor := Processor "v.mp4" (of_Q seconds) None.


End Rounded.

(** ** [autothumb/core/analyzer.py]: the frames are read

    [analyze_frames] once more, with the reading of the frames. The loop
    that builds the request checks that a frame exists and then reads it
    with [_encode_image]; it runs before the [try] block, so what the
    reading raises leaves [analyze_frames] as it is. *)

Module Reading.
Import Analyzer.

Section Reading.
Context (E : env).
(** [self._encode_image(path)] for a path that exists: the base64 text,
    or what [open] or [read] raises. *)
Context (_encode_image : string -> result string).

(** The loop over [frame_paths]: the images of the request. *)
Fixpoint images (frame_paths : list string) (w : world) : result (list string) :=
  match frame_paths with
  | [] => Ok []
  | frame_path :: rest =>
      if bool_decide (frame_path ∈ files w)
      then image_data ← _encode_image frame_path;
           content ← images rest w;
           Ok (image_data :: content)
      else raise FileNotFoundError ("Frame not found: " ++ frame_path)
  end.

(** The dictionary read from the reply, or the fallback when the reply
    holds no ["{...}"]. *)
Definition analysis_of (response_text : string) : result value :=
  match search_braces response_text with
  | Some json_match => loads (rt E) json_match
  | None => Ok (VDict [("best_frame_index", VInt 0);
                       ("reasoning", VStr response_text);
                       ("frames", VList [])])
  end.

(** [FrameAnalyzer.analyze_frames]. *)
Definition analyze_frames (frame_paths : list string) (video_description : string)
    (w : world) : result frame_analysis * world :=
  match frame_paths with
  | [] => (raise ValueError "No frames provided for analysis", w)
  | _ =>
      match images frame_paths w with
      | Raise e => (Raise e, w)
      | Ok _ =>
          (guarded "Failed to analyze frames: " (select E frame_paths video_description),
           emit (EvMessages (ReqFrames frame_paths video_description)) w)
      end
  end.

(** [FrameAnalyzer.analyze_and_generate]. *)
Definition analyze_and_generate (frame_paths : list string)
    (video_description style : string) (max_words : Z) (w : world)
    : result (frame_analysis * value) * world :=
  match analyze_frames frame_paths video_description w with
  | (Raise e, w1) => (Raise e, w1)
  | (Ok frame_analysis, w1) =>
      match generate_thumbnail_text E video_description style max_words w1 with
      | (Raise e, w2) => (Raise e, w2)
      | (Ok text_result, w2) => (Ok (frame_analysis, text_result), w2)
      end
  end.
End Reading.

(** Every frame can be read. *)
Definition readable (path : string) : result string := Ok "".

(** The first frame is a directory. *)
Definition first_is_a_directory (path : string) : result string :=
  if String.eqb path "out/frame_0001.jpg"
  then raise OSError "[Errno 21] Is a directory: 'out/frame_0001.jpg'"
  else Ok "".

End Reading.

(** ** [autothumb/cli/main.py]: the command [generate] and its console

    [generate] once more, with what it prints and with the reading of
    the frames. Every message goes through [console.print], which renders
    the markup of the whole text, the prompt, the generated text and the
    paths included: a text such as ["[/b]"] makes it raise a
    [MarkupError]. The banner is printed before the [try] block and the
    messages of the [except] clauses inside them: what these raise,
    nothing catches. Removing the frames directory is taken to succeed. *)

Module Console.
Import Video Cli.

(** What the command asks the console to print: the markup is fixed, the
    values put into it are not. *)
Inductive message :=
| Banner (video_path prompt style resolution : string) (frames : Z)
| Loaded (duration : Qc) (video_width video_height : Z)
| Vertical (target_resolution : Z * Z)
| Horizontal (target_resolution : Z * Z)
| Extracted (count : nat)
| Selected (number : Z)
| Generated (main_text : value)
| Success
| File (final_path : string)
| Reasoning (reasoning : value)
| Error (e : exn)
| UnexpectedError (e : exn)
| Traceback (e : exn).

(** The message on the format of the video. *)
Definition orientation (base_resolution : Z * Z) (m : metadata) : message :=
  if width m <? height m
  then Vertical (target_resolution base_resolution m)
  else Horizontal (target_resolution base_resolution m).

(** [frame_analysis['best_frame_index'] + 1]. *)
Definition number_of (best_frame_index : value) : result Z :=
  match Analyzer.as_index best_frame_index with
  | Some i => Ok (i + 1)
  | None => raise TypeError "unsupported operand type(s) for +"
  end.

Section Generate.
Context (E : env).
(** [console.print(...)]: what it raises, if anything. *)
Context (console_print : message -> option exn).
(** [_encode_image], as in [Reading]. *)
Context (_encode_image : string -> result string).

Definition say (m : message) : result unit :=
  match console_print m with
  | Some e => Raise e
  | None => Ok ()
  end.

(** The messages after the analysis. *)
Definition report_analysis (frame_analysis : Analyzer.frame_analysis)
    (text_result : value) : result unit :=
  number ← number_of (Analyzer.best_frame_index frame_analysis);
  _ ← say (Selected number);
  main_text ← getitem text_result "main_text";
  say (Generated main_text).

(** The messages after the removal of the frames. *)
Definition report_success (frame_analysis : Analyzer.frame_analysis)
    (final_path : string) : result unit :=
  _ ← say Success;
  _ ← say (File final_path);
  let reasoning := Analyzer.reasoning frame_analysis in
  if truthy reasoning
  then _ ← sliceable reasoning; say (Reasoning reasoning)
  else Ok ().

(** The [try] block of [generate]. *)
Definition pipeline (video_path prompt output style : string)
    (base_resolution : Z * Z) (frames : Z) (h : Composer.store) (w : world)
    : result string * Composer.store * world :=
  match Video.init E video_path w with
  | (Raise e, w1) => (Raise e, h, w1)
  | (Ok processor, w1) =>
      let m := meta processor in
      match (_ ← say (Loaded (duration m) (width m) (height m));
             say (orientation base_resolution m)) with
      | Raise e => (Raise e, h, w1)
      | Ok _ =>
          let resolution := target_resolution base_resolution m in
          let frame_output_dir := path_join (dirname output) "frames_temp" in
          match extract_frames E processor frames (Some frame_output_dir)
                  (Qc_of_Z 2) (Qc_of_Z 2) w1 with
          | (Raise e, _, w2) => (Raise e, h, w2)
          | (Ok frame_paths, _, w2) =>
              match (_ ← say (Extracted (length frame_paths)); Analyzer.init E) with
              | Raise e => (Raise e, h, w2)
              | Ok _ =>
                  match Reading.analyze_and_generate E _encode_image frame_paths prompt
                          style 6 w2 with
                  | (Raise e, w3) => (Raise e, h, w3)
                  | (Ok (frame_analysis, text_result), w3) =>
                      match report_analysis frame_analysis text_result with
                      | Raise e => (Raise e, h, w3)
                      | Ok _ =>
                          match Composer.create_thumbnail_from_analysis E
                                  (Composer.init style)
                                  (Analyzer.best_frame_path frame_analysis)
                                  text_result output resolution h w3 with
                          | (Raise e, h4, w4) => (Raise e, h4, w4)
                          | (Ok final_path, h4, w4) =>
                              let w5 :=
                                if decide (frame_output_dir ∈ files w4)
                                then {| files := rmtree frame_output_dir (files w4);
                                        trace := trace w4 ++ [EvRmtree frame_output_dir] |}
                                else w4 in
                              match report_success frame_analysis final_path with
                              | Raise e => (Raise e, h4, w5)
                              | Ok _ => (Ok final_path, h4, w5)
                              end
                          end
                      end
                  end
              end
          end
      end
  end.

(** An [except] clause: its messages, then [sys.exit(1)]. *)
Definition report (o : outcome) (messages : list message) : outcome :=
  match mapM say messages with
  | Ok _ => o
  | Raise e => Uncaught e
  end.

(** The command [generate]: argument checks by [click], the banner, the
    pipeline and the three [except] clauses. *)
Definition generate (video_path prompt : string) (output : option string)
    (style resolution : string) (frames : Z) (h : Composer.store) (w : world)
    : outcome * Composer.store * world :=
  if decide (video_path ∈ files w ∧ style ∈ style_choices) then
    match res_map !! resolution with
    | None => (UsageError, h, w)
    | Some base_resolution =>
        let output :=
          match output with
          | Some o => if String.eqb o "" then "./output/thumbnail.jpg" else o
          | None => "./output/thumbnail.jpg"
          end in
        match console_print (Banner video_path prompt style resolution frames) with
        | Some e => (Uncaught e, h, w)
        | None =>
            let '(r, h', w') :=
              pipeline video_path prompt output style base_resolution frames h w in
            match r with
            | Ok final_path => (Done final_path, h', w')
            | Raise e =>
                if caught_by e [FileNotFoundError]
                then (report (Handled e) [Error e], h', w')
                else if caught_by e [RuntimeError]
                then (report (Handled e) [Error e], h', w')
                else if caught_by e [Exception]
                then (report (Unexpected e) [UnexpectedError e; Traceback e], h', w')
                else (Uncaught e, h', w')
            end
        end
    end
  else (UsageError, h, w).
End Generate.

(** A console that prints everything. *)
Definition prints (m : message) : option exn := None.

(** A console that cannot render the reasoning. *)
Definition chokes_on_reasoning (m : message) : option exn :=
  match m with
  | Reasoning _ => Some (Exn Exception "closing tag '[/b]' doesn't match any open tag")
  | _ => None
  end.

End Console.

(** * Properties *)

(** ** Strings under [sorted] *)

Module StrOrder.

Lemma compare_refl s : String.compare s s = Eq.
Proof.
  induction s as [|c s IH]; cbn; [reflexivity |].
  unfold Ascii.compare. by rewrite N.compare_refl.
Qed.

(** A common prefix does not take part in the comparison. *)
Lemma compare_app p a b : String.compare (p ++ a) (p ++ b) = String.compare a b.
Proof.
  induction p as [|c p IH]; [reflexivity |].
  change (String.compare (String c (p ++ a)) (String c (p ++ b)) = String.compare a b).
  cbn. unfold Ascii.compare. by rewrite N.compare_refl.
Qed.

Lemma le_app p a b : String.le (p ++ a) (p ++ b) <-> String.le a b.
Proof. unfold String.le, String.leb. by rewrite compare_app. Qed.

Lemma append_assoc (s t u : string) : (s ++ t) ++ u = s ++ t ++ u.
Proof.
  induction s as [|c s IH]; [reflexivity |].
  change (String c ((s ++ t) ++ u) = String c (s ++ t ++ u)). by f_equal.
Qed.

(** Sorting a sorted list leaves it as it is. *)
Lemma sorted_id l : Sorted String.le l -> sorted l = l.
Proof.
  intros Hl. unfold sorted.
  apply (Sorted_unique String.le); [apply Sorted_merge_sort, _ | done |].
  apply merge_sort_Permutation.
Qed.

Lemma sorted_length l : length (sorted l) = length l.
Proof. unfold sorted. by rewrite merge_sort_Permutation. Qed.

Lemma sorted_Sorted l : StronglySorted String.le (sorted l).
Proof. apply StronglySorted_merge_sort; apply _. Qed.

End StrOrder.

(** ** The runtime fragment *)

Module PyProps.

Lemma list_getitem_lookup {A} (l : list A) (i : nat) x :
  l !! i = Some x -> list_getitem l (Z.of_nat i) = Ok x.
Proof.
  intros H. pose proof (lookup_lt_Some _ _ _ H) as Hlt. unfold list_getitem.
  destruct (Z.ltb_spec (Z.of_nat i) 0); [lia |].
  destruct (Z.leb_spec 0 (Z.of_nat i)); [| lia].
  destruct (Z.ltb_spec (Z.of_nat i) (Z.of_nat (length l))); [| lia].
  cbn [andb]. by rewrite Nat2Z.id, H.
Qed.

(** A subscript that succeeds is within [-len, len), and a negative one
    counts from the end. *)
Lemma list_getitem_Ok {A} (l : list A) (i : Z) x :
  list_getitem l i = Ok x ->
  - Z.of_nat (length l) <= i < Z.of_nat (length l) /\
  l !! Z.to_nat (if i <? 0 then Z.of_nat (length l) + i else i) = Some x.
Proof.
  unfold list_getitem. set (n := Z.of_nat (length l)).
  destruct (Z.ltb_spec i 0);
    (match goal with |- context [(0 <=? ?j) && (?j <? n)] =>
       destruct (Z.leb_spec 0 j); destruct (Z.ltb_spec j n) end);
    cbn [andb]; try discriminate;
    (match goal with |- context [l !! ?k] => destruct (l !! k) eqn:Hk end);
    try discriminate; intros [= ->]; split; (lia || done).
Qed.

End PyProps.

(** ** The prober *)

Module ProbeProps.
Import Video Scenario PyProps.

(** Whatever the three library functions do: once the frame-rate string
    splits into a numerator that reads as a float and a denominator that
    reads as zero, the division error leaves [_get_metadata] as it is. *)
Lemma zero_denominator_escapes E path w stdout data streams items stream
    rate num den rest x :
  ffprobe E path = Exit0 stdout ->
  json_loads (rt E) stdout = Some data ->
  getitem data "streams" = Ok streams ->
  iter streams = Ok items ->
  next_video items = Ok stream ->
  truthy stream = true ->
  get stream "r_frame_rate" (VStr "30/1") = Ok (VStr rate) ->
  split "/" rate = num :: den :: rest ->
  float_of_str (rt E) num = Some x ->
  float_of_str (rt E) den = Some (Qc_of_Z 0) ->
  (_get_metadata E path w).1 = Raise (Exn ZeroDivisionError "float division by zero").
Proof.
  intros Hp Hj Hs Hi Hn Ht Hr Hsp Hx Hd.
  unfold _get_metadata, parse_metadata, loads. rewrite Hp. cbn [check mbind result_bind].
  rewrite Hj. cbn [mbind result_bind]. rewrite Hs. cbn [mbind result_bind].
  rewrite Hi. cbn [mbind result_bind]. rewrite Hn. cbn [mbind result_bind].
  rewrite Ht. cbn [negb]. rewrite Hr. cbn [mbind result_bind str_split].
  rewrite Hsp.
  assert (list_getitem (num :: den :: rest) 0 = Ok num) as ->
    by exact (list_getitem_lookup (num :: den :: rest) 0 num eq_refl). cbn [mbind result_bind float].
  rewrite Hx. cbn [mbind result_bind].
  assert (list_getitem (num :: den :: rest) 1 = Ok den) as ->
    by exact (list_getitem_lookup (num :: den :: rest) 1 den eq_refl). cbn [mbind result_bind float].
  rewrite Hd. cbn [mbind result_bind]. unfold truediv.
  destruct (decide (Qc_of_Z 0 = Qc_of_Z 0)) as [_ | Hne]; [reflexivity | by destruct Hne].
Qed.

(** C1, at an ffprobe report whose video stream has [r_frame_rate] "0/0":
    the caller gets a [ZeroDivisionError], which is not a [RuntimeError]. *)
Theorem zero_frame_rate_is_not_a_probe_error :
  let E := env_of (probe_of "0/0" "1920" "1080" "30.000000") ffmpeg_ok silent in
  (_get_metadata E "v.mp4" w0).1 = Raise (Exn ZeroDivisionError "float division by zero")
  /\ issubclass ZeroDivisionError RuntimeError = false.
Proof. split; vm_compute; reflexivity. Qed.

End ProbeProps.

(** ** The sampler *)

Module SamplerProps.
Import Video Scenario PyProps StrOrder.

Lemma ffmpeg_calls_app t1 t2 :
  ffmpeg_calls (t1 ++ t2) = (ffmpeg_calls t1 ++ ffmpeg_calls t2)%list.
Proof. unfold ffmpeg_calls. apply omap_app. Qed.

(** *** Timestamps *)

Lemma truediv_Ok a (k : Z) : k <> 0 -> truediv a (Qc_of_Z k) = Ok (a / Qc_of_Z k)%Qc.
Proof.
  intros Hk. unfold truediv.
  destruct (decide (Qc_of_Z k = Qc_of_Z 0)) as [Heq | _]; [| reflexivity].
  by apply Z2Qc_inj in Heq.
Qed.

Lemma truediv_zero a : truediv a (Qc_of_Z 0) = raise ZeroDivisionError "float division by zero".
Proof. unfold truediv. by destruct (decide (Qc_of_Z 0 = Qc_of_Z 0)). Qed.

Lemma timestamps_from_Ok idxs count skip_start usable :
  count <> 1 ->
  timestamps_from idxs count skip_start usable
  = Ok (timestamp_at count skip_start usable <$> idxs).
Proof.
  intros Hc. induction idxs as [|i idxs IH]; [reflexivity |].
  cbn [timestamps_from]. rewrite truediv_Ok by lia. cbn [mbind result_bind].
  rewrite IH. reflexivity.
Qed.

Lemma timestamps_Ok count skip_start usable :
  count <> 1 ->
  timestamps count skip_start usable
  = Ok (timestamp_at count skip_start usable <$> seq 0 (Z.to_nat count)).
Proof. apply timestamps_from_Ok. Qed.

Lemma timestamps_one skip_start usable :
  timestamps 1 skip_start usable = raise ZeroDivisionError "float division by zero".
Proof.
  unfold timestamps. change (Z.to_nat 1) with 1%nat. cbn [seq timestamps_from].
  change (1 - 1) with 0. by rewrite truediv_zero.
Qed.

Lemma timestamps_Raise count skip_start usable e :
  timestamps count skip_start usable = Raise e -> exn_cls e = ZeroDivisionError.
Proof.
  destruct (decide (count = 1)) as [-> | Hc].
  - rewrite timestamps_one. by intros [= <-].
  - by rewrite timestamps_Ok.
Qed.

Lemma timestamp_first count skip_start usable :
  timestamp_at count skip_start usable 0 = skip_start.
Proof.
  unfold timestamp_at. change (Z.of_nat 0) with 0. rewrite Z2Qc_inj_0.
  unfold Qcdiv. ring.
Qed.

Lemma timestamp_last count skip_start usable :
  2 <= count ->
  timestamp_at count skip_start usable (Z.to_nat (count - 1)) = (skip_start + usable)%Qc.
Proof.
  intros Hc. unfold timestamp_at. rewrite Z2Nat.id by lia.
  assert (Qc_of_Z (count - 1) <> 0%Qc).
  { rewrite <- Z2Qc_inj_0. intros H. apply Z2Qc_inj in H. lia. }
  field. assumption.
Qed.

(** *** The loop *)

Lemma enumerate_fmap_seq {A} (f : nat -> A) a n :
  enumerate (S a) (f <$> seq a n) = (fun i => (S i, f i)) <$> seq a n.
Proof.
  revert a. induction n as [|n IH]; intros a; [reflexivity |].
  cbn [seq fmap list_fmap enumerate]. f_equal. apply IH.
Qed.

Lemma enumerate_fst {A} k (ts : list A) : (enumerate k ts).*1 = seq k (length ts).
Proof.
  revert k. induction ts as [|t ts IH]; intros k; [reflexivity |].
  cbn. f_equal. apply IH.
Qed.

Section Loop.
Context (E : env).

(** The loop raises nothing but the failure of a call. *)
Lemma extract_loop_Raise video dir items acc w e w' :
  extract_loop E video dir items acc w = (Raise e, w') ->
  exn_cls e = CalledProcessError.
Proof.
  revert acc w. induction items as [|[idx ts] items IH]; intros acc w; cbn.
  - discriminate.
  - destruct (ffmpeg E _ _) as [[o | err] fs]; cbn.
    + apply IH.
    + by intros [= <- _].
Qed.

(** The kept paths are frame paths, in the order of the calls. *)
Lemma extract_loop_order video dir items acc w fs w' :
  extract_loop E video dir items acc w = (Ok fs, w') ->
  exists idxs, idxs `sublist_of` items.*1 /\ fs = (acc ++ (frame_path dir <$> idxs))%list.
Proof.
  revert acc w. induction items as [|[idx ts] items IH]; intros acc w; cbn.
  - intros [= <- _]. exists []. split; [constructor | by rewrite app_nil_r].
  - destruct (ffmpeg E _ _) as [[o | err] fs'] eqn:Hf; cbn; [| discriminate].
    intros H. apply IH in H as (idxs & Hsub & ->).
    destruct (decide _).
    + exists (idx :: idxs). split; [by constructor |]. by rewrite <- app_assoc.
    + exists idxs. split; [by constructor |]. reflexivity.
Qed.

(** When every call writes its file, every path is kept and every
    command is issued. *)
Lemma extract_loop_writes video dir items acc w :
  always_writes E ->
  exists w',
    extract_loop E video dir items acc w
    = (Ok (acc ++ (frame_path dir <$> items.*1))%list, w') /\
    ffmpeg_calls (trace w')
    = (ffmpeg_calls (trace w) ++ (cmd_of video dir <$> items))%list.
Proof.
  intros HE. revert acc w.
  induction items as [|[idx ts] items IH]; intros acc w; cbn.
  - exists w. by rewrite !app_nil_r.
  - destruct (HE (FfmpegCmd ts video (frame_path dir idx)) (files w))
      as (o & fs' & -> & Hin). cbn in Hin |- *.
    destruct (decide _) as [_ | Hn]; [| by destruct Hn].
    edestruct IH as (w' & -> & Hc). exists w'. split.
    + do 2 f_equal. symmetry. apply (app_assoc acc [frame_path dir idx]).
    + rewrite Hc. cbn [trace]. rewrite ffmpeg_calls_app. cbn.
      by rewrite <- app_assoc.
Qed.
End Loop.

(** *** [extract_frames] *)

Section Extract.
Context (E : env).

Lemma prepare_spec self output_dir w :
  exists self' w',
    prepare E self output_dir w = (self', dir_of E output_dir w, w') /\
    meta self' = meta self /\ video_path self' = video_path self /\
    ffmpeg_calls (trace w') = ffmpeg_calls (trace w).
Proof.
  destruct output_dir as [d |]; cbn; eexists _, _; (split; [reflexivity |]);
    cbn; rewrite ffmpeg_calls_app; cbn; by rewrite app_nil_r.
Qed.

(** A single frame: the division by [num_frames - 1] fails before any
    call to ffmpeg. *)
Lemma single_frame_divides_by_zero self output_dir skip_start skip_end w :
  (Qc_of_Z 0 < duration (meta self) - skip_start - skip_end)%Qc ->
  let run := extract_frames E self 1 output_dir skip_start skip_end w in
  run.1.1 = Raise (Exn ZeroDivisionError "float division by zero") /\
  ffmpeg_calls (trace run.2) = ffmpeg_calls (trace w).
Proof.
  intros Hpos. cbn zeta. unfold extract_frames.
  destruct (prepare_spec self output_dir w) as (self' & w1 & -> & -> & _ & Hc).
  destruct (decide _) as [Hle | _]; [by apply Qclt_not_le in Hpos |].
  rewrite timestamps_one. done.
Qed.

(** Every call writing its file, [count >= 2] frames come back, from one
    call per timestamp of the specification's formula. *)
Lemma extract_frames_writes self count output_dir skip_start skip_end w :
  let usable := (duration (meta self) - skip_start - skip_end)%Qc in
  let dir := dir_of E output_dir w in
  2 <= count -> (Qc_of_Z 0 < usable)%Qc -> always_writes E ->
  exists self' w',
    extract_frames E self count output_dir skip_start skip_end w
    = (Ok (sorted (frame_path dir <$> seq 1 (Z.to_nat count))), self', w') /\
    ffmpeg_calls (trace w')
    = (ffmpeg_calls (trace w) ++
       ((fun i => FfmpegCmd (timestamp_at count skip_start usable i)
                    (video_path self) (frame_path dir (S i)))
          <$> seq 0 (Z.to_nat count)))%list.
Proof.
  cbn zeta. intros Hc Hpos HE. unfold extract_frames.
  destruct (prepare_spec self output_dir w) as (self' & w1 & -> & -> & -> & Hw1).
  destruct (decide _) as [Hle | _]; [by apply Qclt_not_le in Hpos |].
  rewrite timestamps_Ok by lia. rewrite (enumerate_fmap_seq _ 0).
  edestruct (extract_loop_writes E) as (w2 & -> & Hw2); [done |].
  rewrite app_nil_l in *. rewrite <- !list_fmap_compose in *.
  exists self', w2. split.
  - rewrite <- (fmap_S_seq 0).  rewrite <- list_fmap_compose.
    destruct (Z.to_nat count) as [|n] eqn:Hn; [lia |]. reflexivity.
  - rewrite Hw2, Hw1. reflexivity.
Qed.
End Extract.

(** *** Frame names under [sorted] *)

Lemma path_join_prefix a b : path_join a b = path_prefix a ++ b.
Proof.
  unfold path_join, path_prefix. destruct a as [|c a]; [reflexivity |].
  destruct (String.eqb _ _); [reflexivity |].
  symmetry. apply append_assoc.
Qed.

Lemma StronglySorted_sublist {A} (R : relation A) (k l : list A) :
  k `sublist_of` l -> StronglySorted R l -> StronglySorted R k.
Proof.
  induction 1 as [| x k l Hs IH | x k l Hs IH]; intros Hl.
  - constructor.
  - apply StronglySorted_inv in Hl as [Hl Hx]. constructor; [by apply IH |].
    rewrite Forall_forall in Hx |- *. intros y Hy. apply Hx.
    eapply elem_of_sublist; eassumption.
  - apply StronglySorted_inv in Hl as [Hl _]. by apply IH.
Qed.

Lemma StronglySorted_lookup {A} (R : relation A) (l : list A) i j x y :
  StronglySorted R l -> l !! i = Some x -> l !! j = Some y -> (i < j)%nat -> R x y.
Proof.
  intros Hl. revert i j. induction Hl as [| a l Hl IH Ha]; intros i j Hi Hj Hlt.
  - by rewrite lookup_nil in Hi.
  - destruct j as [|j]; [lia |]. destruct i as [|i]; cbn in Hi, Hj.
    + injection Hi as ->. rewrite Forall_forall in Ha. apply Ha.
      eapply list_elem_of_lookup_2, Hj.
    + eapply IH; [exact Hi | exact Hj | lia].
Qed.

Lemma StronglySorted_seq a n : StronglySorted lt (seq a n).
Proof.
  revert a. induction n as [|n IH]; intros a; cbn; constructor; [apply IH |].
  apply Forall_seq. intros; lia.
Qed.

(** Up to four digits the zero-padded names ascend with the number; the
    ten thousand names are compared one after the other. *)
Lemma frame_names_sorted :
  StronglySorted String.le (frame_name <$> seq 0 (Z.to_nat 10000)).
Proof.
  apply Sorted_StronglySorted; [apply _ |].
  apply (bool_decide_unpack _). vm_compute. reflexivity.
Qed.

Lemma frame_paths_sorted dir (idxs : list nat) :
  idxs `sublist_of` seq 0 (Z.to_nat 10000) ->
  StronglySorted String.le (frame_path dir <$> idxs).
Proof.
  intros Hs. apply (StronglySorted_sublist _ _ (frame_path dir <$> seq 0 (Z.to_nat 10000))).
  { by apply fmap_sublist. }
  assert (frame_path dir <$> seq 0 (Z.to_nat 10000)
          = (String.append (path_prefix dir)) <$> (frame_name <$> seq 0 (Z.to_nat 10000)))
    as ->.
  { rewrite <- list_fmap_compose. apply list_fmap_ext. intros _ i _.
    apply path_join_prefix. }
  apply (StronglySorted_fmap _ String.le String.le); [| apply frame_names_sorted].
  intros a b Hab. by apply le_app.
Qed.

Lemma seq_sublist_below (n : nat) :
  Z.of_nat n <= 9999 -> seq 1 n `sublist_of` seq 0 (Z.to_nat 10000).
Proof.
  intros Hn.
  replace (Z.to_nat 10000) with (1 + (n + (Z.to_nat 9999 - n)))%nat by lia.
  rewrite seq_app. apply sublist_inserts_l. rewrite seq_app. apply sublist_inserts_r.
  reflexivity.
Qed.

(** The five-digit name of frame 10000 sorts before the name of frame 9999. *)
Lemma frame_10000_sorts_early dir :
  ~ String.le (frame_path dir (Z.to_nat 9999)) (frame_path dir (Z.to_nat 10000)).
Proof.
  unfold frame_path. rewrite !path_join_prefix, le_app. vm_compute. intros [].
Qed.

(** *** The claims on [extract_frames] *)

Lemma ffmpeg_ok_always_writes probe reply : always_writes (env_of probe ffmpeg_ok reply).
Proof. intros cmd fs. eexists _, _. split; [reflexivity |]. set_solver. Qed.

Lemma timestamps_length count skip_start usable ts :
  timestamps count skip_start usable = Ok ts -> length ts = Z.to_nat count.
Proof.
  destruct (decide (count = 1)) as [-> | Hc].
  - by rewrite timestamps_one.
  - rewrite timestamps_Ok by done. intros [= <-]. by rewrite length_fmap, length_seq.
Qed.

(** C7, as amended: for at most 9999 frames, the list a successful call
    returns is the list of the frame paths in the order of their
    extraction (ascending sequence numbers, the frames whose file is
    missing left out), and sorting it again changes nothing. *)
Theorem sorting_keeps_extraction_order E self num_frames output_dir
    skip_start skip_end w paths self' w' :
  num_frames <= 9999 ->
  extract_frames E self num_frames output_dir skip_start skip_end w
  = (Ok paths, self', w') ->
  exists idxs,
    idxs `sublist_of` seq 1 (Z.to_nat num_frames) /\
    StronglySorted lt idxs /\
    paths = frame_path (dir_of E output_dir w) <$> idxs /\
    sorted paths = paths.
Proof.
  intros Hn. unfold extract_frames.
  destruct (prepare_spec E self output_dir w) as (self1 & w1 & -> & _ & _ & _).
  destruct (decide _) as [_ | _]; [discriminate |].
  destruct (timestamps _ _ _) as [ts | e] eqn:Hts; [| discriminate].
  apply timestamps_length in Hts.
  destruct (extract_loop _ _ _ _ _ _) as [[fs | e] w2] eqn:Hl;
    [| destruct (caught_by _ _); discriminate].
  apply extract_loop_order in Hl as (idxs & Hsub & ->).
  rewrite enumerate_fst, Hts, app_nil_l in *.
  assert (sorted (frame_path (dir_of E output_dir w) <$> idxs)
          = frame_path (dir_of E output_dir w) <$> idxs) as Hid.
  { apply sorted_id, StronglySorted_Sorted, frame_paths_sorted.
    etrans; [exact Hsub |]. apply seq_sublist_below. lia. }
  destruct (frame_path _ <$> idxs) eqn:Hfs; [discriminate |].
  intros [= <- _ _]. exists idxs. rewrite Hfs, Hid.
  split; [done |]. split; [| done].
  eapply StronglySorted_sublist; [exact Hsub | apply StronglySorted_seq].
Qed.

Lemma sorting_keeps_extraction_order_witness :
  exists idxs,
    idxs `sublist_of` seq 1 (Z.to_nat 3) /\
    StronglySorted lt idxs /\
    ["out/frame_0001.jpg"; "out/frame_0002.jpg"] = frame_path "out" <$> idxs /\
    sorted ["out/frame_0001.jpg"; "out/frame_0002.jpg"]
    = ["out/frame_0001.jpg"; "out/frame_0002.jpg"].
Proof.
  apply (sorting_keeps_extraction_order
           (env_of "" (ffmpeg_until (Qc_of_Z 10)) silent) (video 10) 3 (Some "out")
           (Qc_of_Z 2) (Qc_of_Z 0) w0 _
           (extract_frames (env_of "" (ffmpeg_until (Qc_of_Z 10)) silent) (video 10)
              3 (Some "out") (Qc_of_Z 2) (Qc_of_Z 0) w0).1.2
           (extract_frames (env_of "" (ffmpeg_until (Qc_of_Z 10)) silent) (video 10)
              3 (Some "out") (Qc_of_Z 2) (Qc_of_Z 0) w0).2).
  - lia.
  - vm_compute. reflexivity.
Defined.

(** C7 as stated fails at ten thousand frames, every one of them written:
    sorted, the five-digit name of the last frame comes before the names
    "frame_1001.jpg" to "frame_9999.jpg", so the sorted list is not the
    list in extraction order. *)
Lemma ten_thousand_frames_sort_out_of_order :
  let E := env_of "" ffmpeg_ok silent in
  exists paths self' w',
    extract_frames E (video 100) 10000 (Some "out") (Qc_of_Z 2) (Qc_of_Z 2) w0
    = (Ok paths, self', w') /\
    sorted paths <> frame_path "out" <$> seq 1 (Z.to_nat 10000).
Proof.
  cbn zeta.
  destruct (extract_frames_writes (env_of "" ffmpeg_ok silent) (video 100) 10000
              (Some "out") (Qc_of_Z 2) (Qc_of_Z 2) w0)
    as (self' & w' & Hrun & _).
  - lia.
  - vm_compute. reflexivity.
  - apply ffmpeg_ok_always_writes.
  - eexists _, self', w'. split; [exact Hrun |]. intros Heq.
    apply (frame_10000_sorts_early "out").
    apply (StronglySorted_lookup String.le
             (frame_path "out" <$> seq 1 (Z.to_nat 10000))
             (Z.to_nat 9998) (Z.to_nat 9999)).
    + rewrite <- Heq. apply sorted_Sorted.
    + rewrite list_lookup_fmap, lookup_seq_lt by lia.
      cbn [fmap option_fmap option_map]. repeat f_equal; lia.
    + rewrite list_lookup_fmap, lookup_seq_lt by lia.
      cbn [fmap option_fmap option_map]. repeat f_equal; lia.
    + lia.
Qed.

End SamplerProps.

(** ** The selector *)

Module SelectorProps.
Import Analyzer Scenario PyProps.

Lemma append_cons c (a b : string) : String c a ++ b = String c (a ++ b).
Proof. reflexivity. Qed.

(** *** The pattern [\{.*\}] *)

Lemma after_open_Some s rest :
  after_open s = Some rest -> exists a, s = a ++ String "{" rest.
Proof.
  revert rest. induction s as [|c s IH]; intros rest; cbn; [discriminate |].
  destruct (Ascii.eqb_spec c "{") as [-> | _].
  - intros [= ->]. by exists "".
  - intros H. apply IH in H as [a ->]. by exists (String c a).
Qed.

Lemma after_open_app a r :
  exists m, after_open (a ++ String "{" r) = Some (m ++ r).
Proof.
  induction a as [|c a [m IH]].
  - exists "". cbn. reflexivity.
  - rewrite append_cons. cbn. destruct (Ascii.eqb c "{").
    + exists (a ++ "{"). by rewrite StrOrder.append_assoc.
    + by exists m.
Qed.

Lemma upto_last_close_Some s p :
  upto_last_close s = Some p -> exists b c, s = b ++ String "}" c.
Proof.
  revert p. induction s as [|x s IH]; intros p; cbn; [discriminate |].
  destruct (upto_last_close s) as [p' |].
  - intros _. destruct (IH p' eq_refl) as (b & c & ->). by exists (String x b), c.
  - destruct (Ascii.eqb_spec x "}") as [-> | _]; [| discriminate].
    intros _. by exists "", s.
Qed.

Lemma upto_last_close_app b c : upto_last_close (b ++ String "}" c) <> None.
Proof.
  induction b as [|x b IH]; [| rewrite append_cons]; cbn [upto_last_close].
  - change ("" ++ String "}" c) with (String "}" c). cbn [upto_last_close].
    destruct (upto_last_close c); [discriminate | vm_compute; discriminate].
  - by destruct (upto_last_close (b ++ String "}" c)).
Qed.

(** The pattern finds nothing exactly in the texts that have no ["{"]
    with a ["}"] somewhere after it. *)
Lemma search_braces_None text :
  search_braces text = None <->
  ~ exists a b c, text = a ++ "{" ++ b ++ "}" ++ c.
Proof.
  unfold search_braces. split.
  - intros Hs (a & b & c & ->).
    destruct (after_open_app a (b ++ "}" ++ c)) as [m Hm].
    change ("{" ++ b ++ "}" ++ c) with (String "{" (b ++ "}" ++ c)) in Hs.
    rewrite Hm in Hs. cbn in Hs.
    change ("}" ++ c) with (String "}" c) in Hs.
    rewrite <- StrOrder.append_assoc in Hs.
    pose proof (upto_last_close_app (m ++ b) c) as Hn.
    by destruct (upto_last_close _).
  - intros Hn. destruct (after_open text) as [rest |] eqn:Ha; [| reflexivity]. cbn.
    destruct (upto_last_close rest) as [p |] eqn:Hp; [| reflexivity].
    destruct Hn. apply after_open_Some in Ha as [a ->].
    apply upto_last_close_Some in Hp as (b & c & ->). by exists a, b, c.
Qed.

(** *** [analyze_frames] *)

Lemma guarded_Ok {A} what (body : result A) a :
  guarded what body = Ok a -> body = Ok a.
Proof.
  unfold guarded. destruct body as [a' | e]; [done |].
  by repeat destruct (caught_by _ _).
Qed.

Lemma find_missing_None (fs : gset string) (frame_paths : list string) :
  Forall (fun p => p ∈ fs) frame_paths ->
  List.find (fun p => negb (bool_decide (p ∈ fs))) frame_paths = None.
Proof.
  induction 1 as [| p ps Hp _ IH]; cbn; [reflexivity |].
  by rewrite (bool_decide_eq_true_2 _ Hp).
Qed.

Section Select.
Context (E : env).

(** C6: the frames being there and the model having answered with a
    text that holds no ["{...}"], [analyze_frames] returns index 0, the
    first frame, no scores, and the text as the reasoning. *)
Theorem no_json_falls_back p ps video_description w text blocks :
  Forall (fun f => f ∈ files w) (p :: ps) ->
  messages_create E (ReqFrames (p :: ps) video_description) = inr (text :: blocks) ->
  ~ (exists a b c, text = a ++ "{" ++ b ++ "}" ++ c) ->
  (analyze_frames E (p :: ps) video_description w).1
  = Ok (FrameAnalysis (VInt 0) p (VStr text) (VList []) text).
Proof.
  intros Hfs Hreply Hno. unfold analyze_frames.
  rewrite (find_missing_None _ _ Hfs). cbn [fst].
  unfold select, ask. rewrite Hreply. cbn [mbind result_bind].
  assert (list_getitem (text :: blocks) 0 = Ok text) as ->
    by exact (list_getitem_lookup (text :: blocks) 0 text eq_refl).
  cbn [mbind result_bind].
  rewrite (proj2 (search_braces_None text) Hno). cbn [mbind result_bind get assoc].
  cbn [String.eqb Ascii.eqb Bool.eqb default id]. cbn.
  unfold index. cbn [as_index].
  assert (list_getitem (p :: ps) 0 = Ok p) as ->
    by exact (list_getitem_lookup (p :: ps) 0 p eq_refl).
  reflexivity.
Qed.

Context (_encode_image : string -> result string).

Lemma list_getitem_in_range {A} (l : list A) (i : Z) :
  - Z.of_nat (length l) <= i < Z.of_nat (length l) ->
  exists x, list_getitem l i = Ok x.
Proof.
  intros Hi. unfold list_getitem. set (n := Z.of_nat (length l)) in *.
  set (j := if i <? 0 then n + i else i).
  assert (0 <= j < n) as Hj by (unfold j; destruct (Z.ltb_spec i 0); lia).
  destruct (Z.leb_spec 0 j); [| lia]. destruct (Z.ltb_spec j n); [| lia].
  cbn [andb].
  destruct (lookup_lt_is_Some_2 l (Z.to_nat j)) as [x ->]; [unfold n in Hj; lia |].
  by exists x.
Qed.

Lemma list_getitem_out_of_range {A} (l : list A) (i : Z) :
  ~ (- Z.of_nat (length l) <= i < Z.of_nat (length l)) ->
  list_getitem l i = raise IndexError "list index out of range".
Proof.
  intros Hi. destruct (list_getitem l i) as [x | e] eqn:Hg.
  - by apply list_getitem_Ok in Hg as [Hr _].
  - revert Hg. unfold list_getitem. destruct (_ && _); [| by intros [= <-]].
    destruct (_ !! _); [discriminate | by intros [= <-]].
Qed.

(** C2, as amended: the record [analyze_frames] returns has an integer
    index [i] (a boolean counting as 0 or 1) with [-n <= i < n] for [n]
    frames, and its path is [frame_paths[i]] as Python subscripts: from
    the end when [i] is negative. The index is the value [v] that the
    dictionary read from the reply holds under ["best_frame_index"] (0
    when it has none): the frames read and the reply parsed, an integer
    [v] in that range gives a record that holds [v], and any other [v]
    gives no record but a [RuntimeError]. *)
Theorem best_frame_is_subscript frame_paths video_description w :
  let n := Z.of_nat (length frame_paths) in
  let run := (Reading.analyze_frames E _encode_image frame_paths video_description w).1 in
  (forall r, run = Ok r ->
     exists i,
       as_index (best_frame_index r) = Some i /\
       - n <= i < n /\
       frame_paths !! Z.to_nat (if i <? 0 then n + i else i) = Some (best_frame_path r)) /\
  (forall content response_text analysis v,
     frame_paths <> [] ->
     Reading.images _encode_image frame_paths w = Ok content ->
     ask E (ReqFrames frame_paths video_description) = Ok response_text ->
     Reading.analysis_of E response_text = Ok analysis ->
     get analysis "best_frame_index" (VInt 0) = Ok v ->
     match as_index v with
     | Some i =>
         if decide (- n <= i < n)
         then exists r, run = Ok r /\ best_frame_index r = v
         else exists msg, run = Raise (Exn RuntimeError msg)
     | None => exists msg, run = Raise (Exn RuntimeError msg)
     end).
Proof.
  cbn zeta. split.
  - intros r. unfold Reading.analyze_frames.
    destruct frame_paths as [|p ps]; [by cbn |].
    destruct (Reading.images _ _ _); [| by cbn]. cbn [fst].
    intros H%guarded_Ok. revert H. unfold select.
    destruct (ask _) as [text | e]; cbn [mbind result_bind]; [| discriminate].
    destruct (match search_braces text with Some _ => _ | None => _ end)
      as [analysis | e]; cbn [mbind result_bind]; [| discriminate].
    destruct (get analysis "best_frame_index" _) as [best | e];
      cbn [mbind result_bind]; [| discriminate].
    destruct (index _ best) as [path | e] eqn:Hi; cbn [mbind result_bind];
      [| discriminate].
    destruct (get analysis "reasoning" _); cbn [mbind result_bind]; [| discriminate].
    destruct (get analysis "frames" _); cbn [mbind result_bind]; [| discriminate].
    intros [= <-]. cbn [best_frame_index best_frame_path].
    unfold index in Hi. destruct (as_index best) as [i |]; [| discriminate].
    exists i. split; [reflexivity |]. by apply list_getitem_Ok.
  - intros content response_text analysis v Hne Himg Hask Hparse Hget.
    unfold Reading.analyze_frames. rewrite Himg.
    destruct frame_paths as [| p ps]; [done |]. cbn [fst].
    unfold select. rewrite Hask. cbn [mbind result_bind].
    unfold Reading.analysis_of in Hparse. rewrite Hparse. cbn [mbind result_bind].
    rewrite Hget. cbn [mbind result_bind].
    destruct analysis; try discriminate.
    unfold index. destruct (as_index v) as [i |]; [| by eexists].
    destruct (decide _) as [Hin | Hout].
    + destruct (list_getitem_in_range (p :: ps) i Hin) as [x ->].
      cbn. by eexists.
    + rewrite (list_getitem_out_of_range (p :: ps) i Hout). by eexists.
Qed.
End Select.

Lemma no_json_falls_back_witness :
  (analyze_frames (env_of "" ffmpeg_ok silent) two_frames "a talk" w2).1
  = Ok (FrameAnalysis (VInt 0) "out/frame_0001.jpg" (VStr "no json here") (VList [])
          "no json here").
Proof.
  apply (no_json_falls_back (env_of "" ffmpeg_ok silent) "out/frame_0001.jpg"
           ["out/frame_0002.jpg"] "a talk" w2 "no json here" []).
  - repeat constructor; vm_compute; reflexivity.
  - reflexivity.
  - apply search_braces_None. reflexivity.
Defined.

(** C2 as stated fails: the model answers with index -1 for two frames;
    the record holds -1 and the last frame. *)
Lemma negative_index_is_returned :
  let E := env_of "" ffmpeg_ok
             (answering (Concrete.q "{'best_frame_index': -1, 'reasoning': 'the last one'}")) in
  exists r,
    (Reading.analyze_frames E Reading.readable two_frames "a talk" w2).1 = Ok r /\
    best_frame_index r = VInt (-1) /\
    best_frame_path r = "out/frame_0002.jpg" /\
    ~ (0 <= -1).
Proof. eexists. split; [vm_compute; reflexivity |]. cbn. repeat split. lia. Qed.

(** The amended C2 at two frames: the reply with index -1 gives the last
    frame, and the reply with index 2 a [RuntimeError]. *)
Lemma best_frame_is_subscript_witness :
  (exists i,
     as_index (VInt (-1)) = Some i /\
     - 2 <= i < 2 /\
     two_frames !! Z.to_nat (if i <? 0 then 2 + i else i) = Some "out/frame_0002.jpg") /\
  (exists msg,
     (Reading.analyze_frames
        (env_of "" ffmpeg_ok
           (answering (Concrete.q "{'best_frame_index': 2, 'reasoning': 'none'}")))
        Reading.readable two_frames "a talk" w2).1
     = Raise (Exn RuntimeError msg)).
Proof.
  split.
  - apply (proj1 (best_frame_is_subscript
             (env_of "" ffmpeg_ok
                (answering (Concrete.q "{'best_frame_index': -1, 'reasoning': 'the last one'}")))
             Reading.readable two_frames "a talk" w2)
             (FrameAnalysis (VInt (-1)) "out/frame_0002.jpg" (VStr "the last one") (VList [])
                (Concrete.q "{'best_frame_index': -1, 'reasoning': 'the last one'}"))).
    vm_compute. reflexivity.
  - exact (proj2 (best_frame_is_subscript
             (env_of "" ffmpeg_ok
                (answering (Concrete.q "{'best_frame_index': 2, 'reasoning': 'none'}")))
             Reading.readable two_frames "a talk" w2)
             [""; ""] (Concrete.q "{'best_frame_index': 2, 'reasoning': 'none'}")
             (VDict [("best_frame_index", VInt 2); ("reasoning", VStr "none")]) (VInt 2)
             ltac:(discriminate) ltac:(vm_compute; reflexivity)
             ltac:(vm_compute; reflexivity) ltac:(vm_compute; reflexivity)
             ltac:(vm_compute; reflexivity)).
Defined.

End SelectorProps.

(** ** The composer *)

Module ComposerProps.
Import Composer Scenario PyProps.

Section Wrap.
Context (E : env) (f : font) (max_width : Z) (all : list string).

Local Abbreviation fits_or_single := (Composer.fits_or_single E f max_width all).

Lemma single_word w : w ∈ all -> fits_or_single (join " " [w]).
Proof.
  intros Hw. cbn. unfold fits_or_single.
  destruct (Z.le_gt_cases (text_width E f w) max_width); [by left | by right].
Qed.

Lemma flush_ok lines current_line :
  Forall fits_or_single lines ->
  current_line = [] \/ fits_or_single (join " " current_line) ->
  Forall fits_or_single
    match current_line with
    | [] => lines
    | _ => (lines ++ [join " " current_line])%list
    end.
Proof.
  intros Hl [-> | Hc]; [done |]. destruct current_line; [done |].
  apply Forall_app. split; [done | by constructor].
Qed.

(** The loop keeps: every flushed line is fine, and so is the line being
    built unless it is empty. *)
Lemma wrap_loop_fits words : forall lines current_line,
  Forall (fun w => w ∈ all) words ->
  Forall fits_or_single lines ->
  current_line = [] \/ fits_or_single (join " " current_line) ->
  Forall fits_or_single (wrap_loop E f max_width words lines current_line).
Proof.
  induction words as [|word rest IH]; intros lines cur Hw Hl Hc; cbn [wrap_loop].
  - by apply flush_ok.
  - apply Forall_cons in Hw as [Hword Hrest]. cbn zeta.
    destruct (Z.leb_spec (text_width E f (join " " (cur ++ [word]))) max_width).
    + apply IH; [done | done |]. right. by left.
    + apply IH; [done | by apply flush_ok |]. right. by apply single_word.
Qed.
End Wrap.

(** C5: every line of [_wrap_text] measures at most [max_width], except a
    line that is a single word of the text wider than [max_width]. *)
Theorem wrapped_lines_fit E text f max_width lines :
  _wrap_text E text f max_width = Ok lines ->
  forall line, line ∈ lines ->
    text_width E f line <= max_width \/
    (exists words, words_of text = Ok words /\ line ∈ words /\
                   max_width < text_width E f line).
Proof.
  unfold _wrap_text. destruct (words_of text) as [words | e]; cbn; [| discriminate].
  intros [= <-] line Hline.
  assert (Forall (fits_or_single E f max_width words)
            (wrap_loop E f max_width words [] [])) as Hall.
  { apply wrap_loop_fits; [by apply Forall_forall | constructor | by left]. }
  rewrite Forall_forall in Hall. destruct (Hall line Hline) as [? | [? ?]]; eauto.
Qed.

Lemma wrapped_lines_fit_witness :
  text_width (env_of "" ffmpeg_ok silent) (Font (VInt 72) (VBool true))
    "Supercalifragilistic" <= 100 \/
  (exists words,
      words_of (VStr "Supercalifragilistic tips and tricks") = Ok words /\
      "Supercalifragilistic" ∈ words /\
      100 < text_width (env_of "" ffmpeg_ok silent) (Font (VInt 72) (VBool true))
              "Supercalifragilistic").
Proof.
  apply (wrapped_lines_fit (env_of "" ffmpeg_ok silent)
           (VStr "Supercalifragilistic tips and tricks") (Font (VInt 72) (VBool true)) 100
           ["Supercalifragilistic"; "tips and"; "tricks"]).
  - vm_compute. reflexivity.
  - apply list_elem_of_here.
Defined.

(** *** Ninety percent of the width *)

Lemma div_cross a b c d :
  0 < b -> 0 < d -> a * d = c * b -> a / b = c / d.
Proof.
  intros Hb Hd H.
  rewrite <- (Z.div_mul_cancel_r a b d) by lia.
  rewrite H, (Z.mul_comm b d).
  rewrite (Z.div_mul_cancel_r c d b) by lia. reflexivity.
Qed.

(** [int(width * 0.9)] is nine tenths of the width, rounded down. *)
Lemma max_width_of_spec width height :
  0 <= width -> max_width_of (width, height) = 9 * width / 10.
Proof.
  intros Hw. unfold max_width_of, trunc, tenths. cbn [fst].
  unfold Qcmult, Q2Qc. cbn [this].
  change (Qred (9 # 10)) with (9 # 10)%Q.
  change (this (Qc_of_Z width)) with (inject_Z width).
  set (q := (inject_Z width * (9 # 10))%Q).
  pose proof (Qred_correct q) as Hq. unfold Qeq in Hq.
  change (Qnum q) with (width * 9) in Hq. change (Qden q) with 10%positive in Hq.
  generalize dependent (Qred q). intros [x P] Hq. cbn [Qnum Qden] in *.
  assert (0 <= x) by nia.
  rewrite Z.quot_div_nonneg by lia.
  apply div_cross; lia.
Qed.

(** *** The style of one call *)

Ltac bind_ok :=
  repeat match goal with
         | |- mbind _ ?m = Ok _ -> _ =>
             let H := fresh "Hb" in
             destruct m eqn:H; cbn [mbind result_bind]; [| discriminate]
         end.

Section Compose.
Context (E : env).

(** The request carries the style and the resolution it was laid out
    for, and main lines wrapped at [max_width_of resolution]. *)
Lemma layout_req style image_path output_path main_text subtext resolution req :
  layout E style image_path output_path main_text subtext resolution = Ok req ->
  req_style req = style /\ req_resolution req = resolution /\
  exists size,
    style !! "font_size_main" = Some size /\
    _wrap_text E main_text (Font size (default (VBool false) (style !! "bold")))
      (max_width_of resolution) = Ok (req_main_lines req).
Proof.
  unfold layout. bind_ok. intros [= <-]. cbn. repeat split.
  unfold item in *. destruct (style !! "font_size_main") as [size |] eqn:Hs;
    [| discriminate].
  exists size. by simplify_eq.
Qed.

(** From [compose], the main lines fit in nine tenths of the target
    width, single words that are wider apart. *)
Lemma rendered_lines_fit style image_path output_path main_text subtext
    width height req :
  0 <= width ->
  layout E style image_path output_path main_text subtext (width, height) = Ok req ->
  exists f words,
    words_of main_text = Ok words /\
    Forall (fits_or_single E f (9 * width / 10) words) (req_main_lines req).
Proof.
  intros Hw (_ & _ & size & _ & Hwrap)%layout_req.
  rewrite max_width_of_spec in Hwrap by done. unfold _wrap_text in Hwrap.
  destruct (words_of main_text) as [words | e]; cbn in Hwrap; [| discriminate].
  injection Hwrap as <-. eexists _, words. split; [reflexivity |].
  apply wrap_loop_fits; [by apply Forall_forall | constructor | by left].
Qed.

(** The copy is a new object; the objects of the store stay as they
    are; the copy holds the override's value for the keys the override
    has, and the preset's for all the others. *)
Lemma copy_style_spec self custom_style h preset :
  h !! style self = Some preset ->
  exists a h1,
    copy_style self custom_style h = Ok (a, h1) /\
    h !! a = None /\
    (forall b d, h !! b = Some d -> h1 !! b = Some d) /\
    (forall k, default ∅ (h1 !! a) !! k
               = match default ∅ custom_style !! k with
                 | Some v => Some v
                 | None => preset !! k
                 end).
Proof.
  intros Hp. unfold copy_style. rewrite Hp.
  set (a := fresh (dom h)).
  assert (h !! a = None) as Ha by (apply not_elem_of_dom, is_fresh).
  assert (forall b d, h !! b = Some d -> b <> a) as Hne by (intros b d Hb ->; congruence).
  destruct custom_style as [c |]; [destruct (decide (c = ∅)) as [-> | Hc] |];
    eexists _, _; (split; [reflexivity |]); (split; [exact Ha |]); split.
  - intros b d Hb. rewrite lookup_insert_ne; [done | by apply not_eq_sym, (Hne b d)].
  - intros k. rewrite lookup_insert_eq. cbn. by rewrite lookup_empty.
  - intros b d Hb. rewrite !lookup_insert_ne; [done | |];
      by apply not_eq_sym, (Hne b d).
  - intros k. rewrite lookup_insert_eq. cbn. rewrite lookup_union.
    destruct (c !! k), (preset !! k); reflexivity.
  - intros b d Hb. rewrite lookup_insert_ne; [done | by apply not_eq_sym, (Hne b d)].
  - intros k. rewrite lookup_insert_eq. cbn. by rewrite lookup_empty.
Qed.

(** What a call of [compose] leaves behind: new events after the old
    ones, the store as it was or with the copy added, and a render
    request only for the layout of the copied style. *)
Lemma compose_spec self image_path main_text output_path subtext resolution
    custom_style h w r h' w' :
  compose E self image_path main_text output_path subtext resolution
    custom_style h w = (r, h', w') ->
  exists evs,
    trace w' = (trace w ++ evs)%list /\
    (h' = h \/ exists a, copy_style self custom_style h = Ok (a, h')) /\
    forall req, EvRender req ∈ evs ->
      exists a h1,
        copy_style self custom_style h = Ok (a, h1) /\
        layout E (default ∅ (h1 !! a)) image_path output_path main_text subtext
          resolution = Ok req.
Proof.
  unfold compose. destruct (decide _) as [_ | _].
  2: { intros [= _ <- <-]. exists []. rewrite app_nil_r.
       split; [done |]. split; [by left |]. by intros req ?%elem_of_nil. }
  assert (forall (e : exn) h0 w0 r0 h0' w0',
    fail e h0 w0 = (r0, h0', w0') -> h0' = h0 /\ w0' = w0) as Hfail.
  { intros e h0 w0 r0 h0' w0'. unfold fail.
    destruct (caught_by _ _); by intros [= _ <- <-]. }
  destruct (open_image E image_path resolution) as [msg |].
  { intros [-> ->]%Hfail. exists [EvOpenImage image_path].
    split; [done |]. split; [by left |].
    intros req Hin. apply list_elem_of_singleton in Hin. discriminate. }
  destruct (copy_style self custom_style h) as [[a h1] | e] eqn:Hcopy.
  2: { intros [-> ->]%Hfail. exists [EvOpenImage image_path].
       split; [done |]. split; [by left |].
       intros req Hin. apply list_elem_of_singleton in Hin. discriminate. }
  destruct (layout _ _ _ _ _ _ _) as [req |] eqn:Hlay.
  2: { intros [-> ->]%Hfail. exists [EvOpenImage image_path].
       split; [done |]. split; [right; by exists a |].
       intros req Hin. apply list_elem_of_singleton in Hin. discriminate. }
  assert (forall w0, trace w0 = (trace w ++ [EvOpenImage image_path; EvRender req])%list ->
    exists evs, trace w0 = (trace w ++ evs)%list /\
      (h1 = h \/ exists a0, Ok (a, h1) = Ok (a0, h1)) /\
      forall req0, EvRender req0 ∈ evs ->
        exists a0 h2, Ok (a, h1) = Ok (a0, h2) /\
          layout E (default ∅ (h2 !! a0)) image_path output_path main_text subtext
            resolution = Ok req0) as Hdone.
  { intros w0 Hw0. exists [EvOpenImage image_path; EvRender req].
    split; [done |]. split; [right; by exists a |].
    intros req0 Hin. apply elem_of_cons in Hin as [Hin | Hin]; [discriminate |].
    apply list_elem_of_singleton in Hin. injection Hin as ->. by exists a, h1. }
  destruct (render E req) as [msg |].
  - intros [-> ->]%Hfail. apply Hdone. cbn. by rewrite <- app_assoc.
  - intros [= _ <- <-]. apply Hdone. cbn. by rewrite <- app_assoc.
Qed.

(** A call that returns has opened the image and rendered once, at the
    resolution it was given. *)
Lemma compose_Ok self image_path main_text output_path subtext resolution
    custom_style h w out h' w' :
  compose E self image_path main_text output_path subtext resolution
    custom_style h w = (Ok out, h', w') ->
  exists req,
    trace w' = (trace w ++ [EvOpenImage image_path; EvRender req])%list /\
    req_resolution req = resolution.
Proof.
  assert (forall (e : exn) h0 w0, fail e h0 w0 <> (Ok out, h', w')) as Hfail.
  { intros e h0 w0. unfold fail. by destruct (caught_by _ _). }
  unfold compose. destruct (decide _) as [_ | _]; [| discriminate].
  destruct (open_image E image_path resolution) as [msg |]; [by intros ?%Hfail |].
  destruct (copy_style self custom_style h) as [[a h1] | e]; [| by intros ?%Hfail].
  destruct (layout _ _ _ _ _ _ _) as [req |] eqn:Hlay; [| by intros ?%Hfail].
  destruct (render E req) as [msg |]; [by intros ?%Hfail |].
  intros [= _ _ <-]. exists req. split.
  - cbn. by rewrite <- app_assoc.
  - by apply layout_req in Hlay as (_ & -> & _).
Qed.

(** Once the image is open, the store the call leaves holds the copy: a
    new object with the override's value for the keys the override has,
    and the preset's for all the others. *)
Lemma compose_effective_style self image_path main_text output_path subtext
    resolution c preset h w r h' w' :
  h !! style self = Some preset ->
  image_path ∈ files w -> open_image E image_path resolution = None ->
  compose E self image_path main_text output_path subtext resolution
    (Some c) h w = (r, h', w') ->
  exists a effective,
    h !! a = None /\ h' !! a = Some effective /\
    forall k, effective !! k
              = match c !! k with
                | Some v => Some v
                | None => preset !! k
                end.
Proof.
  intros Hp Hin Hopen. unfold compose.
  destruct (decide _) as [_ | Hout]; [| done]. rewrite Hopen.
  set (a := fresh (dom h)).
  assert (h !! a = None) as Ha by (apply not_elem_of_dom, is_fresh).
  assert (exists h1 effective,
    copy_style self (Some c) h = Ok (a, h1) /\ h1 !! a = Some effective /\
    forall k, effective !! k
              = match c !! k with
                | Some v => Some v
                | None => preset !! k
                end) as (h1 & effective & -> & Heff & Hmerge).
  { unfold copy_style. rewrite Hp. fold a.
    destruct (decide (c = ∅)) as [-> | Hc]; eexists _, _;
      (split; [reflexivity |]); (split; [apply lookup_insert_eq |]); intros k.
    - by rewrite lookup_empty.
    - rewrite lookup_union. destruct (c !! k), (preset !! k); reflexivity. }
  assert (forall (e : exn) w0, fail e h1 w0 = (r, h', w') -> h' = h1) as Hfail.
  { intros e w0. unfold fail. destruct (caught_by _ _); by intros [= _ <- _]. }
  intros Hrun. exists a, effective. split; [exact Ha |]. split; [| exact Hmerge].
  destruct (layout _ _ _ _ _ _ _) as [req | e];
    [| by rewrite (Hfail _ _ Hrun)].
  destruct (render E req) as [msg |]; [by rewrite (Hfail _ _ Hrun) |].
  by injection Hrun as _ <- _.
Qed.

(** C8: with an override [c] on a composer whose style is the preset
    [preset], every object of the store, the preset among them, is after
    the call what it was before; the style a render request of the call
    carries has, key by key, the value of [c] where [c] has the key and
    the value of the preset where it has not; once the image is open, the
    effective style is a new object of the store, with these values; and
    a call that returns has made one render request, with that style. *)
Theorem override_is_shallow self image_path main_text output_path subtext
    resolution c preset h w r h' w' :
  h !! style self = Some preset ->
  compose E self image_path main_text output_path subtext resolution
    (Some c) h w = (r, h', w') ->
  let merged := fun (d : gmap string value) =>
    forall k, d !! k = match c !! k with
                       | Some v => Some v
                       | None => preset !! k
                       end in
  (forall a d, h !! a = Some d -> h' !! a = Some d) /\
  h' !! style self = Some preset /\
  (forall req, EvRender req ∈ drop (length (trace w)) (trace w') ->
     merged (req_style req)) /\
  (image_path ∈ files w -> open_image E image_path resolution = None ->
   exists a effective,
     h !! a = None /\ h' !! a = Some effective /\ merged effective) /\
  (forall out, r = Ok out ->
   exists req,
     drop (length (trace w)) (trace w') = [EvOpenImage image_path; EvRender req] /\
     merged (req_style req)).
Proof.
  intros Hp Hrun merged.
  destruct (copy_style_spec self (Some c) h preset Hp)
    as (a & h1 & Hcopy & _ & Hkeep & Hmerge).
  pose proof Hrun as (evs & Htr & Hh & Hreq)%compose_spec.
  assert (forall b d, h !! b = Some d -> h' !! b = Some d) as Hframe.
  { destruct Hh as [-> | [a' Ha']]; [done |].
    rewrite Hcopy in Ha'. by injection Ha' as <- <-. }
  assert (forall req, EvRender req ∈ drop (length (trace w)) (trace w') ->
            merged (req_style req)) as Hstyle.
  { rewrite Htr, drop_app_length. intros req Hin k.
    destruct (Hreq req Hin) as (a' & h2 & Hc' & Hlay).
    rewrite Hcopy in Hc'. injection Hc' as <- <-.
    apply layout_req in Hlay as (-> & _). apply Hmerge. }
  split; [exact Hframe |]. split; [by apply Hframe |]. split; [exact Hstyle |].
  split.
  - intros Hin Hopen.
    exact (compose_effective_style _ _ _ _ _ _ _ _ _ _ _ _ _ Hp Hin Hopen Hrun).
  - intros out ->. destruct (compose_Ok _ _ _ _ _ _ _ _ _ _ _ _ Hrun) as (req & Hw' & _).
    exists req. assert (drop (length (trace w)) (trace w')
                        = [EvOpenImage image_path; EvRender req]) as Hd
      by (by rewrite Hw', drop_app_length).
    split; [exact Hd |]. apply Hstyle. rewrite Hd. repeat constructor.
Qed.
End Compose.

Lemma override_is_shallow_witness :
  let E := env_of "" ffmpeg_ok silent in
  let c : gmap string value := {["position" := VStr "top"]} in
  let bold := preset 120 50 (rgb 255 215 0) (rgb 0 0 0) 6 "center" (tenths 4) true true in
  let run := compose E (init "bold") "out/frame_0001.jpg" (VStr "PYTHON TIPS")
               "thumb.jpg" (VStr "2024") (1920, 1080) (Some c) presets w2 in
  let merged := fun (d : gmap string value) =>
    forall k, d !! k = match c !! k with
                       | Some v => Some v
                       | None => bold !! k
                       end in
  (forall a d, presets !! a = Some d -> run.1.2 !! a = Some d) /\
  run.1.2 !! style (init "bold") = Some bold /\
  (exists a effective,
     presets !! a = None /\ run.1.2 !! a = Some effective /\ merged effective) /\
  (exists req,
     drop (length (trace w2)) (trace run.2)
     = [EvOpenImage "out/frame_0001.jpg"; EvRender req] /\
     merged (req_style req)).
Proof.
  intros E c bold run merged.
  destruct (override_is_shallow E (init "bold") "out/frame_0001.jpg" (VStr "PYTHON TIPS")
              "thumb.jpg" (VStr "2024") (1920, 1080) c bold presets w2
              run.1.1 run.1.2 run.2) as (Hframe & Hpreset & _ & Heff & Hreq).
  - reflexivity.
  - subst run. by destruct (compose _ _ _ _ _ _ _ _ _ _) as [[r h'] w'].
  - split; [exact Hframe |]. split; [exact Hpreset |]. split.
    + apply Heff; vm_compute; reflexivity.
    + apply (Hreq "thumb.jpg"). vm_compute. reflexivity.
Defined.

End ComposerProps.

(** ** The pipeline *)

Module CliProps.
Import Video Cli Scenario PyProps.

Lemma renders_app t1 t2 : renders (t1 ++ t2) = (renders t1 ++ renders t2)%list.
Proof. unfold renders. apply omap_app. Qed.

(** [quiet w w']: nothing was rendered between [w] and [w']. *)
Lemma renders_emit ev w :
  (forall req, ev <> EvRender req) -> renders (trace (emit ev w)) = renders (trace w).
Proof.
  intros Hev. cbn. rewrite renders_app. destruct ev; cbn; rewrite ?app_nil_r; try done.
  by destruct (Hev req).
Qed.

Lemma get_metadata_renders E path w r w' :
  _get_metadata E path w = (r, w') -> renders (trace w') = renders (trace w).
Proof.
  unfold _get_metadata.
  destruct (parse_metadata _ _); [| repeat destruct (caught_by _ _)];
    intros [= _ <-]; by apply renders_emit.
Qed.


Lemma init_renders E path w r w' :
  Video.init E path w = (r, w') -> renders (trace w') = renders (trace w).
Proof.
  unfold Video.init. destruct (decide _) as [_ | _]; [| by intros [= _ <-]].
  destruct (_get_metadata E path w) as [[m | e] w1] eqn:Hm;
    intros [= _ <-]; by eapply get_metadata_renders.
Qed.

Lemma extract_loop_renders E video dir items acc w r w' :
  extract_loop E video dir items acc w = (r, w') ->
  renders (trace w') = renders (trace w).
Proof.
  revert acc w. induction items as [|[idx ts] items IH]; intros acc w; cbn.
  - by intros [= _ <-].
  - destruct (ffmpeg E _ _) as [[o | err] fs]; cbn.
    + intros H%IH. rewrite H. cbn. rewrite renders_app. cbn. by rewrite app_nil_r.
    + intros [= _ <-]. cbn. rewrite renders_app. cbn. by rewrite app_nil_r.
Qed.

Lemma extract_frames_renders E self n output_dir skip_start skip_end w r self' w' :
  extract_frames E self n output_dir skip_start skip_end w = (r, self', w') ->
  renders (trace w') = renders (trace w).
Proof.
  unfold extract_frames.
  assert (renders (trace (prepare E self output_dir w).2) = renders (trace w)) as Hp.
  { destruct output_dir; cbn; rewrite renders_app; cbn; by rewrite app_nil_r. }
  destruct (prepare E self output_dir w) as [[self1 dir] w1]. cbn [snd] in Hp.
  destruct (decide _); [by intros [= _ _ <-] |].
  destruct (timestamps _ _ _); [| by intros [= _ _ <-]].
  destruct (extract_loop _ _ _ _ _ _) as [[fs | e] w2] eqn:Hl.
  - apply extract_loop_renders in Hl. destruct fs; intros [= _ _ <-]; congruence.
  - apply extract_loop_renders in Hl.
    destruct (caught_by _ _); intros [= _ _ <-]; congruence.
Qed.



Section Pipeline.
Context (E : env).




(** C10: with a positive usable span, [extract_frames] for one frame
    raises [ZeroDivisionError], which is neither a [ValueError] nor a
    [RuntimeError], before any ffmpeg call; and [generate] with
    [--frames 1] on a video that probes well and lasts more than the four
    seconds skipped gets there: it ends in its handler for unexpected
    errors with that exception. *)
Theorem single_frame_divides_by_zero_from_the_cli :
  (forall self output_dir skip_start skip_end w,
     (Qc_of_Z 0 < duration (meta self) - skip_start - skip_end)%Qc ->
     let run := extract_frames E self 1 output_dir skip_start skip_end w in
     run.1.1 = Raise (Exn ZeroDivisionError "float division by zero") /\
     issubclass ZeroDivisionError ValueError = false /\
     issubclass ZeroDivisionError RuntimeError = false /\
     ffmpeg_calls (trace run.2) = ffmpeg_calls (trace w)) /\
  (forall video_path prompt output style resolution h w p w1,
     video_path ∈ files w -> style ∈ style_choices ->
     is_Some (res_map !! resolution) ->
     Video.init E video_path w = (Ok p, w1) ->
     (Qc_of_Z 0 < duration (meta p) - Qc_of_Z 2 - Qc_of_Z 2)%Qc ->
     (generate E video_path prompt output style resolution 1 h w).1.1
     = Unexpected (Exn ZeroDivisionError "float division by zero")).
Proof.
  split.
  - intros self output_dir skip_start skip_end w Hpos. cbn zeta.
    destruct (SamplerProps.single_frame_divides_by_zero E self output_dir
                skip_start skip_end w Hpos) as [Hr Hc].
    split; [exact Hr |]. split; [reflexivity |]. split; [reflexivity | exact Hc].
  - intros video_path prompt output style resolution h w p w1 Hv Hs [base Hb] Hi Hpos.
    unfold generate. destruct (decide _) as [_ | Hn]; [| by destruct Hn].
    rewrite Hb. unfold pipeline. rewrite Hi.
    destruct (SamplerProps.single_frame_divides_by_zero E p
                (Some (path_join (dirname
                   match output with
                   | Some o => if String.eqb o "" then "./output/thumbnail.jpg" else o
                   | None => "./output/thumbnail.jpg"
                   end) "frames_temp"))
                (Qc_of_Z 2) (Qc_of_Z 2) w1 Hpos) as [Hr _].
    destruct (extract_frames _ _ _ _ _ _ _) as [[r self2] w2].
    cbn [fst] in Hr. subst r. reflexivity.
Qed.
End Pipeline.

(** The portrait scenario of the specification: a 15-second 1080 by 1920
    source and ["720p"] give one render request, at 720 by 1280. *)
Lemma portrait_source_swaps_720p :
  let E := env_of (probe_of "30/1" "1080" "1920" "15.000000") ffmpeg_ok
             (answering (Concrete.q "{'best_frame_index': 1, 'reasoning': 'sharp'}")) in
  let run := generate E "v.mp4" "Python tips" None "youtube" "720p" 3
               Composer.presets w0 in
  run.1.1 = Done "./output/thumbnail.jpg" /\
  req_resolution <$> renders (trace run.2) = [(720, 1280)].
Proof. split; vm_compute; reflexivity. Qed.

Lemma single_frame_divides_by_zero_from_the_cli_witness :
  let E := env_of (probe_of "30/1" "1920" "1080" "30.000000") ffmpeg_ok silent in
  (generate E "v.mp4" "Python tips" None "youtube" "720p" 1 Composer.presets w0).1.1
  = Unexpected (Exn ZeroDivisionError "float division by zero").
Proof.
  intros E.
  apply (proj2 (single_frame_divides_by_zero_from_the_cli E) "v.mp4" "Python tips" None
           "youtube" "720p" Composer.presets w0
           match (Video.init E "v.mp4" w0).1 with Ok p => p | Raise _ => video 0 end
           (Video.init E "v.mp4" w0).2).
  - set_solver.
  - set_solver.
  - by eexists.
  - reflexivity.
  - vm_compute. reflexivity.
Defined.

End CliProps.
(** * Further properties *)


(** ** More on the prober *)

Module ProbeExtra.
Import Video Scenario Cases Text PyProps.

Lemma next_video_none items :
  Forall (fun s => exists sd ct,
            s = VDict sd /\ assoc "codec_type" sd = Some ct /\ ct <> VStr "video") items ->
  next_video items = Ok VNone.
Proof.
  induction 1 as [| s items (sd & ct & -> & Hct & Hne) _ IH]; cbn; [reflexivity |].
  rewrite Hct. cbn [mbind result_bind].
  assert (eq_str ct "video" = false) as ->; [| exact IH].
  destruct ct; try reflexivity. cbn. destruct (String.eqb_spec s "video"); congruence.
Qed.

(** X1: a report whose streams all have a codec type other than "video"
    (or that has no stream at all) is refused with a [RuntimeError] that
    says no video stream was found. *)
Theorem no_video_stream_is_refused E path w stdout d items :
  ffprobe E path = Exit0 stdout ->
  json_loads (rt E) stdout = Some (VDict d) ->
  assoc "streams" d = Some (VList items) ->
  Forall (fun s => exists sd ct,
            s = VDict sd /\ assoc "codec_type" sd = Some ct /\ ct <> VStr "video") items ->
  (_get_metadata E path w).1
  = Raise (Exn RuntimeError
             "Failed to parse video metadata: No video stream found in file").
Proof.
  intros Hp Hj Hs Hitems.
  unfold _get_metadata, parse_metadata, loads. rewrite Hp. cbn [check mbind result_bind].
  rewrite Hj. cbn [mbind result_bind getitem]. rewrite Hs. cbn [mbind result_bind iter].
  rewrite (next_video_none _ Hitems). reflexivity.
Qed.

Lemma no_video_stream_is_refused_witness :
  (_get_metadata (env_of audio_only ffmpeg_ok silent) "v.mp4" w0).1
  = Raise (Exn RuntimeError
             "Failed to parse video metadata: No video stream found in file").
Proof.
  apply (no_video_stream_is_refused (env_of audio_only ffmpeg_ok silent) "v.mp4" w0
           audio_only
           [("streams", VList [VDict [("codec_type", VStr "audio"); ("codec_name", VStr "aac")]]);
            ("format", VDict [("duration", VStr "30.000000"); ("bit_rate", VStr "128000")])]
           [VDict [("codec_type", VStr "audio"); ("codec_name", VStr "aac")]]).
  - reflexivity.
  - vm_compute. reflexivity.
  - reflexivity.
  - constructor; [| constructor]. eexists _, _. split; [reflexivity |].
    split; [reflexivity | discriminate].
Defined.

(** X2: none of the exceptions the [except] clauses name leaves
    [_get_metadata], and a failing ffprobe is reported as a
    [RuntimeError] that carries its diagnostic text. *)
Theorem probe_failures_are_wrapped E path w :
  (forall e, (_get_metadata E path w).1 = Raise e ->
     caught_by e [CalledProcessError; JSONDecodeError; KeyError; ValueError] = false) /\
  (forall stderr, ffprobe E path = ExitFail stderr ->
     (_get_metadata E path w).1 = Raise (Exn RuntimeError ("FFprobe failed: " ++ stderr))).
Proof.
  split.
  - intros e. unfold _get_metadata.
    destruct (parse_metadata E (ffprobe E path)) as [m | e0]; [discriminate |].
    destruct (caught_by e0 [CalledProcessError]) eqn:H1; [by intros [= <-] |].
    destruct (caught_by e0 [JSONDecodeError; KeyError; ValueError]) eqn:H2;
      [by intros [= <-] |].
    intros [= <-]. unfold caught_by in *. cbn [existsb] in *.
    destruct (issubclass (exn_cls e0) CalledProcessError); [discriminate | exact H2].
  - intros stderr Hp. unfold _get_metadata, parse_metadata. rewrite Hp. reflexivity.
Qed.

Lemma get_metadata_Ok E path w m :
  (_get_metadata E path w).1 = Ok m -> parse_metadata E (ffprobe E path) = Ok m.
Proof.
  unfold _get_metadata. destruct (parse_metadata _ _) as [m' | e]; [by intros [= ->] |].
  by repeat destruct (caught_by _ _).
Qed.

(** X3: when the record is returned, a key the report lacks is read with
    its default: bit rate 0, duration 0, width 0, height 0, codec
    "unknown". *)
Theorem absent_fields_take_defaults E path w stdout d items sd f m :
  ffprobe E path = Exit0 stdout ->
  json_loads (rt E) stdout = Some (VDict d) ->
  assoc "streams" d = Some (VList items) ->
  next_video items = Ok (VDict sd) ->
  assoc "format" d = Some (VDict f) ->
  (_get_metadata E path w).1 = Ok m ->
  (assoc "bit_rate" f = None -> bitrate m = 0) /\
  (assoc "duration" f = None -> duration m = Qc_of_Z 0) /\
  (assoc "width" sd = None -> width m = 0) /\
  (assoc "height" sd = None -> height m = 0) /\
  (assoc "codec_name" sd = None -> codec m = VStr "unknown").
Proof.
  intros Hp Hj Hs Hn Hf Hm. apply get_metadata_Ok in Hm. revert Hm.
  unfold parse_metadata, loads. rewrite Hp. cbn [check mbind result_bind].
  rewrite Hj. cbn [mbind result_bind getitem]. rewrite Hs, Hf.
  cbn [mbind result_bind iter]. rewrite Hn. cbn [mbind result_bind].
  destruct (truthy (VDict sd)); cbn [negb]; [| discriminate].
  cbn [get mbind result_bind].
  destruct (str_split _) as [parts | e]; cbn [mbind result_bind]; [| discriminate].
  destruct (list_getitem parts 0) as [p0 | e]; cbn [mbind result_bind]; [| discriminate].
  destruct (float (rt E) (VStr p0)) as [num | e]; cbn [mbind result_bind];
    [| discriminate].
  destruct (list_getitem parts 1) as [p1 | e]; cbn [mbind result_bind]; [| discriminate].
  destruct (float (rt E) (VStr p1)) as [den | e]; cbn [mbind result_bind];
    [| discriminate].
  destruct (truediv num den) as [rate | e]; cbn [mbind result_bind]; [| discriminate].
  destruct (float (rt E) (default (VInt 0) (assoc "duration" f))) as [dur | e] eqn:Hd;
    cbn [mbind result_bind]; [| discriminate].
  destruct (int (rt E) (default (VInt 0) (assoc "width" sd))) as [wd | e] eqn:Hw;
    cbn [mbind result_bind]; [| discriminate].
  destruct (int (rt E) (default (VInt 0) (assoc "height" sd))) as [ht | e] eqn:Hh;
    cbn [mbind result_bind]; [| discriminate].
  destruct (int (rt E) (default (VInt 0) (assoc "bit_rate" f))) as [br | e] eqn:Hb;
    cbn [mbind result_bind]; [| discriminate].
  intros [= <-]. cbn [bitrate duration width height codec].
  repeat split; intros Hnone; rewrite Hnone in *; cbn in *; congruence.
Qed.

Lemma absent_fields_take_defaults_witness :
  exists m,
    (_get_metadata (env_of no_bit_rate ffmpeg_ok silent) "v.mp4" w0).1 = Ok m /\
    bitrate m = 0.
Proof.
  eexists. split; [vm_compute; reflexivity |].
  refine (proj1 (absent_fields_take_defaults (env_of no_bit_rate ffmpeg_ok silent)
            "v.mp4" w0 no_bit_rate
            [("streams", VList [VDict [("codec_type", VStr "video"); ("codec_name", VStr "h264");
                                       ("r_frame_rate", VStr "25/1"); ("width", VInt 640);
                                       ("height", VInt 360)]]);
             ("format", VDict [("duration", VStr "12.5")])]
            [VDict [("codec_type", VStr "video"); ("codec_name", VStr "h264");
                    ("r_frame_rate", VStr "25/1"); ("width", VInt 640);
                    ("height", VInt 360)]]
            [("codec_type", VStr "video"); ("codec_name", VStr "h264");
             ("r_frame_rate", VStr "25/1"); ("width", VInt 640); ("height", VInt 360)]
            [("duration", VStr "12.5")] _ _ _ _ _ _ _) _);
    (reflexivity || (vm_compute; reflexivity)).
Defined.

Lemma split_no_sep sep s : occurs sep s = false -> split sep s = [s].
Proof.
  induction s as [| c s IH]; [reflexivity |]. cbn.
  destruct (Ascii.eqb c sep); [discriminate |]. intros H. by rewrite IH.
Qed.

(** X21: a frame rate written without a slash, as in "25", is not a
    probe error either: the missing denominator is an [IndexError], which
    no [except] clause of [_get_metadata] names, so it leaves the method
    as it is and not as a [RuntimeError]. *)
Theorem frame_rate_without_slash_escapes E path w stdout d items sd rate x :
  ffprobe E path = Exit0 stdout ->
  json_loads (rt E) stdout = Some (VDict d) ->
  assoc "streams" d = Some (VList items) ->
  next_video items = Ok (VDict sd) ->
  assoc "r_frame_rate" sd = Some (VStr rate) ->
  occurs "/" rate = false ->
  float_of_str (rt E) rate = Some x ->
  (_get_metadata E path w).1 = Raise (Exn IndexError "list index out of range") /\
  issubclass IndexError RuntimeError = false.
Proof.
  intros Hp Hj Hs Hn Hr Hrate Hx. split; [| reflexivity].
  unfold _get_metadata, parse_metadata, loads. rewrite Hp. cbn [check mbind result_bind].
  rewrite Hj. cbn [mbind result_bind getitem]. rewrite Hs. cbn [mbind result_bind iter].
  rewrite Hn. cbn [mbind result_bind].
  assert (truthy (VDict sd) = true) as ->.
  { destruct sd; [discriminate | reflexivity]. }
  cbn [negb get]. rewrite Hr. cbn [from_option id mbind result_bind str_split].
  rewrite split_no_sep by exact Hrate.
  assert (list_getitem [rate] 0 = Ok rate) as ->
    by exact (list_getitem_lookup [rate] 0 rate eq_refl).
  cbn [mbind result_bind float]. rewrite Hx. reflexivity.
Qed.

Lemma frame_rate_without_slash_escapes_witness :
  let E := env_of (probe_of "25" "1920" "1080" "30.000000") ffmpeg_ok silent in
  (_get_metadata E "v.mp4" w0).1 = Raise (Exn IndexError "list index out of range").
Proof.
  intros E.
  refine (proj1 (frame_rate_without_slash_escapes E "v.mp4" w0
            (probe_of "25" "1920" "1080" "30.000000")
            [("streams", VList [VDict [("codec_type", VStr "audio");
                                       ("codec_name", VStr "aac")];
                                VDict [("codec_type", VStr "video");
                                       ("codec_name", VStr "h264");
                                       ("r_frame_rate", VStr "25");
                                       ("width", VInt 1920); ("height", VInt 1080)]]);
             ("format", VDict [("duration", VStr "30.000000");
                               ("bit_rate", VStr "128000")])]
            [VDict [("codec_type", VStr "audio"); ("codec_name", VStr "aac")];
             VDict [("codec_type", VStr "video"); ("codec_name", VStr "h264");
                    ("r_frame_rate", VStr "25");
                    ("width", VInt 1920); ("height", VInt 1080)]]
            [("codec_type", VStr "video"); ("codec_name", VStr "h264");
             ("r_frame_rate", VStr "25"); ("width", VInt 1920); ("height", VInt 1080)]
            "25"
            match float_of_str (rt E) "25" with Some x => x | None => Qc_of_Z 0 end
            _ _ _ _ _ _ _));
    first [reflexivity | vm_compute; reflexivity].
Defined.


End ProbeExtra.

(** ** More on the sampler *)

Module SamplerExtra.
Import Video Scenario Cases PyProps StrOrder SamplerProps.

Section Extract.
Context (E : env).

(** X4: asked for no frame (zero or a negative number) over a positive
    usable span, [extract_frames] calls ffmpeg not once and raises the
    [RuntimeError] "No frames were extracted". *)
Theorem no_frame_requested self num_frames output_dir skip_start skip_end w :
  num_frames <= 0 ->
  (Qc_of_Z 0 < duration (meta self) - skip_start - skip_end)%Qc ->
  let run := extract_frames E self num_frames output_dir skip_start skip_end w in
  run.1.1 = Raise (Exn RuntimeError "No frames were extracted") /\
  ffmpeg_calls (trace run.2) = ffmpeg_calls (trace w).
Proof.
  intros Hn Hpos. cbn zeta. unfold extract_frames.
  destruct (prepare_spec E self output_dir w) as (self' & w1 & -> & -> & _ & Hc).
  destruct (decide _) as [Hle | _]; [by apply Qclt_not_le in Hpos |].
  rewrite timestamps_Ok by lia. replace (Z.to_nat num_frames) with 0%nat by lia.
  cbn. done.
Qed.

(** The loop stops at the first call that fails. *)
Lemma extract_loop_fails_fast video dir pre it post err : forall acc w,
  Forall (fun i => forall fs, exists o fs',
            ffmpeg E (cmd_of video dir i) fs = (Exit0 o, fs')) pre ->
  (forall fs, exists fs', ffmpeg E (cmd_of video dir it) fs = (ExitFail err, fs')) ->
  exists w',
    extract_loop E video dir (pre ++ it :: post) acc w
    = (Raise (Exn CalledProcessError err), w') /\
    ffmpeg_calls (trace w')
    = (ffmpeg_calls (trace w) ++ (cmd_of video dir <$> (pre ++ [it])))%list.
Proof.
  induction pre as [| [idx ts] pre IH]; intros acc w Hpre Hit.
  - destruct it as [idx ts]. cbn [app extract_loop].
    destruct (Hit (files w)) as [fs' Hf]. unfold cmd_of in Hf. cbn in Hf. rewrite Hf.
    cbn. eexists. split; [reflexivity |]. cbn. by rewrite ffmpeg_calls_app.
  - apply Forall_cons in Hpre as [Hhd Hpre]. cbn [app extract_loop].
    destruct (Hhd (files w)) as (o & fs' & Hf). unfold cmd_of in Hf. cbn in Hf.
    rewrite Hf. cbn [check].
    edestruct IH as (w' & -> & Hc); [exact Hpre | exact Hit |].
    exists w'. split; [reflexivity |]. rewrite Hc. cbn [trace].
    rewrite ffmpeg_calls_app. cbn. by rewrite <- app_assoc.
Qed.

(** X5: when the call for frame [k+1] is the first that ends with a
    failure status, [extract_frames] raises the [RuntimeError] "FFmpeg
    failed to extract frames: " followed by the tool's error output, and
    the calls for the later frames are not made. *)
Theorem first_failure_stops_extraction self count output_dir skip_start skip_end w
    (k : nat) err :
  let usable := (duration (meta self) - skip_start - skip_end)%Qc in
  let dir := dir_of E output_dir w in
  let cmd := fun i => FfmpegCmd (timestamp_at count skip_start usable i)
                        (video_path self) (frame_path dir (S i)) in
  let run := extract_frames E self count output_dir skip_start skip_end w in
  2 <= count -> (Qc_of_Z 0 < usable)%Qc -> (k < Z.to_nat count)%nat ->
  (forall i fs, (i < k)%nat -> exists o, (ffmpeg E (cmd i) fs).1 = Exit0 o) ->
  (forall fs, (ffmpeg E (cmd k) fs).1 = ExitFail err) ->
  run.1.1 = Raise (Exn RuntimeError ("FFmpeg failed to extract frames: " ++ err)) /\
  ffmpeg_calls (trace run.2)
  = (ffmpeg_calls (trace w) ++ (cmd <$> seq 0 (S k)))%list.
Proof.
  intros usable dir cmd run Hn Hpos Hk Hbefore Hfail. subst run.
  unfold extract_frames.
  destruct (prepare_spec E self output_dir w) as (self1 & w1 & -> & Hm & Hv & Hc).
  rewrite Hm, Hv. fold usable. fold dir.
  destruct (decide _) as [Hle | _]; [by apply Qclt_not_le in Hpos |].
  rewrite timestamps_Ok by lia. rewrite enumerate_fmap_seq.
  set (item := fun i : nat => (S i, timestamp_at count skip_start usable i)).
  assert (seq 0 (Z.to_nat count)
          = (seq 0 k ++ k :: seq (S k) (Z.to_nat count - S k))%list) as ->.
  { replace (Z.to_nat count) with (k + S (Z.to_nat count - S k))%nat at 1 by lia.
    by rewrite seq_app. }
  rewrite fmap_app, fmap_cons.
  edestruct (extract_loop_fails_fast (video_path self) dir (item <$> seq 0 k)
               (item k) (item <$> seq (S k) (Z.to_nat count - S k)) err [] w1)
    as (w' & -> & Hcalls).
  - apply Forall_fmap, Forall_forall. intros i [_ Hi]%elem_of_seq fs.
    destruct (Hbefore i fs ltac:(lia)) as [o Ho].
    exists o, (ffmpeg E (cmd i) fs).2. unfold cmd_of, item. cbn.
    fold (cmd i). rewrite <- Ho. by destruct (ffmpeg E (cmd i) fs).
  - intros fs. exists (ffmpeg E (cmd k) fs).2. unfold cmd_of, item. cbn.
    fold (cmd k). rewrite <- (Hfail fs). by destruct (ffmpeg E (cmd k) fs).
  - split; [reflexivity |].
    change (ffmpeg_calls (trace w')
            = (ffmpeg_calls (trace w) ++ (cmd <$> seq 0 (S k)))%list).
    rewrite Hcalls, Hc. f_equal.
    replace (S k) with (k + 1)%nat by lia.
    rewrite seq_app, !fmap_app, <- list_fmap_compose. reflexivity.
Qed.

(** X6: a call of [extract_frames] that returns was asked for two frames
    or more over a positive usable span; the list it returns is not
    empty, has at most [num_frames] paths, is in lexical order, and holds
    the paths of the frames kept, each a [frame_NNNN.jpg] of the output
    directory with a number from 1 to [num_frames]. *)
Theorem returned_frames self num_frames output_dir skip_start skip_end w
    paths self' w' :
  extract_frames E self num_frames output_dir skip_start skip_end w
  = (Ok paths, self', w') ->
  2 <= num_frames /\
  (Qc_of_Z 0 < duration (meta self) - skip_start - skip_end)%Qc /\
  paths <> [] /\
  (length paths <= Z.to_nat num_frames)%nat /\
  StronglySorted String.le paths /\
  exists idxs,
    idxs `sublist_of` seq 1 (Z.to_nat num_frames) /\
    paths ≡ₚ frame_path (dir_of E output_dir w) <$> idxs.
Proof.
  unfold extract_frames.
  destruct (prepare_spec E self output_dir w) as (self1 & w1 & -> & Hm & _ & _).
  rewrite Hm.
  destruct (decide _) as [_ | Hpos]; [discriminate |].
  apply Qcnot_le_lt in Hpos.
  destruct (timestamps _ _ _) as [ts | e] eqn:Hts; [| discriminate].
  pose proof (timestamps_length _ _ _ _ Hts) as Hlen.
  destruct (extract_loop _ _ _ _ _ _) as [[fs | e] w2] eqn:Hl;
    [| destruct (caught_by _ _); discriminate].
  apply extract_loop_order in Hl as (idxs & Hsub & ->).
  rewrite enumerate_fst, Hlen, app_nil_l in *.
  destruct (frame_path _ <$> idxs) as [| p ps] eqn:Hfs; [discriminate |].
  intros [= <- _ _].
  assert (sorted (p :: ps) ≡ₚ p :: ps) as Hperm by apply merge_sort_Permutation.
  assert (idxs <> []) as Hne by (intros ->; discriminate).
  assert (length idxs <= Z.to_nat num_frames)%nat as Hle.
  { apply sublist_length in Hsub. by rewrite length_seq in Hsub. }
  split.
  { destruct (decide (num_frames = 1)) as [-> | H1].
    - by rewrite timestamps_one in Hts.
    - destruct idxs; [done |]. cbn in Hle.
      destruct (decide (num_frames = 0)) as [-> | H0]; [cbn in Hle |]; lia. }
  split; [done |]. split.
  { intros Hnil. rewrite Hnil in Hperm. by apply Permutation_nil_l in Hperm. }
  split.
  { rewrite sorted_length, <- Hfs, length_fmap. exact Hle. }
  split; [apply sorted_Sorted |].
  exists idxs. by rewrite Hfs.
Qed.
End Extract.

Lemma first_failure_stops_extraction_witness :
  let E := env_of "" (ffmpeg_failing_at "out/frame_0002.jpg") silent in
  (extract_frames E (video 30) 3 (Some "out") (Qc_of_Z 2) (Qc_of_Z 2) w0).1.1
  = Raise (Exn RuntimeError "FFmpeg failed to extract frames: Invalid data found").
Proof.
  intros E.
  refine (proj1 (first_failure_stops_extraction E (video 30) 3 (Some "out")
                   (Qc_of_Z 2) (Qc_of_Z 2) w0 1 "Invalid data found" _ _ _ _ _)).
  - lia.
  - vm_compute. reflexivity.
  - cbn. lia.
  - intros i fs Hi. assert (i = 0%nat) as -> by lia. by exists "".
  - intros fs. reflexivity.
Defined.

Lemma no_frame_requested_witness :
  (extract_frames (env_of "" ffmpeg_ok silent) (video 30) 0 (Some "out")
     (Qc_of_Z 2) (Qc_of_Z 2) w0).1.1
  = Raise (Exn RuntimeError "No frames were extracted").
Proof.
  refine (proj1 (no_frame_requested (env_of "" ffmpeg_ok silent) (video 30) 0
                   (Some "out") (Qc_of_Z 2) (Qc_of_Z 2) w0 _ _)).
  - lia.
  - vm_compute. reflexivity.
Defined.

Lemma returned_frames_witness :
  let run := extract_frames (env_of "" ffmpeg_ok silent) (video 30) 3 (Some "out")
               (Qc_of_Z 2) (Qc_of_Z 2) w0 in
  exists paths, run.1.1 = Ok paths /\ paths <> [].
Proof.
  intros run.
  destruct run as [[r self'] w'] eqn:Hrun.
  assert (exists paths, r = Ok paths) as [paths ->].
  { apply (f_equal (fun x => x.1.1)) in Hrun. cbn [fst] in Hrun. rewrite <- Hrun.
    eexists. vm_compute. reflexivity. }
  exists paths. split; [reflexivity |].
  exact (proj1 (proj2 (proj2 (returned_frames _ _ _ _ _ _ _ _ _ _ Hrun)))).
Defined.

End SamplerExtra.

(** ** The temporary directory *)

Module LifecycleProps.
Import Video Lifecycle Scenario PyProps StrOrder SamplerProps.

Lemma prefix_app a b : String.prefix a (a ++ b) = true.
Proof.
  induction a as [| c a IH]; [by destruct b |].
  change (String.prefix (String c a) (String c (a ++ b)) = true). cbn.
  by destruct (Ascii.ascii_dec c c).
Qed.

Lemma init_Ok E path w p w1 :
  Video.init E path w = (Ok p, w1) ->
  temp_dir p = None /\ video_path p = path /\ files w1 = files w.
Proof.
  unfold Video.init, _get_metadata. destruct (decide _) as [_ | _]; [| discriminate].
  destruct (parse_metadata _ _) as [m | e].
  - by intros [= <- <-].
  - repeat destruct (caught_by _ _); discriminate.
Qed.

Lemma rmtree_spec dir fs x :
  x ∈ Cli.rmtree dir fs <-> x <> dir /\ String.prefix (dir ++ "/") x = false /\ x ∈ fs.
Proof. unfold Cli.rmtree. rewrite elem_of_filter. tauto. Qed.

Section Lifecycle.
Context (E : env).

(** With a tool that removes nothing, the files only grow along the
    loop, and the paths it keeps are there at its end. *)
Lemma extract_loop_files video dir items : forall acc w r w',
  keeps_files E ->
  extract_loop E video dir items acc w = (r, w') ->
  files w ⊆ files w' /\
  forall fs, r = Ok fs -> (forall x, x ∈ acc -> x ∈ files w) ->
    forall x, x ∈ fs -> x ∈ files w'.
Proof.
  induction items as [| [idx ts] items IH]; intros acc w r w' Hk; cbn [extract_loop].
  - intros [= <- <-]. split; [done |]. intros fs [= <-]. auto.
  - pose proof (Hk (FfmpegCmd ts video (frame_path dir idx)) (files w)) as Hsub.
    destruct (ffmpeg E _ (files w)) as [t fs1]. cbn [snd] in Hsub.
    destruct (check t) as [o | e].
    + intros Hl. apply IH in Hl as [Hmono Hkept]; [| exact Hk]. cbn [files] in *.
      split; [intros y Hy; apply Hmono, Hsub, Hy |].
      intros fs -> Hacc. apply Hkept; [done |].
      intros x. destruct (decide _) as [Hin | _]; [| intros Hx; apply Hsub, Hacc, Hx].
      intros [Hx | ->%list_elem_of_singleton]%elem_of_app; [| exact Hin].
      apply Hsub, Hacc, Hx.
    + intros [= <- <-]. cbn. split; [exact Hsub | discriminate].
Qed.

(** What a call leaves behind: the files it found, the temporary
    directory it made, and the paths it returns. *)
Lemma extract_frames_files self num_frames output_dir skip_start skip_end w
    r self' w' :
  keeps_files E ->
  extract_frames E self num_frames output_dir skip_start skip_end w = (r, self', w') ->
  temp_dir self'
  = match output_dir with None => Some (mkdtemp E (files w)) | Some _ => temp_dir self end /\
  dir_of E output_dir w ∈ files w' /\
  forall paths x, r = Ok paths -> x ∈ paths ->
    x ∈ files w' /\ exists i, x = frame_path (dir_of E output_dir w) i.
Proof.
  intros Hk. unfold extract_frames.
  set (d := dir_of E output_dir w).
  assert (exists self1 w1, prepare E self output_dir w = (self1, d, w1) /\
            temp_dir self1
            = match output_dir with
              | None => Some (mkdtemp E (files w)) | Some _ => temp_dir self
              end /\ d ∈ files w1) as (self1 & w1 & -> & Ht & Hd).
  { unfold prepare, d. destruct output_dir as [o |]; cbn;
      (eexists _, _; split; [reflexivity |]; split; [reflexivity |]; cbn; set_solver). }
  destruct (decide _) as [_ | _]; [by intros [= <- <- <-] |].
  destruct (timestamps _ _ _) as [ts | e]; [| by intros [= <- <- <-]].
  destruct (extract_loop _ _ _ _ _ _) as [[fs | e] w2] eqn:Hl.
  - pose proof Hl as [Hmono Hkept]%extract_loop_files; [| exact Hk].
    apply extract_loop_order in Hl as (idxs & _ & Hfs). rewrite app_nil_l in Hfs.
    destruct fs as [| f fs]; intros [= <- <- <-];
      (split; [exact Ht |]; split; [by apply Hmono |]); [discriminate |].
    intros paths x [= <-] Hx.
    assert (x ∈ f :: fs) as Hx'.
    { unfold sorted in Hx. by rewrite merge_sort_Permutation in Hx. }
    split.
    + eapply Hkept; [reflexivity | | exact Hx']. by intros ? ?%elem_of_nil.
    + rewrite Hfs in Hx'. apply list_elem_of_fmap in Hx' as (i & -> & _). by exists i.
  - apply extract_loop_files in Hl as [Hmono _]; [| exact Hk].
    destruct (caught_by _ _); intros [= <- <- <-];
      (split; [exact Ht |]; split; [by apply Hmono | discriminate]).
Qed.

(** X7: frames extracted without an output directory go to a temporary
    directory that ends with the [with] block: when the block is left,
    whether the extraction returned or raised, the directory is gone, and
    so is every path the extraction returned. The tool is taken to
    remove no file and [mkdtemp] to name a directory. *)
Theorem temporary_frames_end_with_the_block path num_frames skip_start skip_end w p w1 :
  keeps_files E ->
  (forall fs, names_a_directory (mkdtemp E fs)) ->
  Video.init E path w = (Ok p, w1) ->
  let run := with_processor E path
               (fun p w => extract_frames E p num_frames None skip_start skip_end w) w in
  (mkdtemp E (files w) ∉ files run.2) /\
  forall paths x, run.1 = Ok paths -> x ∈ paths -> x ∉ files run.2.
Proof.
  intros Hk Hname Hi run. subst run. unfold with_processor. rewrite Hi.
  apply init_Ok in Hi as (_ & _ & Hf).
  destruct (extract_frames _ _ _ _ _ _ _) as [[r p'] w2] eqn:He.
  apply extract_frames_files in He as (Ht & Hd & Hpaths); [| exact Hk].
  cbn [dir_of] in Hd, Hpaths. rewrite Hf in *.
  set (d := mkdtemp E (files w)) in *.
  destruct (Hname (files w)) as [Hne Hpre]. fold d in Hne, Hpre.
  unfold cleanup. rewrite Ht.
  assert (String.eqb d "" = false) as -> by by apply String.eqb_neq.
  rewrite bool_decide_eq_true_2 by exact Hd. cbn.
  split.
  - rewrite rmtree_spec. tauto.
  - intros paths x -> Hx. destruct (Hpaths _ _ eq_refl Hx) as (_ & i & ->).
    rewrite rmtree_spec. unfold frame_path. rewrite path_join_prefix, Hpre.
    rewrite prefix_app. intros (_ & ? & _). discriminate.
Qed.

(** X8: frames extracted to a directory the caller names stay when the
    [with] block is left: leaving the block removes nothing and adds no
    event, and every path the extraction returned is still a file. The
    tool is taken to remove no file. *)
Theorem named_directory_outlives_the_block path num_frames dir skip_start skip_end
    w p w1 :
  keeps_files E ->
  Video.init E path w = (Ok p, w1) ->
  let body := extract_frames E p num_frames (Some dir) skip_start skip_end w1 in
  let run := with_processor E path
               (fun p w => extract_frames E p num_frames (Some dir) skip_start skip_end w)
               w in
  run = (body.1.1, body.2) /\
  forall paths x, run.1 = Ok paths -> x ∈ paths -> x ∈ files run.2.
Proof.
  intros Hk Hi body run. subst body run. unfold with_processor. rewrite Hi.
  apply init_Ok in Hi as (Hnone & _ & _).
  destruct (extract_frames _ _ _ _ _ _ _) as [[r p'] w2] eqn:He.
  apply extract_frames_files in He as (Ht & _ & Hpaths); [| exact Hk].
  unfold cleanup. rewrite Ht, Hnone. cbn. split; [reflexivity |].
  intros paths x -> Hx. by destruct (Hpaths _ _ eq_refl Hx).
Qed.
End Lifecycle.

Lemma ffmpeg_ok_keeps_files probe reply : keeps_files (env_of probe ffmpeg_ok reply).
Proof. intros cmd fs. cbn. set_solver. Qed.

Lemma temporary_frames_end_with_the_block_witness :
  let E := env_of (probe_of "30/1" "1920" "1080" "30.000000") ffmpeg_ok silent in
  "/tmp/autothumb_0"
  ∉ files (with_processor E "v.mp4"
             (fun p w => extract_frames E p 3 None (Qc_of_Z 2) (Qc_of_Z 2) w) w0).2.
Proof.
  intros E.
  refine (proj1 (temporary_frames_end_with_the_block E "v.mp4" 3 (Qc_of_Z 2) (Qc_of_Z 2) w0
                   match (Video.init E "v.mp4" w0).1 with Ok p => p | Raise _ => video 0 end
                   (Video.init E "v.mp4" w0).2 _ _ _)).
  - apply ffmpeg_ok_keeps_files.
  - intros fs. split; [discriminate | reflexivity].
  - reflexivity.
Defined.

Lemma named_directory_outlives_the_block_witness :
  let E := env_of (probe_of "30/1" "1920" "1080" "30.000000") ffmpeg_ok silent in
  let run := with_processor E "v.mp4"
               (fun p w => extract_frames E p 3 (Some "out") (Qc_of_Z 2) (Qc_of_Z 2) w)
               w0 in
  exists paths, run.1 = Ok paths /\ Forall (fun x => x ∈ files run.2) paths.
Proof.
  intros E run.
  assert (exists paths, run.1 = Ok paths) as [paths Hp]
    by (eexists; vm_compute; reflexivity).
  exists paths. split; [exact Hp |]. apply Forall_forall. intros x Hx.
  refine (proj2 (named_directory_outlives_the_block E "v.mp4" 3 "out" (Qc_of_Z 2)
                   (Qc_of_Z 2) w0
                   match (Video.init E "v.mp4" w0).1 with Ok p => p | Raise _ => video 0 end
                   (Video.init E "v.mp4" w0).2 _ _) paths x Hp Hx).
  - apply ffmpeg_ok_keeps_files.
  - reflexivity.
Defined.

End LifecycleProps.

(** ** More on the selector *)

Module SelectorExtra.
Import Analyzer Scenario Text PyProps StrOrder SelectorProps.

Lemma after_open_skip pre rest :
  occurs "{" pre = false -> after_open (pre ++ String "{" rest) = Some rest.
Proof.
  induction pre as [| c pre IH]; [reflexivity |].
  rewrite append_cons. cbn. destruct (Ascii.eqb c "{"); [discriminate | exact IH].
Qed.

Lemma upto_last_close_none post :
  occurs "}" post = false -> upto_last_close post = None.
Proof.
  induction post as [| c post IH]; [reflexivity |]. cbn.
  destruct (Ascii.eqb c "}"); [discriminate |]. intros H. by rewrite IH.
Qed.

Lemma upto_last_close_last mid post :
  occurs "}" post = false ->
  upto_last_close (mid ++ String "}" post) = Some (mid ++ "}").
Proof.
  intros Hpost. induction mid as [| c mid IH].
  - change (upto_last_close (String "}" post) = Some "}"). cbn.
    by rewrite upto_last_close_none.
  - rewrite !append_cons. cbn. by rewrite IH.
Qed.

(** The regular expression is greedy: the match runs from the first
    opening brace to the last closing one. *)
Lemma search_braces_greedy pre mid post :
  occurs "{" pre = false -> occurs "}" post = false ->
  search_braces (pre ++ "{" ++ mid ++ "}" ++ post) = Some ("{" ++ mid ++ "}").
Proof.
  intros Hpre Hpost. unfold search_braces.
  change (pre ++ "{" ++ mid ++ "}" ++ post)
    with (pre ++ String "{" (mid ++ String "}" post)).
  rewrite after_open_skip by exact Hpre. cbn.
  by rewrite upto_last_close_last.
Qed.

Lemma substring_split s (n : nat) :
  s = substring 0 n s ++ substring n (String.length s - n) s.
Proof.
  revert n. induction s as [| c s IH]; intros [| n]; try reflexivity.
  - cbn [substring String.length Nat.sub]. change ("" ++ ?x) with x.
    clear IH. f_equal. induction s as [| d s IH]; [reflexivity |].
    cbn. by rewrite <- IH.
  - cbn [substring String.length]. rewrite append_cons. f_equal. apply IH.
Qed.

Lemma substring_length s (n : nat) :
  String.length (substring 0 n s) = Nat.min n (String.length s).
Proof.
  revert n. induction s as [| c s IH]; intros [| n]; try reflexivity.
  cbn. by rewrite IH.
Qed.

Section Selector.
Context (E : env).

(** What [select] raises, an [except Exception] clause catches. *)
Lemma select_raises_Exception frame_paths video_description e :
  select E frame_paths video_description = Raise e ->
  caught_by e [APIError] = true \/ caught_by e [Exception] = true.
Proof.
  unfold select, ask.
  destruct (messages_create E _) as [msg | blocks]; cbn [mbind result_bind].
  { intros [= <-]. by left. }
  destruct blocks as [| text blocks].
  { intros [= <-]. by right. }
  assert (list_getitem (text :: blocks) 0 = Ok text) as ->
    by exact (list_getitem_lookup (text :: blocks) 0 text eq_refl).
  cbn [mbind result_bind].
  assert (forall analysis : value,
    (best_index ← get analysis "best_frame_index" (VInt 0);
     path ← index frame_paths best_index;
     reasoning ← get analysis "reasoning" (VStr "");
     scores ← get analysis "frames" (VList []);
     Ok (FrameAnalysis best_index path reasoning scores text)) = Raise e ->
    caught_by e [APIError] = true \/ caught_by e [Exception] = true) as Hrest.
  { intros analysis. destruct analysis; try (intros [= <-]; by right).
    cbn [get mbind result_bind]. unfold index.
    destruct (as_index _) as [i |]; [| intros [= <-]; by right].
    unfold list_getitem. destruct (_ && _); [| intros [= <-]; by right].
    destruct (_ !! _); [discriminate | intros [= <-]; by right]. }
  destruct (search_braces text) as [json_match |].
  - unfold loads. destruct (json_loads _ _) as [analysis |].
    + apply Hrest.
    + intros [= <-]. by right.
  - apply Hrest.
Qed.

Context (_encode_image : string -> result string).

(** The loop over the frames ends at the first frame that is missing or
    that cannot be read. *)
Lemma images_Raise frame_paths w e :
  Reading.images _encode_image frame_paths w = Raise e ->
  exists before p after,
    frame_paths = (before ++ p :: after)%list /\
    Forall (fun f => f ∈ files w /\ exists data, _encode_image f = Ok data) before /\
    (((p ∉ files w) /\ e = Exn FileNotFoundError ("Frame not found: " ++ p)) \/
     (p ∈ files w /\ _encode_image p = Raise e)).
Proof.
  induction frame_paths as [| f fs IH]; [discriminate |]. cbn [Reading.images].
  destruct (bool_decide (f ∈ files w)) eqn:Hf.
  - apply bool_decide_eq_true in Hf.
    destruct (_encode_image f) as [data | e0] eqn:Hread; cbn [mbind result_bind].
    + destruct (Reading.images _ fs w) as [content | e0] eqn:Hrest;
        cbn [mbind result_bind]; [discriminate |].
      intros [= ->]. destruct (IH eq_refl) as (before & p & after & -> & Hb & Hp).
      exists (f :: before), p, after. split; [reflexivity |]. split; [| exact Hp].
      constructor; [| exact Hb]. split; [exact Hf | by exists data].
    + intros [= ->]. exists [], f, fs. split; [reflexivity |]. split; [constructor |].
      right. by split.
  - apply bool_decide_eq_false in Hf. intros [= <-]. exists [], f, fs.
    split; [reflexivity |]. split; [constructor |]. left. by split.
Qed.

Lemma images_Ok frame_paths w content :
  Reading.images _encode_image frame_paths w = Ok content ->
  Forall (fun f => f ∈ files w /\ exists data, _encode_image f = Ok data) frame_paths.
Proof.
  revert content. induction frame_paths as [| f fs IH]; intros content; [constructor |].
  cbn [Reading.images]. destruct (bool_decide (f ∈ files w)) eqn:Hf; [| discriminate].
  apply bool_decide_eq_true in Hf.
  destruct (_encode_image f) as [data | e0] eqn:Hread; cbn [mbind result_bind];
    [| discriminate].
  destruct (Reading.images _ fs w) as [rest | e0] eqn:Hrest; cbn [mbind result_bind];
    [| discriminate].
  intros _. constructor; [| by eapply IH]. split; [exact Hf | by exists data].
Qed.

(** When every frame can be read, the reading changes nothing. *)
Lemma reading_succeeds frame_paths video_description w :
  (forall f, exists data, _encode_image f = Ok data) ->
  Reading.analyze_frames E _encode_image frame_paths video_description w
  = analyze_frames E frame_paths video_description w.
Proof.
  intros Hread. unfold Reading.analyze_frames, analyze_frames.
  destruct frame_paths as [| p ps]; [reflexivity |].
  generalize (p :: ps). intros l.
  assert (match Reading.images _encode_image l w with
          | Ok _ => List.find (fun p => negb (bool_decide (p ∈ files w))) l = None
          | Raise e =>
              exists f, List.find (fun p => negb (bool_decide (p ∈ files w))) l = Some f /\
                        e = Exn FileNotFoundError ("Frame not found: " ++ f)
          end) as H.
  { induction l as [| f fs IH]; [reflexivity |]. cbn [Reading.images List.find].
    destruct (bool_decide (f ∈ files w)); cbn [negb]; [| by exists f].
    destruct (Hread f) as [data ->]. cbn [mbind result_bind].
    destruct (Reading.images _ fs w); cbn [mbind result_bind]; exact IH. }
  destruct (Reading.images _ l w) as [content | e].
  - by rewrite H.
  - destruct H as (f & -> & ->). reflexivity.
Qed.

(** X9: [analyze_frames] fails in four ways only. With no frame it
    raises [ValueError]. At the first frame that is missing, the frames
    before it read, it raises [FileNotFoundError]; at the first frame that
    is there and cannot be read, it raises what the reading raises. In
    these cases no request is sent. Otherwise it sends exactly one
    request, and whatever goes wrong from there on (the API, the reply,
    the JSON, the index) comes out as a [RuntimeError]. *)
Theorem analyze_frames_fails_four_ways frame_paths video_description w e :
  let run := Reading.analyze_frames E _encode_image frame_paths video_description w in
  let read := fun f => f ∈ files w /\ exists data, _encode_image f = Ok data in
  run.1 = Raise e ->
  (frame_paths = [] /\ e = Exn ValueError "No frames provided for analysis" /\
   run.2 = w) \/
  (exists before p after,
     frame_paths = (before ++ p :: after)%list /\ Forall read before /\
     (((p ∉ files w) /\ e = Exn FileNotFoundError ("Frame not found: " ++ p)) \/
      (p ∈ files w /\ _encode_image p = Raise e)) /\
     run.2 = w) \/
  (frame_paths <> [] /\ Forall read frame_paths /\
   exn_cls e = RuntimeError /\
   run.2 = emit (EvMessages (ReqFrames frame_paths video_description)) w).
Proof.
  cbn zeta. unfold Reading.analyze_frames.
  destruct frame_paths as [| f fs]; [intros [= <-]; by left |].
  destruct (Reading.images _ _ _) as [content | e0] eqn:Himg.
  - intros Hg. right. right. split; [discriminate |].
    split; [by eapply images_Ok |].
    split; [| reflexivity]. cbn [fst] in Hg. unfold guarded in Hg.
    destruct (select E _ _) as [r | e1] eqn:Hs; [discriminate |].
    destruct (select_raises_Exception _ _ _ Hs) as [Ha | Hx].
    + rewrite Ha in Hg. by injection Hg as <-.
    + destruct (caught_by e1 [APIError]); [by injection Hg as <- |].
      rewrite Hx in Hg. by injection Hg as <-.
  - intros [= ->]. right. left.
    destruct (images_Raise _ _ _ Himg) as (before & p & after & Heq & Hb & Hp).
    by exists before, p, after.
Qed.

(** X10: when the reply to the text request holds one JSON object with
    prose around it (no opening brace before it and no closing brace
    after it), [generate_thumbnail_text] returns what [json.loads] makes
    of the object alone, with no look at its keys; an object that does
    not parse gives a [RuntimeError] whose text starts with
    ["Failed to generate text: "]. *)
Theorem text_reply_is_the_object video_description style max_words w
    pre mid post blocks :
  messages_create E (ReqText video_description style max_words)
  = inr ((pre ++ "{" ++ mid ++ "}" ++ post) :: blocks) ->
  occurs "{" pre = false -> occurs "}" post = false ->
  let run := generate_thumbnail_text E video_description style max_words w in
  match json_loads (rt E) ("{" ++ mid ++ "}") with
  | Some v => run.1 = Ok v
  | None => exists msg, run.1 = Raise (Exn RuntimeError ("Failed to generate text: " ++ msg))
  end.
Proof.
  intros Hreply Hpre Hpost. unfold generate_thumbnail_text, ask. cbn [fst].
  rewrite Hreply. cbn [mbind result_bind list_getitem].
  assert (list_getitem ((pre ++ "{" ++ mid ++ "}" ++ post) :: blocks) 0
          = Ok (pre ++ "{" ++ mid ++ "}" ++ post)) as ->
    by exact (list_getitem_lookup (_ :: blocks) 0 _ eq_refl).
  cbn [mbind result_bind]. rewrite search_braces_greedy by done.
  unfold loads. destruct (json_loads _ _); [reflexivity |]. by eexists.
Qed.

(** X11: when the reply to the text request has no JSON object, the main
    text is the description cut after [7 * max_words] characters (for
    [max_words >= 0]): a prefix of the description of that length, or the
    whole of a shorter description. The cut counts characters, not
    words. *)
Theorem fallback_text_is_a_prefix video_description style max_words w text blocks :
  0 <= max_words ->
  messages_create E (ReqText video_description style max_words) = inr (text :: blocks) ->
  search_braces text = None ->
  exists main rest,
    (generate_thumbnail_text E video_description style max_words w).1
    = Ok (VDict [("main_text", VStr main); ("subtext", VStr "");
                 ("reasoning", VStr "Fallback text generation")]) /\
    video_description = main ++ rest /\
    Z.of_nat (String.length main)
    = Z.min (7 * max_words) (Z.of_nat (String.length video_description)).
Proof.
  intros Hmax Hreply Hnone. unfold generate_thumbnail_text, ask. cbn [fst].
  rewrite Hreply. cbn [mbind result_bind].
  assert (list_getitem (text :: blocks) 0 = Ok text) as ->
    by exact (list_getitem_lookup (text :: blocks) 0 text eq_refl).
  cbn [mbind result_bind]. rewrite Hnone. unfold slice_to.
  assert ((max_words * 7 <? 0) = false) as -> by lia.
  eexists _, _. split; [reflexivity |]. split; [apply substring_split |].
  rewrite substring_length. lia.
Qed.

(** X12: [analyze_and_generate] asks about the frames first and about
    the text second. When the frame analysis fails its error is the
    result and the text request is not sent; when both succeed the two
    requests are the only events, in that order. No file is touched. *)
Theorem analysis_then_text frame_paths video_description style max_words w :
  let run := analyze_and_generate E frame_paths video_description style max_words w in
  let frames := EvMessages (ReqFrames frame_paths video_description) in
  let text := EvMessages (ReqText video_description style max_words) in
  files run.2 = files w /\
  (forall e, (analyze_frames E frame_paths video_description w).1 = Raise e ->
     run.1 = Raise e /\ (trace run.2 = trace w \/ trace run.2 = (trace w ++ [frames])%list)) /\
  (forall r, run.1 = Ok r -> trace run.2 = (trace w ++ [frames; text])%list).
Proof.
  cbn zeta. unfold analyze_and_generate.
  destruct (analyze_frames E frame_paths video_description w) as [[fa | e] w1] eqn:Ha.
  - assert (w1 = emit (EvMessages (ReqFrames frame_paths video_description)) w) as ->.
    { revert Ha. unfold analyze_frames. destruct frame_paths; [discriminate |].
      destruct (List.find _ _); [discriminate |]. by intros [= _ <-]. }
    unfold generate_thumbnail_text.
    destruct (guarded _ _) as [t | e]; cbn.
    + split; [reflexivity |]. split; [discriminate |]. intros _ _.
      by rewrite <- app_assoc.
    + split; [reflexivity |]. split; discriminate.
  - cbn. split.
    + revert Ha. unfold analyze_frames. destruct frame_paths; [by intros [= _ <-] |].
      destruct (List.find _ _); by intros [= _ <-].
    + split; [| discriminate]. intros e' [= <-]. split; [reflexivity |].
      revert Ha. unfold analyze_frames. destruct frame_paths; [intros [= _ <-]; by left |].
      destruct (List.find _ _); intros [= _ <-]; [by left | by right].
Qed.
End Selector.

Lemma analyze_frames_fails_four_ways_witness :
  let E := env_of "" ffmpeg_ok (answering (Concrete.q "{'best_frame_index': 5}")) in
  let run := Reading.analyze_frames E Reading.first_is_a_directory two_frames "a talk" w2 in
  exists e p,
    run.1 = Raise e /\ exn_cls e = OSError /\ p ∈ files w2 /\
    Reading.first_is_a_directory p = Raise e /\ run.2 = w2.
Proof.
  intros E run.
  exists (Exn OSError "[Errno 21] Is a directory: 'out/frame_0001.jpg'").
  assert (run.1 = Raise (Exn OSError "[Errno 21] Is a directory: 'out/frame_0001.jpg'"))
    as Hrun by (vm_compute; reflexivity).
  destruct (analyze_frames_fails_four_ways E Reading.first_is_a_directory two_frames
              "a talk" w2 _ Hrun)
    as [(Hnil & _) | [(before & p & after & _ & _ & [[_ He] | [Hp Hread]] & Hw) |
                      (_ & _ & Hcls & _)]].
  - discriminate.
  - discriminate.
  - exists p. split; [exact Hrun |]. split; [reflexivity |]. by repeat split.
  - discriminate.
Defined.

Lemma text_reply_is_the_object_witness :
  (generate_thumbnail_text (env_of "" ffmpeg_ok Cases.chatty) "Python tips" "youtube" 6
     w0).1
  = Ok (VDict [("main_text", VStr "PYTHON TIPS")]).
Proof.
  pose proof (text_reply_is_the_object (env_of "" ffmpeg_ok Cases.chatty) "Python tips"
                "youtube" 6 w0 "Here you go: " (Concrete.q "'main_text': 'PYTHON TIPS'")
                " Enjoy" [] eq_refl eq_refl eq_refl) as H.
  vm_compute in H. vm_compute. exact H.
Defined.

Lemma fallback_text_is_a_prefix_witness :
  exists main rest,
    (generate_thumbnail_text (env_of "" ffmpeg_ok silent)
       "Ten tips for writing Python" "youtube" 2 w0).1
    = Ok (VDict [("main_text", VStr main); ("subtext", VStr "");
                 ("reasoning", VStr "Fallback text generation")]) /\
    "Ten tips for writing Python" = main ++ rest /\
    Z.of_nat (String.length main)
    = Z.min (7 * 2) (Z.of_nat (String.length "Ten tips for writing Python")).
Proof.
  apply (fallback_text_is_a_prefix (env_of "" ffmpeg_ok silent)
           "Ten tips for writing Python" "youtube" 2 w0 "no json here" []).
  - lia.
  - reflexivity.
  - vm_compute. reflexivity.
Defined.

End SelectorExtra.

(** ** More on the composer *)

Module ComposerExtra.
Import Composer Scenario PyProps StrOrder ComposerProps.

Lemma nonempty_groups {A} (groups : list (list A)) :
  Forall (fun g => g <> []) groups -> (length groups <= length (concat groups))%nat.
Proof.
  induction 1 as [| g groups Hg _ IH]; [done |]. cbn. rewrite length_app.
  destruct g; [done |]. cbn. lia.
Qed.

Section Compose.
Context (E : env).

(** The loop of [_wrap_text] cuts the words into groups and joins each
    group with a space. *)
Lemma wrap_loop_groups f max_width words : forall lines current_line,
  exists groups,
    Forall (fun g => g <> []) groups /\
    concat groups = (current_line ++ words)%list /\
    wrap_loop E f max_width words lines current_line
    = (lines ++ (join " " <$> groups))%list.
Proof.
  induction words as [| word rest IH]; intros lines current_line; cbn [wrap_loop].
  - destruct current_line as [| c cs].
    + exists []. split; [constructor |]. split; [reflexivity |].
      cbn. by rewrite app_nil_r.
    + exists [c :: cs]. split; [by repeat constructor |].
      split; [cbn; by rewrite !app_nil_r | reflexivity].
  - destruct (_ <=? _).
    + destruct (IH lines (current_line ++ [word])%list) as (groups & Hne & Hcat & ->).
      exists groups. split; [exact Hne |]. split; [| reflexivity].
      by rewrite Hcat, <- app_assoc.
    + destruct current_line as [| c cs].
      * destruct (IH lines [word]) as (groups & Hne & Hcat & ->).
        by exists groups.
      * destruct (IH (lines ++ [join " " (c :: cs)])%list [word])
          as (groups & Hne & Hcat & ->).
        exists ((c :: cs) :: groups). split; [by constructor |]. split.
        -- cbn [concat]. by rewrite Hcat.
        -- by rewrite <- app_assoc.
Qed.

(** [str.split] cuts at the no-break space and at the next-line control
    as it does at a blank. *)
Lemma split_at_no_break_space :
  split_ws (String "a" (String (ascii_of_nat 160) (String "b"
             (String (ascii_of_nat 133) "c"))))
  = ["a"; "b"; "c"].
Proof. vm_compute. reflexivity. Qed.

(** X13: wrapping loses nothing. The lines [_wrap_text] returns for a
    string are its words (as [str.split] gives them), in their order, cut
    into groups of one word or more, each group joined by single spaces:
    no word is dropped, repeated or broken, no line is empty, and there
    are no more lines than words. *)
Theorem wrapping_keeps_the_words (s : string) f max_width :
  exists groups,
    _wrap_text E (VStr s) f max_width = Ok (join " " <$> groups) /\
    Forall (fun g => g <> []) groups /\
    concat groups = split_ws s /\
    (length groups <= length (split_ws s))%nat.
Proof.
  unfold _wrap_text. cbn [words_of mbind result_bind].
  destruct (wrap_loop_groups f max_width (split_ws s) [] []) as (groups & Hne & Hcat & ->).
  exists groups. split; [reflexivity |]. split; [exact Hne |].
  cbn in Hcat. split; [exact Hcat |]. rewrite <- Hcat. by apply nonempty_groups.
Qed.

Lemma positive_raises v e : positive v = Raise e -> caught_by e [Exception] = true.
Proof. destruct v; cbn; try discriminate; by intros [= <-]. Qed.

Lemma item_raises d k e : item d k = Raise e -> caught_by e [Exception] = true.
Proof. unfold item. destruct (d !! k); [discriminate | by intros [= <-]]. Qed.

Lemma wrap_text_raises text f max_width e :
  _wrap_text E text f max_width = Raise e -> caught_by e [Exception] = true.
Proof. unfold _wrap_text. destruct text; cbn; try discriminate; by intros [= <-]. Qed.

Lemma layout_raises style image_path output_path main_text subtext resolution e :
  layout E style image_path output_path main_text subtext resolution = Raise e ->
  caught_by e [Exception] = true.
Proof.
  unfold layout.
  destruct (positive _) as [band |] eqn:Hp; cbn [mbind result_bind];
    [| intros [= <-]; by eapply positive_raises].
  assert (forall overlay : option (value * value),
    (size_main ← item style "font_size_main";
     size_sub ← item style "font_size_sub";
     main_lines ← _wrap_text E main_text
                    (Font size_main (default (VBool false) (style !! "bold")))
                    (max_width_of resolution);
     sub_lines ← (if truthy subtext
                  then ls ← _wrap_text E subtext (Font size_sub (VBool false))
                            (max_width_of resolution); Ok (Some ls)
                  else Ok None);
     Ok (RenderReq image_path output_path resolution style overlay main_lines sub_lines))
    = Raise e -> caught_by e [Exception] = true) as Hrest.
  { intros overlay.
    destruct (item style "font_size_main") eqn:H1; cbn [mbind result_bind];
      [| intros [= <-]; by eapply item_raises].
    destruct (item style "font_size_sub") eqn:H2; cbn [mbind result_bind];
      [| intros [= <-]; by eapply item_raises].
    destruct (_wrap_text E main_text _ _) eqn:H3; cbn [mbind result_bind];
      [| intros [= <-]; by eapply wrap_text_raises].
    destruct (truthy subtext); cbn [mbind result_bind]; [| discriminate].
    destruct (_wrap_text E subtext _ _) eqn:H4; cbn [mbind result_bind];
      [discriminate | intros [= <-]; by eapply wrap_text_raises]. }
  destruct band; cbn [mbind result_bind]; [| apply Hrest].
  destruct (item style "position") eqn:H1; cbn [mbind result_bind];
    [| intros [= <-]; by eapply item_raises].
  destruct (item style "background_opacity") eqn:H2; cbn [mbind result_bind];
    [apply Hrest | intros [= <-]; by eapply item_raises].
Qed.

Lemma fail_spec e h w :
  caught_by e [Exception] = true ->
  fail e h w = (Raise (Exn RuntimeError ("Failed to compose thumbnail: " ++ exn_msg e)), h, w).
Proof. intros H. unfold fail. by rewrite H. Qed.

(** The three ways a call of [compose] ends. *)
Lemma compose_cases self image_path main_text output_path subtext resolution
    custom_style h w :
  let run := compose E self image_path main_text output_path subtext resolution
               custom_style h w in
  (image_path ∉ files w ->
   run = (Raise (Exn FileNotFoundError ("Image not found: " ++ image_path)), h, w)) /\
  (image_path ∈ files w -> forall e, run.1.1 = Raise e ->
   exn_cls e = RuntimeError /\
   exists cause, exn_msg e = "Failed to compose thumbnail: " ++ cause) /\
  (forall out, run.1.1 = Ok out -> out = output_path /\ output_path ∈ files run.2).
Proof.
  cbn zeta. unfold compose.
  destruct (decide (image_path ∈ files w)) as [Hin | Hout].
  2: { split; [done |]. split; [done | discriminate]. }
  split; [done |].
  assert (forall e0 h0 w0, caught_by e0 [Exception] = true ->
    (forall e, (fail e0 h0 w0).1.1 = Raise e ->
       exn_cls e = RuntimeError /\
       exists cause, exn_msg e = "Failed to compose thumbnail: " ++ cause) /\
    (forall out, (fail e0 h0 w0).1.1 = Ok out ->
       out = output_path /\ output_path ∈ files (fail e0 h0 w0).2)) as Hfail.
  { intros e0 h0 w0 Hc. rewrite fail_spec by exact Hc. cbn. split; [| discriminate].
    intros e [= <-]. split; [reflexivity |]. by eexists. }
  destruct (open_image E image_path resolution) as [msg |].
  { split; [intros _ |]; by apply Hfail. }
  destruct (copy_style self custom_style h) as [[a h1] | e0] eqn:Hcopy.
  2: { assert (caught_by e0 [Exception] = true) as Hc.
       { revert Hcopy. unfold copy_style. destruct (h !! style self).
         - destruct custom_style as [c |]; [destruct (decide _) |]; discriminate.
         - by intros [= <-]. }
       split; [intros _ |]; by apply Hfail. }
  destruct (layout E _ _ _ _ _ _) as [req | e0] eqn:Hlay.
  2: { apply layout_raises in Hlay. split; [intros _ |]; by apply Hfail. }
  destruct (render E req) as [msg |].
  { split; [intros _ |]; by apply Hfail. }
  cbn. split; [discriminate |]. intros out [= <-]. split; [reflexivity |].
  apply elem_of_union. left. by apply elem_of_singleton.
Qed.

(** X14: [compose] has two ways to fail and one to succeed. When the
    image is not a file it raises [FileNotFoundError] and nothing has
    happened. When the image is a file, every failure, whatever its
    cause, comes out as a [RuntimeError] whose text starts with "Failed
    to compose thumbnail: ". A call that returns, returns [output_path],
    and that file exists. *)
Theorem compose_outcomes self image_path main_text output_path subtext resolution
    custom_style h w :
  let run := compose E self image_path main_text output_path subtext resolution
               custom_style h w in
  (image_path ∉ files w ->
   run = (Raise (Exn FileNotFoundError ("Image not found: " ++ image_path)), h, w)) /\
  (image_path ∈ files w -> forall e, run.1.1 = Raise e ->
   exn_cls e = RuntimeError /\
   exists cause, exn_msg e = "Failed to compose thumbnail: " ++ cause) /\
  (forall out, run.1.1 = Ok out -> out = output_path /\ output_path ∈ files run.2).
Proof. apply compose_cases. Qed.

(** A call of [compose] removes no file. *)
Lemma compose_files self image_path main_text output_path subtext resolution
    custom_style h w :
  files w ⊆ files (compose E self image_path main_text output_path subtext resolution
                     custom_style h w).2.
Proof.
  unfold compose, fail. destruct (decide _); [| done].
  destruct (open_image E image_path resolution); [by destruct (caught_by _ _) |].
  destruct (copy_style self custom_style h) as [[a h1] |]; [| by destruct (caught_by _ _)].
  destruct (layout E _ _ _ _ _ _); [| by destruct (caught_by _ _)].
  destruct (render E _); [by destruct (caught_by _ _) |].
  cbn. intros x Hx. apply elem_of_union. by right.
Qed.
End Compose.

End ComposerExtra.

(** ** What is drawn *)

Module DrawingProps.
Import Composer Drawing Scenario PyProps.

Lemma length_bind_const {A B} (F : A -> list B) (c : nat) (l : list A) :
  Forall (fun a => length (F a) = c) l -> length (l ≫= F) = (length l * c)%nat.
Proof.
  induction 1 as [| a l Ha _ IH]; [reflexivity |].
  rewrite bind_cons, length_app, Ha, IH. cbn. lia.
Qed.

(** [range(-w, w + 1)] is the negative offsets, zero, the positive ones. *)
Lemma range_split w :
  0 < w -> range (- w) (w + 1) = (seqZ (- w) w ++ 0 :: seqZ 1 w)%list.
Proof.
  intros Hw. unfold range.
  replace (w + 1 - - w) with (w + (1 + w)) by lia.
  rewrite seqZ_app by lia. f_equal.
  replace (- w + w) with 0 by lia.
  rewrite seqZ_cons by lia. f_equal. f_equal. lia.
Qed.

Lemma range_elem a b k : k ∈ range a b <-> a <= k < b.
Proof. unfold range. rewrite elem_of_seqZ. lia. Qed.

Section Outline.
Context (text : string) (x y : Z) (f : font) (fill : value) (w : Z).
Hypothesis Hw : 0 < w.

Local Abbreviation inner adj_x :=
  (adj_y ← range (- w) (w + 1);
   if negb (adj_x =? 0) || negb (adj_y =? 0)
   then [DrawText (x + adj_x, y + adj_y) text f fill]
   else []).

Lemma inner_length_off adj_x :
  adj_x <> 0 -> length (inner adj_x) = Z.to_nat (2 * w + 1).
Proof.
  intros Hx. rewrite (length_bind_const _ 1).
  - unfold range. rewrite length_seqZ. lia.
  - apply Forall_forall. intros adj_y _.
    destruct (Z.eqb_spec adj_x 0); [done | reflexivity].
Qed.

Lemma inner_length_zero : length (inner 0) = Z.to_nat (2 * w).
Proof.
  rewrite range_split by exact Hw. rewrite bind_app, bind_cons, !length_app.
  rewrite (length_bind_const _ 1), (length_bind_const _ 1).
  - rewrite !length_seqZ. cbn. lia.
  - apply Forall_seqZ. intros adj_y Hy. destruct (Z.eqb_spec adj_y 0); [lia | reflexivity].
  - apply Forall_seqZ. intros adj_y Hy. destruct (Z.eqb_spec adj_y 0); [lia | reflexivity].
Qed.

Lemma ring_length :
  Z.of_nat (length (adj_x ← range (- w) (w + 1); inner adj_x))
  = (2 * w + 1) * (2 * w + 1) - 1.
Proof.
  rewrite range_split at 1 by exact Hw. rewrite bind_app, bind_cons, !length_app.
  rewrite (length_bind_const _ (Z.to_nat (2 * w + 1)) (seqZ (- w) w)),
          (length_bind_const _ (Z.to_nat (2 * w + 1)) (seqZ 1 w)).
  - cbn beta. rewrite inner_length_zero, !length_seqZ. nia.
  - apply Forall_seqZ. intros adj_x Hx. apply inner_length_off. lia.
  - apply Forall_seqZ. intros adj_x Hx. apply inner_length_off. lia.
Qed.

Lemma ring_elem op :
  op ∈ (adj_x ← range (- w) (w + 1); inner adj_x) <->
  exists dx dy, op = DrawText (x + dx, y + dy) text f fill /\
    - w <= dx <= w /\ - w <= dy <= w /\ (dx <> 0 \/ dy <> 0).
Proof.
  rewrite list_elem_of_bind. split.
  - intros (dx & (dy & Hop & Hdy%range_elem)%list_elem_of_bind & Hdx%range_elem).
    exists dx, dy.
    destruct (Z.eqb_spec dx 0), (Z.eqb_spec dy 0); cbn in Hop;
      try apply list_elem_of_singleton in Hop;
      try (by apply elem_of_nil in Hop);
      (split; [exact Hop |]; lia).
  - intros (dx & dy & -> & Hdx & Hdy & Hnz). exists dx. split; [| apply range_elem; lia].
    apply list_elem_of_bind. exists dy. split; [| apply range_elem; lia].
    destruct (Z.eqb_spec dx 0), (Z.eqb_spec dy 0); cbn;
      try apply list_elem_of_singleton; try reflexivity; lia.
Qed.
End Outline.

(** X15: with an outline colour and a width [w > 0],
    [_draw_text_with_outline] draws the text [(2w+1)^2] times: once in the
    outline colour at every offset of the square from [-w] to [w] around
    the position, the position itself left out, and then, last and on
    top, in the text colour at the position. Without an outline colour,
    or with a width of 0 or less, it draws the text once. *)
Theorem outline_is_a_square_of_copies text x y f text_color outline_color w :
  let ops := _draw_text_with_outline text (x, y) f text_color outline_color w in
  (truthy outline_color = true -> 0 < w ->
   exists ring,
     ops = (ring ++ [DrawText (x, y) text f text_color])%list /\
     Z.of_nat (length ring) = (2 * w + 1) * (2 * w + 1) - 1 /\
     forall op, op ∈ ring <->
       exists dx dy, op = DrawText (x + dx, y + dy) text f outline_color /\
         - w <= dx <= w /\ - w <= dy <= w /\ (dx <> 0 \/ dy <> 0)) /\
  (truthy outline_color = false \/ w <= 0 ->
   ops = [DrawText (x, y) text f text_color]).
Proof.
  cbn zeta. unfold _draw_text_with_outline. split.
  - intros -> Hw. assert ((0 <? w) = true) as -> by lia. cbn [andb].
    eexists. split; [reflexivity |]. split; [by apply ring_length |].
    intros op. by apply ring_elem.
  - intros [-> | Hw]; [reflexivity |].
    assert ((0 <? w) = false) as -> by lia. by rewrite andb_false_r.
Qed.

Lemma outline_length text xy f text_color outline_color w :
  Z.of_nat (length (_draw_text_with_outline text xy f text_color outline_color w))
  = if truthy outline_color && (0 <? w) then (2 * w + 1) * (2 * w + 1) else 1.
Proof.
  unfold _draw_text_with_outline. destruct xy as [x y]. rewrite length_app.
  destruct (truthy outline_color); cbn [andb]; [| reflexivity].
  destruct (Z.ltb_spec 0 w) as [Hw | Hw]; [| reflexivity].
  rewrite Nat2Z.inj_add, ring_length by exact Hw. cbn. lia.
Qed.

Section Placement.
Context (E : env).

(** The loop in closed form. *)
Lemma place_lines_spec f width shadow_offset outline step lines : forall y,
  let run := place_lines E lines f width shadow_offset outline step y in
  run.2 = y + Z.of_nat (length lines) * step /\
  length run.1 = length lines /\
  Forall (fun p => pl_outline_width p = outline) run.1 /\
  forall (i : nat) line, lines !! i = Some line ->
    run.1 !! i
    = Some (Placed line ((width - text_width E f line) `div` 2, y + Z.of_nat i * step)
              f shadow_offset outline).
Proof.
  induction lines as [| l lines IH]; intros y; cbn zeta.
  - cbn. split; [lia |]. split; [done |]. split; [constructor | done].
  - cbn [place_lines]. specialize (IH (y + step)). cbn zeta in IH.
    destruct (place_lines E lines f width shadow_offset outline step (y + step))
      as [ps y'] eqn:Hrec.
    cbn [fst snd] in *. destruct IH as (Hy & Hlen & Hall & Hlook).
    split; [rewrite Hy; cbn [length]; lia |].
    split; [cbn [length]; by rewrite Hlen |].
    split; [by constructor |].
    intros [| i] line; cbn [lookup list_lookup].
    + intros [= ->]. do 3 f_equal. lia.
    + intros Hi. change (ps !! i = Some (Placed line
        ((width - text_width E f line) `div` 2, y + Z.of_nat (S i) * step)
        f shadow_offset outline)).
      rewrite (Hlook i line Hi). do 3 f_equal. lia.
Qed.

(** X16: where [compose] puts the text. With [n] main lines, a line
    height of [font_size_main + 10] and, when there is a subtext, sub lines
    [font_size_sub + 10] apart after a gap of 20, main line [i] is drawn at
    height [y0 + i * line_height] and sub line [j] at [y0 + n * line_height
    + 20 + j * (font_size_sub + 10)], each centred in the width to the
    pixel. [y0] is 50 for the position "top"; for "bottom" the block ends
    50 pixels above the lower edge; any other position centres the block
    in the height to the pixel. *)
Theorem text_is_placed_by_position style resolution main_font sub_font
    main_lines sub_lines :
  let placed := place_text E style resolution main_font sub_font main_lines sub_lines in
  let n := Z.of_nat (length main_lines) in
  let line_height := font_size_main style + 10 in
  let sub_height := font_size_sub style + 10 in
  let subs := default [] sub_lines in
  let total := n * line_height +
               match sub_lines with
               | Some ls => Z.of_nat (length ls) * sub_height + 20
               | None => 0
               end in
  let centred := fun f line => (resolution.1 - text_width E f line) `div` 2 in
  exists y0,
    length placed = (length main_lines + length subs)%nat /\
    (forall (i : nat) line, main_lines !! i = Some line ->
       placed !! i
       = Some (Placed line (centred main_font line, y0 + Z.of_nat i * line_height)
                 main_font 5 (outline_width style))) /\
    (forall (j : nat) line, subs !! j = Some line ->
       placed !! (length main_lines + j)%nat
       = Some (Placed line
                 (centred sub_font line,
                  y0 + n * line_height + 20 + Z.of_nat j * sub_height)
                 sub_font 3 (Z.max (outline_width style - 1) 1))) /\
    (forall f line,
       0 <= resolution.1 - text_width E f line - 2 * centred f line <= 1) /\
    (if eq_str (position style) "top" then y0 = 50
     else if eq_str (position style) "bottom" then y0 + total = resolution.2 - 50
     else 0 <= resolution.2 - total - 2 * y0 <= 1).
Proof.
  cbn zeta. unfold place_text.
  set (total := Z.of_nat (length main_lines) * (font_size_main style + 10) +
                match sub_lines with
                | Some ls => Z.of_nat (length ls) * (font_size_sub style + 10) + 20
                | None => 0
                end).
  set (y0 := if eq_str (position style) "top" then 50
             else if eq_str (position style) "bottom" then resolution.2 - total - 50
             else (resolution.2 - total) `div` 2).
  exists y0.
  pose proof (place_lines_spec main_font resolution.1 5 (outline_width style)
                (font_size_main style + 10) main_lines y0) as Hmain.
  cbn zeta in Hmain.
  destruct (place_lines E main_lines main_font resolution.1 5 (outline_width style)
              (font_size_main style + 10) y0) as [main y1] eqn:Hrun.
  cbn [fst snd] in Hmain. destruct Hmain as (Hy1 & Hlen & _ & Hlook).
  assert (forall f line,
    0 <= resolution.1 - text_width E f line
         - 2 * ((resolution.1 - text_width E f line) `div` 2) <= 1) as Hcentre.
  { intros f line. pose proof (Z.div_mod (resolution.1 - text_width E f line) 2).
    pose proof (Z.mod_pos_bound (resolution.1 - text_width E f line) 2). lia. }
  assert (if eq_str (position style) "top" then y0 = 50
          else if eq_str (position style) "bottom" then y0 + total = resolution.2 - 50
          else 0 <= resolution.2 - total - 2 * y0 <= 1) as Hy0.
  { subst y0. destruct (eq_str _ "top"); [reflexivity |].
    destruct (eq_str _ "bottom"); [lia |].
    pose proof (Z.div_mod (resolution.2 - total) 2).
    pose proof (Z.mod_pos_bound (resolution.2 - total) 2). lia. }
  destruct sub_lines as [ls |]; cbn [default].
  - pose proof (place_lines_spec sub_font resolution.1 3
                  (Z.max (outline_width style - 1) 1) (font_size_sub style + 10) ls
                  (y1 + 20)) as Hsub.
    cbn zeta in Hsub. destruct Hsub as (_ & Hlen2 & _ & Hlook2).
    split; [by rewrite length_app, Hlen, Hlen2 |].
    split.
    { intros i line Hi. rewrite lookup_app_l by (rewrite Hlen; by eapply lookup_lt_Some).
      by apply Hlook. }
    split; [| by split].
    intros j line Hj. rewrite <- Hlen, lookup_app_r by lia.
    replace (length main + j - length main)%nat with j by lia.
    rewrite (Hlook2 j line Hj), Hy1. do 3 f_equal. lia.
  - split; [by rewrite Hlen, Nat.add_0_r |].
    split; [exact Hlook |]. split; [| by split].
    intros j line Hj. by rewrite lookup_nil in Hj.
Qed.

(** X17: how often the text is drawn. A line costs one draw for its
    shadow, if the style has one, and the draws of its outline and fill:
    [(2w+1)^2] for an outline colour and a width [w > 0], one otherwise.
    Main lines are outlined with the style's [outline_width], sub lines
    with [max(outline_width - 1, 1)]: with an outline colour a sub line
    is outlined also when [outline_width] is 0 and the main lines are
    not. *)
Theorem draws_per_line style resolution main_font sub_font main_lines sub_lines :
  let draws := fun w : Z =>
    (if shadow style then 1 else 0) +
    (if truthy (outline_color style) && (0 <? w)
     then (2 * w + 1) * (2 * w + 1) else 1) in
  Z.of_nat (length (draw_text E style resolution main_font sub_font main_lines sub_lines))
  = Z.of_nat (length main_lines) * draws (outline_width style) +
    Z.of_nat (length (default [] sub_lines))
    * draws (Z.max (outline_width style - 1) 1).
Proof.
  cbn zeta.
  assert (forall p, Z.of_nat (length (draw_placed style p))
                    = (if shadow style then 1 else 0) +
                      (if truthy (outline_color style) && (0 <? pl_outline_width p)
                       then (2 * pl_outline_width p + 1) * (2 * pl_outline_width p + 1)
                       else 1)) as Hone.
  { intros p. unfold draw_placed. rewrite length_app, Nat2Z.inj_add, outline_length.
    by destruct (shadow style). }
  assert (forall (w : Z) (ps : list placed),
    Forall (fun p => pl_outline_width p = w) ps ->
    Z.of_nat (length (ps ≫= draw_placed style))
    = Z.of_nat (length ps) *
      ((if shadow style then 1 else 0) +
       (if truthy (outline_color style) && (0 <? w)
        then (2 * w + 1) * (2 * w + 1) else 1))) as Hall.
  { intros w ps Hps. induction Hps as [| p ps Hp _ IH]; [reflexivity |].
    rewrite bind_cons, length_app, Nat2Z.inj_add, IH, Hone, Hp. cbn [length]. lia. }
  unfold draw_text, place_text.
  change (fun p => draw_placed style p) with (draw_placed style).
  set (y0 := if eq_str (position style) "top" then _ else _).
  pose proof (place_lines_spec main_font resolution.1 5 (outline_width style)
                (font_size_main style + 10) main_lines y0) as Hmain.
  cbn zeta in Hmain.
  destruct (place_lines E main_lines main_font resolution.1 5 (outline_width style)
              (font_size_main style + 10) y0) as [main y1] eqn:Hrun.
  cbn [fst snd] in Hmain. destruct Hmain as (_ & Hlen & Hw & _).
  destruct sub_lines as [ls |]; cbn [default].
  - pose proof (place_lines_spec sub_font resolution.1 3
                  (Z.max (outline_width style - 1) 1) (font_size_sub style + 10) ls
                  (y1 + 20)) as Hsub.
    cbn zeta in Hsub. destruct Hsub as (_ & Hlen2 & Hw2 & _).
    rewrite bind_app, length_app, Nat2Z.inj_add.
    rewrite (Hall _ _ Hw), (Hall _ _ Hw2), Hlen, Hlen2. reflexivity.
  - rewrite (Hall _ _ Hw), Hlen. cbn [length]. lia.
Qed.
End Placement.

Lemma trunc_bounds (h : Z) (ratio : Qc) :
  0 <= h -> (Qc_of_Z 0 <= ratio)%Qc -> (ratio <= Qc_of_Z 1)%Qc ->
  0 <= trunc (Qc_of_Z h * ratio)%Qc <= h.
Proof.
  intros Hh H0 H1. unfold Qcle, Qle in H0, H1. cbn in H0, H1.
  unfold trunc, Qcmult, Q2Qc. cbn [this].
  change (this (Qc_of_Z h)) with (inject_Z h).
  set (q := (inject_Z h * this ratio)%Q).
  pose proof (Qred_correct q) as Hq. unfold Qeq in Hq.
  change (Qnum q) with (h * Qnum (this ratio)) in Hq.
  change (Qden q) with (Qden (this ratio)) in Hq.
  generalize dependent (Qred q). intros [x P] Hq. cbn [Qnum Qden] in *.
  assert (0 <= x) by nia.
  rewrite Z.quot_div_nonneg by lia. split.
  - apply Z.div_pos; lia.
  - apply Z.div_le_upper_bound; [lia |]. nia.
Qed.




(** The product is the product of doubles: on an image 90 high with a
    ratio of 0.7 the band is 62 high, where the product of the rationals,
    63, would give 63. *)
Lemma band_of_62 :
  _add_background_overlay (100, 90) (VStr "top") (Float64.of_Q (3 # 10))
    (Float64.of_Q (7 # 10))
  = Some (DrawRectangle 0 0 100 62 (rgba 0 0 0 76)) /\
  trunc (Qc_of_Z 90 * tenths 7)%Qc = 63.
Proof. split; vm_compute; reflexivity. Qed.

End DrawingProps.

(** ** More on the commands *)

Module CliExtra.
Import Video Cli Lifecycle Scenario PyProps StrOrder SamplerProps CliProps LifecycleProps.

Lemma last_char_app a b :
  b <> "" ->
  substring (String.length (a ++ b) - 1) 1 (a ++ b)
  = substring (String.length b - 1) 1 b.
Proof.
  intros Hb. induction a as [| c a IH]; [reflexivity |].
  rewrite SelectorProps.append_cons.
  destruct (a ++ b) as [| d s] eqn:Hab.
  - destruct a; [by destruct b | discriminate].
  - rewrite <- IH. cbn [String.length Nat.sub]. rewrite !Nat.sub_0_r. reflexivity.
Qed.

(** The frames directory of [generate] has a name that ends with no
    slash. *)
Lemma frames_temp_prefix a :
  path_prefix (path_join a "frames_temp") = path_join a "frames_temp" ++ "/".
Proof.
  rewrite path_join_prefix. unfold path_prefix at 1.
  rewrite last_char_app by discriminate.
  destruct (path_prefix a ++ "frames_temp") eqn:Hs; [| reflexivity].
  by destruct (path_prefix a).
Qed.

Lemma init_files E path w : files (Video.init E path w).2 = files w.
Proof.
  unfold Video.init, _get_metadata. destruct (decide _); [| reflexivity].
  destruct (parse_metadata _ _); [reflexivity |].
  by repeat destruct (caught_by _ _).
Qed.

Lemma analyze_and_generate_files E frame_paths description style max_words w :
  files (Analyzer.analyze_and_generate E frame_paths description style max_words w).2
  = files w.
Proof.
  unfold Analyzer.analyze_and_generate, Analyzer.analyze_frames.
  destruct frame_paths as [| f fs]; [reflexivity |].
  destruct (List.find _ _); [reflexivity |].
  destruct (Analyzer.guarded _ _); [| reflexivity].
  unfold Analyzer.generate_thumbnail_text. by destruct (Analyzer.guarded _ _).
Qed.

Lemma create_thumbnail_files E self frame_path text_data output_path resolution h w :
  files w ⊆ files (Composer.create_thumbnail_from_analysis E self frame_path text_data
                     output_path resolution h w).2.
Proof.
  unfold Composer.create_thumbnail_from_analysis.
  destruct (_ ≫= _) as [[main_text subtext] |]; [| done].
  apply ComposerExtra.compose_files.
Qed.

Section Generate.
Context (E : env).

(** Reading the frames and asking the model writes no file and renders
    nothing. *)
Lemma reading_is_quiet _encode_image frame_paths description style max_words w :
  let run := Reading.analyze_and_generate E _encode_image frame_paths description style
               max_words w in
  files run.2 = files w /\ renders (trace run.2) = renders (trace w).
Proof.
  cbn zeta. unfold Reading.analyze_and_generate, Reading.analyze_frames.
  destruct frame_paths as [| f fs]; [done |].
  destruct (Reading.images _ _ _); [| done].
  destruct (Analyzer.guarded _ _); [| split; [done | by apply renders_emit]].
  unfold Analyzer.generate_thumbnail_text.
  destruct (Analyzer.guarded _ _); cbn [fst snd];
    (split; [done | rewrite renders_emit by done; by apply renders_emit]).
Qed.

(** Whatever an [except] clause prints, the run does not end well. *)
Lemma report_not_Done console_print o messages final :
  o <> Done final -> Console.report console_print o messages <> Done final.
Proof. intros Ho. unfold Console.report. by destruct (mapM _ _). Qed.

(** X19: [generate] removes its frames directory once the thumbnail is
    composed, and not before. Once the frames are extracted, a run that
    ends well leaves neither the directory [frames_temp] beside the
    output nor any of the frames; every other run either leaves the
    directory and every frame behind, or has composed the thumbnail (one
    render request) and then removed them, as when the reasoning cannot
    be sliced or printed. The tool is taken to remove no file. *)
Theorem frames_are_removed_once_composed console_print _encode_image video_path prompt
    output style resolution frames h w base p w1 paths p' w2 :
  let out := match output with
             | Some o => if String.eqb o "" then "./output/thumbnail.jpg" else o
             | None => "./output/thumbnail.jpg"
             end in
  let dir := path_join (dirname out) "frames_temp" in
  let run := Console.generate E console_print _encode_image video_path prompt output
               style resolution frames h w in
  let kept := dir ∈ files run.2 /\ forall x, x ∈ paths -> x ∈ files run.2 in
  let gone := (dir ∉ files run.2) /\ (forall x, x ∈ paths -> x ∉ files run.2) /\
              exists req, renders (trace run.2) = (renders (trace w) ++ [req])%list in
  keeps_files E ->
  style ∈ style_choices -> res_map !! resolution = Some base ->
  console_print (Console.Banner video_path prompt style resolution frames) = None ->
  Video.init E video_path w = (Ok p, w1) ->
  console_print (Console.Loaded (duration (meta p)) (width (meta p)) (height (meta p)))
  = None ->
  console_print (Console.orientation base (meta p)) = None ->
  extract_frames E p frames (Some dir) (Qc_of_Z 2) (Qc_of_Z 2) w1 = (Ok paths, p', w2) ->
  (forall final, run.1.1 = Done final -> gone) /\ (kept \/ gone).
Proof.
  intros out dir run kept gone Hk Hstyle Hres Hbanner Hi Hloaded Hformat He.
  subst run kept gone. unfold Console.generate.
  assert (video_path ∈ files w) as Hin.
  { revert Hi. unfold Video.init. by destruct (decide _). }
  destruct (decide _) as [_ | Hn]; [| by destruct Hn].
  rewrite Hres. fold out. rewrite Hbanner.
  unfold Console.pipeline. rewrite Hi. unfold Console.say.
  rewrite Hloaded. cbn [mbind result_bind]. rewrite Hformat. fold dir. rewrite He.
  pose proof He as (_ & Hdir & Hpaths)%extract_frames_files; [| exact Hk].
  cbn [dir_of] in Hdir, Hpaths.
  pose proof (init_renders _ _ _ _ _ Hi) as Hr1.
  pose proof (extract_frames_renders _ _ _ _ _ _ _ _ _ _ He) as Hr2.
  (* a failure before the removal *)
  assert (forall (e : exn) (hk : Composer.store) (wk : world),
    files w2 ⊆ files wk ->
    let run := (if caught_by e [FileNotFoundError]
                then (Console.report console_print (Handled e) [Console.Error e], hk, wk)
                else if caught_by e [RuntimeError]
                then (Console.report console_print (Handled e) [Console.Error e], hk, wk)
                else if caught_by e [Exception]
                then (Console.report console_print (Unexpected e)
                        [Console.UnexpectedError e; Console.Traceback e], hk, wk)
                else (Uncaught e, hk, wk)) in
    (forall final, run.1.1 = Done final ->
       (dir ∉ files run.2) /\ (forall x, x ∈ paths -> x ∉ files run.2) /\
       exists req, renders (trace run.2) = (renders (trace w) ++ [req])%list) /\
    ((dir ∈ files run.2 /\ forall x, x ∈ paths -> x ∈ files run.2) \/
     ((dir ∉ files run.2) /\ (forall x, x ∈ paths -> x ∉ files run.2) /\
      exists req, renders (trace run.2) = (renders (trace w) ++ [req])%list))) as Hstage.
  { intros e hk wk Hsub. cbn zeta.
    assert (dir ∈ files wk /\ forall x, x ∈ paths -> x ∈ files wk) as Hleft.
    { split; [by apply Hsub |]. intros x Hx. apply Hsub.
      by destruct (Hpaths _ _ eq_refl Hx). }
    repeat destruct (caught_by _ _); cbn [fst snd];
      (split; [| by left]); intros final Hd; exfalso; revert Hd;
      first [by apply report_not_Done | discriminate]. }
  destruct (console_print (Console.Extracted (length paths))) as [e |];
    cbn [mbind result_bind]; [by apply Hstage |].
  destruct (Analyzer.init E) as [key | e]; [| by apply Hstage].
  pose proof (reading_is_quiet _encode_image paths prompt style 6 w2) as [Hf3 Hr3].
  cbn zeta in Hf3, Hr3.
  destruct (Reading.analyze_and_generate E _encode_image paths prompt style 6 w2)
    as [[[frame_analysis text_result] | e] w3]; cbn [snd] in Hf3, Hr3;
    [| apply Hstage; by rewrite Hf3].
  destruct (Console.report_analysis _ _ _) as [[] | e];
    [| apply Hstage; by rewrite Hf3].
  pose proof (create_thumbnail_files E (Composer.init style)
                (Analyzer.best_frame_path frame_analysis) text_result out
                (target_resolution base (meta p)) h w3) as Hf4.
  destruct (Composer.create_thumbnail_from_analysis _ _ _ _ _ _ _ _)
    as [[[final_path | e] h4] w4] eqn:Hc; cbn [snd] in Hf4;
    [| apply Hstage; by rewrite Hf3 in Hf4].
  rewrite Hf3 in Hf4.
  (* the composition has returned: one render request *)
  assert (exists req, renders (trace w4) = (renders (trace w) ++ [req])%list) as Hone.
  { revert Hc. unfold Composer.create_thumbnail_from_analysis.
    destruct (_ ≫= _) as [[main_text subtext] | e]; [| discriminate].
    intros (req & Htr & _)%ComposerProps.compose_Ok. exists req.
    by rewrite Htr, renders_app, Hr3, Hr2, Hr1. }
  destruct (decide (dir ∈ files w4)) as [_ | Hout]; [| by destruct Hout; apply Hf4].
  assert (path_prefix dir = dir ++ "/") as Hpre by apply frames_temp_prefix.
  assert ((dir ∉ Cli.rmtree dir (files w4)) /\
          (forall x, x ∈ paths -> x ∉ Cli.rmtree dir (files w4)) /\
          exists req, renders (trace w4 ++ [EvRmtree dir]) = (renders (trace w) ++ [req])%list)
    as Hgone.
  { split; [rewrite rmtree_spec; tauto |]. split.
    - intros x Hx. destruct (Hpaths _ _ eq_refl Hx) as (_ & i & ->).
      rewrite rmtree_spec. unfold frame_path.
      rewrite (path_join_prefix dir), Hpre, prefix_app.
      intros (_ & ? & _). discriminate.
    - destruct Hone as [req Hreq]. exists req. rewrite renders_app, Hreq. cbn.
      by rewrite app_nil_r. }
  destruct (Console.report_success _ _ _) as [[] | e].
  - cbn [fst snd files trace]. split; [by intros _ _ | by right].
  - repeat destruct (caught_by _ _); cbn [fst snd files trace];
      (split; [by intros _ _ | by right]).
Qed.

(** A call of [compose] makes one render request at most, at the
    resolution it was given. *)
Lemma compose_renders self image_path main_text output_path subtext resolution
    custom_style h w :
  let run := Composer.compose E self image_path main_text output_path subtext
               resolution custom_style h w in
  exists new,
    renders (trace run.2) = (renders (trace w) ++ new)%list /\
    (length new <= 1)%nat /\
    forall req, req ∈ new -> req_resolution req = resolution.
Proof.
  cbn zeta.
  assert (forall w0, renders (trace w0) = renders (trace w) ->
    exists new,
      renders (trace w0) = (renders (trace w) ++ new)%list /\
      (length new <= 1)%nat /\
      forall req, req ∈ new -> req_resolution req = resolution) as Hquiet.
  { intros w0 ->. exists []. rewrite app_nil_r. split; [done |]. split; [cbn; lia |].
    by intros req ?%elem_of_nil. }
  assert (forall (e : exn) h0 w0,
    (Composer.fail e h0 w0).2 = w0) as Hfail.
  { intros e h0 w0. unfold Composer.fail. by destruct (caught_by _ _). }
  unfold Composer.compose. destruct (decide _) as [_ | _]; [| by apply Hquiet].
  destruct (open_image E image_path resolution) as [msg |].
  { rewrite Hfail. apply Hquiet. by apply renders_emit. }
  destruct (Composer.copy_style self custom_style h) as [[a h1] | e].
  2: { rewrite Hfail. apply Hquiet. by apply renders_emit. }
  destruct (Composer.layout _ _ _ _ _ _ _) as [req |] eqn:Hlay.
  2: { rewrite Hfail. apply Hquiet. by apply renders_emit. }
  apply ComposerProps.layout_req in Hlay as (_ & Hres & _).
  assert (forall w0,
    trace w0 = ((trace w ++ [EvOpenImage image_path]) ++ [EvRender req])%list ->
    exists new,
      renders (trace w0) = (renders (trace w) ++ new)%list /\
      (length new <= 1)%nat /\
      forall req0, req0 ∈ new -> req_resolution req0 = resolution) as Hone.
  { intros w0 ->. exists [req]. rewrite !renders_app. cbn. rewrite app_nil_r.
    split; [done |]. split; [lia |]. by intros req0 ->%list_elem_of_singleton. }
  destruct (render E req) as [msg |]; [rewrite Hfail |]; by apply Hone.
Qed.

(** The [try] block of the command: one render request at most, at the
    target resolution; a run that ends well has made one and written the
    output. *)
Lemma composing_spec console_print image_path text subtext output style target h w :
  let run := Commands.composing E console_print image_path text subtext output style
               target h w in
  (exists new,
     renders (trace run.2) = (renders (trace w) ++ new)%list /\
     (length new <= 1)%nat /\
     forall req, req ∈ new -> req_resolution req = target) /\
  (forall result, run.1.1 = Ok result ->
     result = output /\ output ∈ files run.2 /\
     exists req, renders (trace run.2) = (renders (trace w) ++ [req])%list /\
                 req_resolution req = target).
Proof.
  cbn zeta. unfold Commands.composing.
  destruct (console_print Commands.Composing) as [e0 |].
  { cbn [fst snd]. split; [| discriminate]. exists []. rewrite app_nil_r.
    split; [done |]. split; [cbn; lia |]. by intros req ?%elem_of_nil. }
  pose proof (compose_renders (Composer.init style) image_path (VStr text) output
                match subtext with Some s => VStr s | None => VNone end
                target None h w) as Hone.
  pose proof (ComposerExtra.compose_cases E (Composer.init style) image_path (VStr text)
                output match subtext with Some s => VStr s | None => VNone end
                target None h w) as (_ & _ & Hok).
  cbn zeta in Hone, Hok.
  destruct (Composer.compose _ _ _ _ _ _ _ _ _ _) as [[[out | e] h'] w'] eqn:Hc;
    cbn [fst snd] in *; [| split; [exact Hone | discriminate]].
  destruct (Hok out eq_refl) as [-> Hin].
  apply ComposerProps.compose_Ok in Hc as (req & Htr & Hreq).
  destruct (console_print Commands.Created) as [e0 |];
    [split; [exact Hone | discriminate] |].
  destruct (console_print (Commands.File output)) as [e0 |];
    [split; [exact Hone | discriminate] |].
  cbn [fst snd]. split; [exact Hone |]. intros result [= <-].
  split; [reflexivity |]. split; [exact Hin |]. exists req. split; [| exact Hreq].
  by rewrite Htr, renders_app.
Qed.

(** X20: the command [compose] renders at the resolution its option
    names, [(1280, 720)] for "720p" and [(1920, 1080)] for "1080p",
    whatever the image: a run makes one render request at most, at that
    pair; a run that ends well has made one, has written the output file
    and reports its path; and a run whose banner cannot be printed ends
    there, uncaught, with nothing done. *)
Theorem compose_command_keeps_the_resolution console_print image_path text subtext
    output style resolution h w :
  let run := Commands.compose E console_print image_path text subtext output style
               resolution h w in
  (exists new,
     renders (trace run.2) = (renders (trace w) ++ new)%list /\
     (length new <= 1)%nat /\
     forall req, req ∈ new -> res_map !! resolution = Some (req_resolution req)) /\
  (forall final, run.1.1 = Done final ->
     final = output /\ output ∈ files run.2 /\
     exists req, renders (trace run.2) = (renders (trace w) ++ [req])%list /\
                 res_map !! resolution = Some (req_resolution req)) /\
  (forall e, console_print (Commands.Banner image_path text style resolution) = Some e ->
     run = (UsageError, h, w) \/ run = (Uncaught e, h, w)).
Proof.
  cbn zeta. unfold Commands.compose.
  assert (exists new,
    renders (trace w) = (renders (trace w) ++ new)%list /\
    (length new <= 1)%nat /\
    forall req, req ∈ new -> res_map !! resolution = Some (req_resolution req)) as Hquiet.
  { exists []. rewrite app_nil_r. split; [done |]. split; [cbn; lia |].
    by intros req ?%elem_of_nil. }
  destruct (decide _) as [_ | _];
    [| split; [exact Hquiet |]; split; [discriminate | intros e _; by left]].
  destruct (res_map !! resolution) as [target |] eqn:Hres;
    [| split; [exact Hquiet |]; split; [discriminate | intros e _; by left]].
  destruct (console_print (Commands.Banner _ _ _ _)) as [e0 |] eqn:Hbanner.
  { split; [exact Hquiet |]. split; [discriminate | intros e [= <-]; by right]. }
  pose proof (composing_spec console_print image_path text subtext output style target
                h w) as [Hone Hok].
  cbn zeta in Hone, Hok.
  destruct (Commands.composing _ _ _ _ _ _ _ _ _ _) as [[[result | e] h'] w'];
    cbn [fst snd] in *.
  - split; [| split; [| discriminate]].
    + destruct Hone as (new & Hr & Hlen & Hreq). exists new.
      split; [exact Hr |]. split; [exact Hlen |]. intros req Hin. by rewrite (Hreq req Hin).
    + intros final [= <-]. destruct (Hok result eq_refl) as (-> & Hin & req & Hr & Hreq).
      split; [reflexivity |]. split; [exact Hin |]. exists req. by rewrite Hreq.
  - assert (exists o, (if caught_by e [Exception]
                       then match console_print (Commands.Error e) with
                            | Some e' => (Uncaught e', h', w')
                            | None => (Handled e, h', w')
                            end
                       else (Uncaught e, h', w')) = (o, h', w') /\
                      forall final, o <> Done final) as (o & -> & Ho).
    { destruct (caught_by _ _); [destruct (console_print (Commands.Error e)) |];
        eexists; (split; [reflexivity | discriminate]). }
    cbn [fst snd]. split; [| split; [| discriminate]].
    + destruct Hone as (new & Hr & Hlen & Hreq). exists new.
      split; [exact Hr |]. split; [exact Hlen |]. intros req Hin. by rewrite (Hreq req Hin).
    + intros final Hd. by destruct (Ho final).
Qed.
End Generate.

(** X22: a missing API key is found late. With no key in the
    environment, [generate] still probes the video and extracts every
    frame; only then does building the analyzer raise its [ValueError],
    which the [except Exception] clause takes: the run ends as an
    unexpected error, or with what printing that error raises. Nothing is
    requested, rendered or removed after the extraction. *)
Theorem missing_key_is_found_after_extraction E console_print _encode_image video_path
    prompt output style resolution frames h w base p w1 paths p' w2 :
  let out := match output with
             | Some o => if String.eqb o "" then "./output/thumbnail.jpg" else o
             | None => "./output/thumbnail.jpg"
             end in
  let dir := path_join (dirname out) "frames_temp" in
  let run := Console.generate E console_print _encode_image video_path prompt output
               style resolution frames h w in
  api_key E = None \/ api_key E = Some "" ->
  style ∈ style_choices -> res_map !! resolution = Some base ->
  console_print (Console.Banner video_path prompt style resolution frames) = None ->
  Video.init E video_path w = (Ok p, w1) ->
  console_print (Console.Loaded (duration (meta p)) (width (meta p)) (height (meta p)))
  = None ->
  console_print (Console.orientation base (meta p)) = None ->
  extract_frames E p frames (Some dir) (Qc_of_Z 2) (Qc_of_Z 2) w1 = (Ok paths, p', w2) ->
  console_print (Console.Extracted (length paths)) = None ->
  exists e,
    exn_cls e = ValueError /\ run.1.2 = h /\ run.2 = w2 /\
    (run.1.1 = Unexpected e \/
     exists e', run.1.1 = Uncaught e' /\
                (console_print (Console.UnexpectedError e) = Some e' \/
                 console_print (Console.Traceback e) = Some e')).
Proof.
  intros out dir run Hkey Hstyle Hres Hbanner Hi Hloaded Hformat He Hext. subst run.
  assert (video_path ∈ files w) as Hin.
  { revert Hi. unfold Video.init. by destruct (decide _). }
  unfold Console.generate. destruct (decide _) as [_ | Hn]; [| by destruct Hn].
  rewrite Hres. fold out. rewrite Hbanner.
  unfold Console.pipeline. rewrite Hi. unfold Console.say.
  rewrite Hloaded. cbn [mbind result_bind]. rewrite Hformat. fold dir. rewrite He.
  rewrite Hext. cbn [mbind result_bind].
  exists (Exn ValueError "Anthropic API key required. ").
  assert (Analyzer.init E = Raise (Exn ValueError "Anthropic API key required. ")) as ->
    by (unfold Analyzer.init; by destruct Hkey as [-> | ->]).
  change (caught_by (Exn ValueError "Anthropic API key required. ") [FileNotFoundError])
    with false.
  change (caught_by (Exn ValueError "Anthropic API key required. ") [RuntimeError])
    with false.
  change (caught_by (Exn ValueError "Anthropic API key required. ") [Exception])
    with true.
  cbn [fst snd]. split; [reflexivity |]. split; [reflexivity |]. split; [reflexivity |].
  unfold Console.report. cbn [mapM]. unfold Console.say.
  destruct (console_print (Console.UnexpectedError _)) as [e1 |] eqn:H1;
    cbn [mbind result_bind]; [right; exists e1; split; [reflexivity | by left] |].
  destruct (console_print (Console.Traceback _)) as [e2 |] eqn:H2;
    cbn [mbind result_bind fmap]; [right; exists e2; split; [reflexivity | by right] |].
  by left.
Qed.

Lemma missing_key_is_found_after_extraction_witness :
  let E := Cases.keyless (probe_of "30/1" "1920" "1080" "30.000000") in
  exists e,
    exn_cls e = ValueError /\
    (Console.generate E Console.prints Reading.readable "v.mp4" "Python tips" None
       "youtube" "720p" 3 Composer.presets w0).1.1
    = Unexpected e.
Proof.
  intros E.
  pose (init := Video.init E "v.mp4" w0).
  pose (p := match init.1 with Ok p => p | Raise _ => video 0 end).
  pose (ex := extract_frames E p 3 (Some "./output/frames_temp") (Qc_of_Z 2) (Qc_of_Z 2)
                init.2).
  destruct (missing_key_is_found_after_extraction E Console.prints Reading.readable
              "v.mp4" "Python tips" None "youtube" "720p" 3 Composer.presets w0
              (1280, 720) p init.2
              match ex.1.1 with Ok l => l | Raise _ => [] end ex.1.2 ex.2)
    as (e & Hcls & _ & _ & [Hrun | (e' & _ & [H | H])]).
  - by left.
  - repeat constructor.
  - reflexivity.
  - reflexivity.
  - reflexivity.
  - reflexivity.
  - reflexivity.
  - vm_compute. reflexivity.
  - reflexivity.
  - exists e. split; [exact Hcls | exact Hrun].
  - discriminate.
  - discriminate.
Defined.

Lemma frames_are_removed_once_composed_witness :
  let E := env_of (probe_of "30/1" "1920" "1080" "30.000000") ffmpeg_ok
             (answering (Concrete.q "{'best_frame_index': 1, 'reasoning': '[/b]'}")) in
  let run := Console.generate E Console.chokes_on_reasoning Reading.readable "v.mp4"
               "Python tips" None "youtube" "720p" 3 Composer.presets w0 in
  (exists e, run.1.1 = Unexpected e) /\
  ("./output/frames_temp" ∉ files run.2) /\
  exists req, renders (trace run.2) = (renders (trace w0) ++ [req])%list.
Proof.
  intros E run.
  pose (init := Video.init E "v.mp4" w0).
  pose (p := match init.1 with Ok p => p | Raise _ => video 0 end).
  pose (ex := extract_frames E p 3 (Some "./output/frames_temp") (Qc_of_Z 2) (Qc_of_Z 2)
                init.2).
  assert (exists e, run.1.1 = Unexpected e) as Hrun by (eexists; vm_compute; reflexivity).
  split; [exact Hrun |].
  destruct (frames_are_removed_once_composed E Console.chokes_on_reasoning
              Reading.readable "v.mp4" "Python tips" None "youtube" "720p" 3
              Composer.presets w0 (1280, 720) p init.2
              match ex.1.1 with Ok l => l | Raise _ => [] end ex.1.2 ex.2)
    as [_ [[Hkept _] | (Hdir & _ & Hreq)]].
  - apply ffmpeg_ok_keeps_files.
  - repeat constructor.
  - reflexivity.
  - reflexivity.
  - reflexivity.
  - reflexivity.
  - reflexivity.
  - vm_compute. reflexivity.
  - vm_compute in Hkept. discriminate Hkept.
  - split; [exact Hdir | exact Hreq].
Defined.

End CliExtra.

(** * The sampler in double precision *)

Module Float64Props.
Import Float64.










Lemma truediv_by_zero a : truediv a (of_Z 0) = raise ZeroDivisionError "float division by zero".
Proof. reflexivity. Qed.



End Float64Props.

Module RoundedProps.
Import Float64 Rounded Float64Props.




(** *** Timestamps *)







(** *** The loop *)

Section Loop.
Context (ffmpeg : call -> gset string -> tool_result * gset string).
Context (video dir : string).



End Loop.

Lemma writes_exits_0 ffmpeg : always_writes ffmpeg -> always_exits_0 ffmpeg.
Proof. intros Hw c fs. destruct (Hw c fs) as (o & fs' & -> & _). by exists o. Qed.


(** *** [extract_frames] *)

Section Extract.
Context (ffmpeg : call -> gset string -> tool_result * gset string).
Context (mkdtemp : gset string -> string).



End Extract.





End RoundedProps.
